(** * mail-cron: ingestion, classification and notification pipeline

    A shallow embedding of the polling pipeline of the mail-cron service
    (keyword/AI classifier, notification ledger, failure-alert limiter,
    provider sweep, user sweep, cron run) and the properties its
    specification states about it.

    Conventions of the embedding.
    - A JavaScript string is a [string] (its UTF-8 bytes).  ASCII keywords
      occur in a UTF-8 text exactly where they occur in the UTF-16 text.
    - A JavaScript integer-valued number is a [Z]; a fractional one a [Q]
      (the rounding of doubles is left out).
    - A [Date] is its [getTime ()], a [Z] of milliseconds; each place that
      reads the clock is given its own reading.
    - [String.prototype.toLowerCase] and [JSON.parse] are built-ins of the
      runtime, not code of the repository: the classifier is written in a
      Section over them.
    - An [await]ed call is a call: the run is sequential.  A call returns
      or throws ([outcome]); [try]/[catch] is [tryCatch].
    - The two Mongo collections are lists of documents, [findOne] and
      [updateOne] act on the first match, and the store itself does not
      fail.  What the run does to the outside (classifier calls, Telegram
      messages) is appended to a trace.
    - The recursion of [parseAIResponse] is bounded by the call stack, as
      it is in the engine: a call that finds no room throws. *)

From Stdlib Require Import String Ascii List ZArith QArith Qminmax Bool Lia.
From Stdlib Require Import DecimalString.
Import ListNotations.

Set Warnings "-register-all".

Open Scope string_scope.
Open Scope Z_scope.

(** ** JavaScript strings *)

Module Js.

(** [s.includes(kw)]: [kw] occurs in [s] as a contiguous substring. *)
Fixpoint includes (s kw : string) : bool :=
  if String.prefix kw s then true
  else match s with
       | EmptyString => false
       | String _ s' => includes s' kw
       end.

(** Case folding of one ASCII letter; every other byte is kept. *)
Definition lowerAscii (c : ascii) : ascii :=
  let n := nat_of_ascii c in
  if (andb (Nat.leb 65 n) (Nat.leb n 90)) then ascii_of_nat (n + 32) else c.

Fixpoint asciiLower (s : string) : string :=
  match s with
  | EmptyString => EmptyString
  | String c s' => String (lowerAscii c) (asciiLower s')
  end.

Fixpoint drop (n : nat) (s : string) : string :=
  match n, s with
  | O, _ => s
  | S n', String _ s' => drop n' s'
  | S _, EmptyString => EmptyString
  end.

(** The line terminators that [.] of a regular expression refuses:
    LF, CR, U+2028 and U+2029 (the last two as their UTF-8 bytes). *)
Definition LS : string :=
  String (ascii_of_nat 226) (String (ascii_of_nat 128) (String (ascii_of_nat 168) EmptyString)).
Definition PS : string :=
  String (ascii_of_nat 226) (String (ascii_of_nat 128) (String (ascii_of_nat 169) EmptyString)).

Definition startsLineTerminator (s : string) : bool :=
  match s with
  | EmptyString => false
  | String c _ =>
      orb (orb (Nat.eqb (nat_of_ascii c) 10) (Nat.eqb (nat_of_ascii c) 13))
          (orb (String.prefix LS s) (String.prefix PS s))
  end.

(** The longest prefix of [s] that [.*] can consume. *)
Fixpoint dotStarSpan (s : string) : string :=
  match s with
  | EmptyString => EmptyString
  | String c s' => if startsLineTerminator s then EmptyString
                   else String c (dotStarSpan s')
  end.

(** The regular expressions the service uses on sender addresses: a
    literal, or two literals around [.*]; all carry the [i] flag. *)
Inductive RegExp :=
| Lit (a : string)
| LitDotStarLit (a b : string).

(** [/a.*b/.test(s)] on an already case-folded subject. *)
Fixpoint testDotStar (a b s : string) : bool :=
  orb (andb (String.prefix a s)
            (includes (dotStarSpan (drop (String.length a) s)) b))
      match s with
      | EmptyString => false
      | String _ s' => testDotStar a b s'
      end.

(** [pattern.test(s)] for a pattern with the [i] flag and ASCII literals:
    without the [u] flag an ASCII pattern letter matches exactly its two
    ASCII cases. The literals are given in lower case. *)
Definition test (p : RegExp) (s : string) : bool :=
  match p with
  | Lit a => includes (asciiLower s) a
  | LitDotStarLit a b => testDotStar a b (asciiLower s)
  end.

End Js.

(** ** The classifier (src/helpers/classifier.js) *)

Inductive Category :=
| PLACEMENT_DRIVE | INTERVIEW | ASSESSMENT | SHORTLISTED | OTHER.

Definition Category_eqb (a b : Category) : bool :=
  match a, b with
  | PLACEMENT_DRIVE, PLACEMENT_DRIVE | INTERVIEW, INTERVIEW
  | ASSESSMENT, ASSESSMENT | SHORTLISTED, SHORTLISTED | OTHER, OTHER => true
  | _, _ => false
  end.

(** The string each member of [CATEGORIES] stands for. *)
Definition categoryName (c : Category) : string :=
  match c with
  | PLACEMENT_DRIVE => "PLACEMENT_DRIVE"
  | INTERVIEW => "INTERVIEW"
  | ASSESSMENT => "ASSESSMENT"
  | SHORTLISTED => "SHORTLISTED"
  | OTHER => "OTHER"
  end.

(** [Object.values(CATEGORIES)] *)
Definition CATEGORIES : list Category :=
  [PLACEMENT_DRIVE; INTERVIEW; ASSESSMENT; SHORTLISTED; OTHER].

Record Keywords := {
  high : list string;
  medium : list string;
  low : list string
}.

(** [Object.entries(KEYWORD_SCORES)], in insertion order. *)
Definition KEYWORD_SCORES : list (Category * Keywords) :=
  [ (PLACEMENT_DRIVE,
     {| high := ["placement drive"; "campus placement"; "placement season";
                 "placement opportunity"; "campus recruitment";
                 "recruitment drive"; "pool campus"; "off campus placement"];
        medium := ["placement"; "campus hiring"; "fresher hiring";
                   "batch hiring"; "graduate hiring"];
        low := ["career opportunity"; "job opportunity"; "hiring"] |});
    (INTERVIEW,
     {| high := ["interview schedule"; "interview invitation";
                 "technical interview"; "hr interview"; "interview round";
                 "interview slot"; "interview call"; "interview date";
                 "join the interview"; "interview link"; "zoom interview";
                 "teams interview"];
        medium := ["interview"; "interviewing"; "face to face"; "video call";
                   "screening call"];
        low := ["discussion"; "meeting scheduled"] |});
    (ASSESSMENT,
     {| high := ["online assessment"; "coding test"; "aptitude test";
                 "technical test"; "online test"; "assessment link";
                 "test invitation"; "hackerrank"; "hackerearth"; "codility";
                 "mettl"; "amcat"; "cocubes"; "assessment invitation"];
        medium := ["assessment"; "test scheduled"; "exam link";
                   "proctored test"; "coding challenge"];
        low := ["test"; "quiz"; "evaluation"] |});
    (SHORTLISTED,
     {| high := ["you have been shortlisted"; "shortlisted for";
                 "congratulations you are shortlisted";
                 "selected for next round"; "cleared the round";
                 "qualified for"; "you are selected"; "offer letter";
                 "job offer"; "we are pleased to offer"];
        medium := ["shortlisted"; "selected"; "congratulations"; "next round";
                   "moved forward"];
        low := ["next steps"; "proceeding"; "qualifying"] |}) ].

Definition NEGATIVE_KEYWORDS : list string :=
  ["unsubscribe"; "newsletter"; "marketing"; "promotional"; "sale";
   "discount"; "webinar registration"; "course enrollment"; "learn more";
   "free trial"].

Definition TRUSTED_SENDER_PATTERNS : list Js.RegExp :=
  [ Js.Lit "hr@"; Js.Lit "careers@"; Js.Lit "recruitment@"; Js.Lit "talent@";
    Js.Lit "hiring@"; Js.LitDotStarLit "noreply" "placement";
    Js.LitDotStarLit "campus" "team"; Js.Lit "@naukri.com";
    Js.Lit "@linkedin.com"; Js.Lit "@monster.com"; Js.Lit "@indeed.com";
    Js.Lit "@internshala.com"; Js.Lit "@hackerrank.com";
    Js.Lit "@hackerearth.com"; Js.Lit "@codility.com"; Js.Lit "@mettl.com" ].

Definition AI_THRESHOLD_LOW : Z := 3.
Definition AI_THRESHOLD_HIGH : Z := 8.

(** The mail-service a message was fetched from. *)
Inductive Provider := gmail | outlook.

Definition Provider_eqb (a b : Provider) : bool :=
  match a, b with
  | gmail, gmail | outlook, outlook => true
  | _, _ => false
  end.

Definition providerName (p : Provider) : string :=
  match p with gmail => "gmail" | outlook => "outlook" end.

(** The normalised message both fetch adapters build
    ([parseGmailMessage], [parseOutlookMessage]). *)
Record Email := {
  id : string;
  provider : Provider;
  messageId : string;
  threadId : option string;
  subject : string;
  from : string;
  to : string;
  date : Z;
  snippet : string;
  body : string;
  webLink : string;
  isSpam : bool
}.

(** What [keywordClassify] returns. *)
Record KeywordResult := {
  kr_important : bool;
  kr_category : Category;
  kr_score : Z;
  kr_reason : string;
  kr_categoryScores : list (Category * (Z * list string))
}.

Section Tier1.

(** [String.prototype.toLowerCase] of the runtime. *)
Variable toLowerCase : string -> string.

(** [`${email.subject} ${email.snippet} ${email.body}`.toLowerCase()] *)
Definition scanText (email : Email) : string :=
  toLowerCase (subject email ++ " " ++ snippet email ++ " " ++ body email).

(** [for (const keyword of NEGATIVE_KEYWORDS) if (text.includes(keyword)) negativeScore += 2] *)
Definition negativeScoreOf (text : string) : Z :=
  fold_left (fun acc keyword => if Js.includes text keyword then acc + 2 else acc)
            NEGATIVE_KEYWORDS 0.

(** The loop over [TRUSTED_SENDER_PATTERNS], leaving at the first match. *)
Fixpoint senderBonusLoop (patterns : list Js.RegExp) (sender : string) : Z :=
  match patterns with
  | [] => 0
  | pattern :: rest =>
      if Js.test pattern sender then 3 else senderBonusLoop rest sender
  end.

Definition senderBonusOf (email : Email) : Z :=
  senderBonusLoop TRUSTED_SENDER_PATTERNS (toLowerCase (from email)).

(** One of the three inner loops: [points] for every keyword of the tier
    that the text includes, the keyword pushed to [matchedKeywords]. *)
Definition scoreTier (text : string) (points : Z) (kws : list string)
           (acc : Z * list string) : Z * list string :=
  fold_left (fun '(score, matchedKeywords) kw =>
               if Js.includes text kw
               then (score + points, (matchedKeywords ++ [kw])%list)
               else (score, matchedKeywords))
            kws acc.

(** The body of the loop over the categories, up to the entry written to
    [categoryScores]. *)
Definition scoreCategory (text : string) (senderBonus negativeScore : Z)
           (keywords : Keywords) : Z * list string :=
  let '(score, matchedKeywords) :=
    scoreTier text 1 (low keywords)
      (scoreTier text 2 (medium keywords)
         (scoreTier text 3 (high keywords) (0, []))) in
  let score := score + senderBonus in
  let score := Z.max 0 (score - negativeScore) in
  (score, matchedKeywords).

(** The state the category loop carries. *)
Record LoopState := {
  categoryScores : list (Category * (Z * list string));
  maxCategory : Category;
  maxScore : Z
}.

Definition categoryStep (text : string) (senderBonus negativeScore : Z)
           (st : LoopState) (entry : Category * Keywords) : LoopState :=
  let '(category, keywords) := entry in
  let '(score, matchedKeywords) :=
    scoreCategory text senderBonus negativeScore keywords in
  let scores := (categoryScores st ++ [(category, (score, matchedKeywords))])%list in
  if score >? maxScore st
  then {| categoryScores := scores; maxCategory := category; maxScore := score |}
  else {| categoryScores := scores; maxCategory := maxCategory st;
          maxScore := maxScore st |}.

Definition categoryLoop (text : string) (senderBonus negativeScore : Z)
           (entries : list (Category * Keywords)) (st : LoopState) : LoopState :=
  fold_left (categoryStep text senderBonus negativeScore) entries st.

(** [categoryScores[maxCategory]?.matchedKeywords || []] *)
Fixpoint matchedKeywordsOf (scores : list (Category * (Z * list string)))
         (c : Category) : list string :=
  match scores with
  | [] => []
  | (c', (_, mk)) :: rest =>
      if Category_eqb c' c then mk else matchedKeywordsOf rest c
  end.

Definition keywordClassify (email : Email) : KeywordResult :=
  let text := scanText email in
  let negativeScore := negativeScoreOf text in
  let senderBonus := senderBonusOf email in
  let st := categoryLoop text senderBonus negativeScore KEYWORD_SCORES
              {| categoryScores := []; maxCategory := OTHER; maxScore := 0 |} in
  let important :=
    andb (negb (Category_eqb (maxCategory st) OTHER)) (maxScore st >=? 2) in
  let matchedKws := matchedKeywordsOf (categoryScores st) (maxCategory st) in
  let reason :=
    match matchedKws with
    | [] => "No strong keyword matches"
    | _ => "Matched keywords: " ++ String.concat ", " (firstn 3 matchedKws)
    end in
  {| kr_important := important;
     kr_category := maxCategory st;
     kr_score := maxScore st;
     kr_reason := reason;
     kr_categoryScores := categoryScores st |}.

(** [Math.min(keywordResult.score / 10, 1.0)] *)
Definition keywordConfidence (r : KeywordResult) : Q :=
  Qmin (kr_score r # 10) 1.

End Tier1.

(** ** JavaScript values and control *)

(** A call either returns or throws; [Threw] carries [error.message]. *)
Inductive outcome (A : Type) :=
| Returned (a : A)
| Threw (message : string).
Arguments Returned {A} a.
Arguments Threw {A} message.

Definition bind {A B} (m : outcome A) (k : A -> outcome B) : outcome B :=
  match m with
  | Returned a => k a
  | Threw e => Threw e
  end.

Notation "x <- m ;; k" := (bind m (fun x => k))
  (at level 61, m at next level, right associativity).

(** [try { body } catch (e) { handler e }] *)
Definition tryCatch {A} (body : outcome A) (handler : string -> outcome A) : outcome A :=
  match body with
  | Returned a => Returned a
  | Threw e => handler e
  end.

(** The values [JSON.parse] can build, [undefined], and arrays that were
    given named properties afterwards. An object is the list of its own
    properties in insertion order. *)
Inductive JsVal :=
| JUndefined
| JNull
| JBool (b : bool)
| JNum (q : Q)
| JStr (s : string)
| JObj (props : list (string * JsVal))
| JArr (elems : list JsVal) (props : list (string * JsVal)).

Fixpoint lookupProp (props : list (string * JsVal)) (k : string) : JsVal :=
  match props with
  | [] => JUndefined
  | (k', v) :: rest => if String.eqb k' k then v else lookupProp rest k
  end.

Fixpoint assignProp (props : list (string * JsVal)) (k : string) (v : JsVal)
  : list (string * JsVal) :=
  match props with
  | [] => [(k, v)]
  | (k', v') :: rest =>
      if String.eqb k' k then (k', v) :: rest else (k', v') :: assignProp rest k v
  end.

(** [o.k] for a key [k] that is neither an index, nor [length], nor a
    member of a built-in prototype (the four result fields and [method],
    [score] are such keys). Reading a property of [null] or [undefined]
    throws a TypeError; a primitive has no such property. *)
Definition getProp (o : JsVal) (k : string) : outcome JsVal :=
  match o with
  | JUndefined | JNull => Threw "Cannot read properties of null or undefined"
  | JBool _ | JNum _ | JStr _ => Returned JUndefined
  | JObj props => Returned (lookupProp props k)
  | JArr _ props => Returned (lookupProp props k)
  end.

(** [o.k = v] in a module that is not in strict mode (classifier.js is a
    CommonJS module without the strict directive): on a primitive the
    assignment is silently dropped. *)
Definition setProp (o : JsVal) (k : string) (v : JsVal) : outcome JsVal :=
  match o with
  | JUndefined | JNull => Threw "Cannot set properties of null or undefined"
  | JBool _ | JNum _ | JStr _ => Returned o
  | JObj props => Returned (JObj (assignProp props k v))
  | JArr elems props => Returned (JArr elems (assignProp props k v))
  end.

Inductive JsType := TUndefined | TObject | TBoolean | TNumber | TString.

Definition typeof (v : JsVal) : JsType :=
  match v with
  | JUndefined => TUndefined
  | JNull | JObj _ | JArr _ _ => TObject
  | JBool _ => TBoolean
  | JNum _ => TNumber
  | JStr _ => TString
  end.

(** [ToBoolean] *)
Definition truthy (v : JsVal) : bool :=
  match v with
  | JUndefined | JNull => false
  | JBool b => b
  | JNum q => negb (Qeq_bool q 0)
  | JStr s => negb (String.eqb s EmptyString)
  | JObj _ | JArr _ _ => true
  end.

Definition indexKey (i : nat) : string :=
  NilEmpty.string_of_uint (Nat.to_uint i).

Fixpoint indexed {A} (f : A -> JsVal) (l : list A) (i : nat) : list (string * JsVal) :=
  match l with
  | [] => []
  | x :: rest => (indexKey i, f x) :: indexed f rest (S i)
  end.

(** The own enumerable properties an object spread [{...v}] copies: none
    of a number, boolean, [null] or [undefined]; the characters of a string
    under their indices; the elements of an array and then its named
    properties. *)
Definition ownProps (v : JsVal) : list (string * JsVal) :=
  match v with
  | JUndefined | JNull | JBool _ | JNum _ => []
  | JStr s => indexed (fun c => JStr (String c EmptyString)) (list_ascii_of_string s) 0
  | JObj props => props
  | JArr elems props => (indexed (fun x => x) elems 0 ++ props)%list
  end.

Definition isCategoryName (v : JsVal) : bool :=
  match v with
  | JStr s => existsb (fun c => String.eqb (categoryName c) s) CATEGORIES
  | _ => false
  end.

(** [typeof c !== 'number' || c < 0 || c > 1] *)
Definition badConfidence (v : JsVal) : bool :=
  match v with
  | JNum q => orb (negb (Qle_bool 0 q)) (negb (Qle_bool q 1))
  | _ => true
  end.

(** The first match of [/\{[\s\S]*\}/]: from the first opening brace to
    the last closing brace after it. *)
Fixpoint upToLast (c : ascii) (s : string) : option string :=
  match s with
  | EmptyString => None
  | String a s' =>
      match upToLast c s' with
      | Some p => Some (String a p)
      | None => if Ascii.eqb a c then Some (String a EmptyString) else None
      end
  end.

Fixpoint matchJsonObject (s : string) : option string :=
  match s with
  | EmptyString => None
  | String a s' =>
      if Ascii.eqb a "{"%char
      then match upToLast "}"%char s' with
           | Some p => Some (String a p)
           | None => None
           end
      else matchJsonObject s'
  end.

(** The result the classifier hands on when nothing could be parsed. *)
Definition unparseable : JsVal :=
  JObj [ ("important", JBool false); ("category", JStr (categoryName OTHER));
         ("confidence", JNum 0); ("reason", JStr "Failed to parse AI response") ].

(** What the Gemini endpoint answers: the call throws (transport error,
    timeout, HTTP status), or it resolves and
    [response.data?.candidates?.[0]?.content?.parts?.[0]?.text] is a string
    or is missing. *)
Definition Backend := Email -> outcome (option string).

Section Tier2.

Variable toLowerCase : string -> string.

(** [JSON.parse]; [None] is its SyntaxError. *)
Variable JSON_parse : string -> option JsVal.

(** The try block of [parseAIResponse]. *)
Definition validateResponse (responseText : string) : outcome JsVal :=
  result <- match JSON_parse responseText with
            | Some v => Returned v
            | None => Threw "Unexpected token in JSON"
            end ;;
  important <- getProp result "important" ;;
  result <- match typeof important with
            | TBoolean => Returned result
            | _ => setProp result "important" (JBool false)
            end ;;
  category <- getProp result "category" ;;
  result <- (if isCategoryName category then Returned result
             else setProp result "category" (JStr (categoryName OTHER))) ;;
  confidence <- getProp result "confidence" ;;
  result <- (if badConfidence confidence
             then setProp result "confidence" (JNum (1 # 2))
             else Returned result) ;;
  reason <- getProp result "reason" ;;
  result <- match typeof reason with
            | TString => Returned result
            | _ => setProp result "reason" (JStr "AI classification")
            end ;;
  Returned result.

(** [parseAIResponse], on a call stack with room for [stack] more frames
    of it: a call that finds no room throws the RangeError of the engine,
    which the [catch] around the recursive call absorbs like any other. *)
Fixpoint parseAIResponse (stack : nat) (responseText : string) : outcome JsVal :=
  match stack with
  | O => Threw "Maximum call stack size exceeded"
  | S stack' =>
      tryCatch (validateResponse responseText)
        (fun parseError =>
           let fallThrough := Returned unparseable in
           match matchJsonObject responseText with
           | Some jsonMatch =>
               tryCatch (parseAIResponse stack' jsonMatch) (fun e => fallThrough)
           | None => fallThrough
           end)
  end.

(** [process.env.GEMINI_API_KEY] is set. *)
Variable GEMINI_API_KEY : bool.
(** The endpoint: [axios.post] with the prompt built from the message. *)
Variable gemini : Backend.
(** Frames left for [parseAIResponse] where [aiClassify] calls it. *)
Variable stackRoom : nat.

Definition aiClassify (email : Email) : outcome JsVal :=
  if negb GEMINI_API_KEY then Threw "Gemini API key not configured"
  else
    (* the catch of aiClassify logs and throws the error again *)
    responseText <- gemini email ;;
    match responseText with
    | None | Some EmptyString => Threw "Empty response from Gemini"
    | Some text => parseAIResponse stackRoom text
    end.

(** The literal both keyword exits of [classifyEmail] build. *)
Definition keywordAnswer (keywordResult : KeywordResult) (method : string) : JsVal :=
  JObj [ ("important", JBool (kr_important keywordResult));
         ("category", JStr (categoryName (kr_category keywordResult)));
         ("confidence", JNum (keywordConfidence keywordResult));
         ("reason", JStr (kr_reason keywordResult));
         ("method", JStr method) ].

Definition classifyEmail (email : Email) : outcome JsVal :=
  let keywordResult := keywordClassify toLowerCase email in
  if orb (kr_score keywordResult >=? AI_THRESHOLD_HIGH)
         (kr_score keywordResult <=? AI_THRESHOLD_LOW)
  then Returned (keywordAnswer keywordResult "keyword")
  else
    let fallback := Returned (keywordAnswer keywordResult "keyword_fallback") in
    if GEMINI_API_KEY
    then tryCatch
           (aiResult <- aiClassify email ;;
            Returned (JObj (assignProp (ownProps aiResult) "method" (JStr "ai"))))
           (fun error => fallback)
    else fallback.

End Tier2.

(** ** A reader of JSON texts

    [Json.parse] stands for [JSON.parse] where an example has to run: it
    reads the JSON grammar (objects, arrays, strings, numbers and the three
    literals), a repeated key keeping its first place and its last value;
    it refuses the [\u] escapes, which no example uses. The statements
    about every response string are made for any [JSON_parse]. *)

Module Json.

Definition quote : ascii := ascii_of_nat 34.
Definition backslash : ascii := ascii_of_nat 92.

Definition isSpace (c : ascii) : bool :=
  let n := nat_of_ascii c in
  orb (orb (Nat.eqb n 32) (Nat.eqb n 9)) (orb (Nat.eqb n 10) (Nat.eqb n 13)).

Fixpoint skipSpace (s : string) : string :=
  match s with
  | String c s' => if isSpace c then skipSpace s' else s
  | EmptyString => s
  end.

Definition isDigit (c : ascii) : bool :=
  andb (Nat.leb 48 (nat_of_ascii c)) (Nat.leb (nat_of_ascii c) 57).

Definition digitValue (c : ascii) : Z := Z.of_nat (nat_of_ascii c) - 48.

(** The longest run of digits in front of [s]: its value after [acc],
    its length after [n], and the rest. *)
Fixpoint readDigits (s : string) (acc : Z) (n : nat) : Z * nat * string :=
  match s with
  | String c s' =>
      if isDigit c then readDigits s' (10 * acc + digitValue c) (S n) else (acc, n, s)
  | EmptyString => (acc, n, s)
  end.

Definition readInteger (s : string) : option (Z * string) :=
  match s with
  | String c s' =>
      if Ascii.eqb c "0"%char then Some (0, s')
      else if isDigit c then let '(v, _, rest) := readDigits s 0 0 in Some (v, rest)
      else None
  | EmptyString => None
  end.

Definition readFraction (s : string) : option (Z * nat * string) :=
  match s with
  | String "."%char s' =>
      let '(v, n, rest) := readDigits s' 0 0 in
      match n with O => None | _ => Some (v, n, rest) end
  | _ => Some (0, O, s)
  end.

Definition readExponent (s : string) : option (Z * string) :=
  match s with
  | String c s' =>
      if orb (Ascii.eqb c "e"%char) (Ascii.eqb c "E"%char)
      then
        let '(negative, s'') :=
          match s' with
          | String "-"%char r => (true, r)
          | String "+"%char r => (false, r)
          | _ => (false, s')
          end in
        let '(v, n, rest) := readDigits s'' 0 0 in
        match n with
        | O => None
        | _ => Some (if negative : bool then - v else v, rest)
        end
      else Some (0, s)
  | EmptyString => Some (0, s)
  end.

Definition readNumber (s : string) : option (Q * string) :=
  let '(negative, s) :=
    match s with
    | String "-"%char r => (true, r)
    | _ => (false, s)
    end in
  match readInteger s with
  | None => None
  | Some (i, s) =>
      match readFraction s with
      | None => None
      | Some (f, k, s) =>
          match readExponent s with
          | None => None
          | Some (e, s) =>
              let mantissa := i * 10 ^ Z.of_nat k + f in
              let mantissa := if negative : bool then - mantissa else mantissa in
              let scale := e - Z.of_nat k in
              let q := if 0 <=? scale
                       then inject_Z (mantissa * 10 ^ scale)
                       else mantissa # Z.to_pos (10 ^ (- scale)) in
              Some (q, s)
          end
      end
  end.

Definition unescape (c : ascii) : option ascii :=
  if Ascii.eqb c quote then Some quote
  else if Ascii.eqb c backslash then Some backslash
  else if Ascii.eqb c "/"%char then Some "/"%char
  else if Ascii.eqb c "b"%char then Some (ascii_of_nat 8)
  else if Ascii.eqb c "f"%char then Some (ascii_of_nat 12)
  else if Ascii.eqb c "n"%char then Some (ascii_of_nat 10)
  else if Ascii.eqb c "r"%char then Some (ascii_of_nat 13)
  else if Ascii.eqb c "t"%char then Some (ascii_of_nat 9)
  else None.

(** The characters of a string literal after its opening quote. *)
Fixpoint readString (s : string) : option (string * string) :=
  match s with
  | EmptyString => None
  | String c s' =>
      if Ascii.eqb c quote then Some (EmptyString, s')
      else if Ascii.eqb c backslash
      then match s' with
           | String e s'' =>
               match unescape e, readString s'' with
               | Some c', Some (str, rest) => Some (String c' str, rest)
               | _, _ => None
               end
           | EmptyString => None
           end
      else if Nat.ltb (nat_of_ascii c) 32 then None
      else match readString s' with
           | Some (str, rest) => Some (String c str, rest)
           | None => None
           end
  end.

Fixpoint readValue (fuel : nat) (s : string) {struct fuel} : option (JsVal * string) :=
  match fuel with
  | O => None
  | S fuel' =>
      let elements :=
        fix elements (n : nat) (s : string) (acc : list JsVal) {struct n}
          : option (JsVal * string) :=
          match n with
          | O => None
          | S n' =>
              match readValue fuel' s with
              | Some (v, rest) =>
                  match skipSpace rest with
                  | String ","%char rest' => elements n' rest' (acc ++ [v])%list
                  | String "]"%char rest' => Some (JArr (acc ++ [v])%list [], rest')
                  | _ => None
                  end
              | None => None
              end
          end in
      let members :=
        fix members (n : nat) (s : string) (acc : list (string * JsVal)) {struct n}
          : option (JsVal * string) :=
          match n with
          | O => None
          | S n' =>
              match skipSpace s with
              | String c s1 =>
                  if Ascii.eqb c quote
                  then match readString s1 with
                       | Some (key, s2) =>
                           match skipSpace s2 with
                           | String ":"%char s3 =>
                               match readValue fuel' s3 with
                               | Some (v, rest) =>
                                   match skipSpace rest with
                                   | String ","%char rest' =>
                                       members n' rest' (assignProp acc key v)
                                   | String "}"%char rest' =>
                                       Some (JObj (assignProp acc key v), rest')
                                   | _ => None
                                   end
                               | None => None
                               end
                           | _ => None
                           end
                       | None => None
                       end
                  else None
              | EmptyString => None
              end
          end in
      match skipSpace s with
      | EmptyString => None
      | String c s' =>
          if Ascii.eqb c "{"%char
          then match skipSpace s' with
               | String "}"%char rest => Some (JObj [], rest)
               | _ => members (String.length s') s' []
               end
          else if Ascii.eqb c "["%char
          then match skipSpace s' with
               | String "]"%char rest => Some (JArr [] [], rest)
               | _ => elements (String.length s') s' []
               end
          else if Ascii.eqb c quote
          then match readString s' with
               | Some (str, rest) => Some (JStr str, rest)
               | None => None
               end
          else if String.prefix "true" (String c s') then Some (JBool true, Js.drop 4 (String c s'))
          else if String.prefix "false" (String c s') then Some (JBool false, Js.drop 5 (String c s'))
          else if String.prefix "null" (String c s') then Some (JNull, Js.drop 4 (String c s'))
          else match readNumber (String c s') with
               | Some (q, rest) => Some (JNum q, rest)
               | None => None
               end
      end
  end.

(** [s] between double quotes, to write JSON texts with. *)
Definition quoted (s : string) : string :=
  String quote (s ++ String quote EmptyString).

(** [JSON.parse] without a reviver. *)
Definition parse (s : string) : option JsVal :=
  match readValue (S (String.length s)) s with
  | Some (v, rest) =>
      match skipSpace rest with
      | EmptyString => Some v
      | _ => None
      end
  | None => None
  end.

End Json.

(** ** The documents of the store (src/models/index.js) *)

Record PerProvider (A : Type) := {
  at_gmail : A;
  at_outlook : A
}.
Arguments at_gmail {A} _.
Arguments at_outlook {A} _.

(** [o[provider]] and [$set: { 'o.provider': a }] *)
Definition atProvider {A} (o : PerProvider A) (p : Provider) : A :=
  match p with gmail => at_gmail o | outlook => at_outlook o end.

Definition setProvider {A} (o : PerProvider A) (p : Provider) (a : A) : PerProvider A :=
  match p with
  | gmail => {| at_gmail := a; at_outlook := at_outlook o |}
  | outlook => {| at_gmail := at_gmail o; at_outlook := a |}
  end.

(** [providers.<provider>] of a user, without the two fields the sweep
    neither reads nor writes ([email], [connectedAt]). *)
Record ProviderConfig := {
  enabled : bool;
  refreshToken : option string;
  lastError : option string;
  lastErrorAt : option Z
}.

Record Settings := {
  notificationsEnabled : bool;
  categories : list (string * bool)
}.

Record User := {
  _id : string;
  telegramChatId : string;
  firstName : string;
  providers : PerProvider ProviderConfig;
  settings : Settings;
  lastChecked : PerProvider (option Z);
  lastFailureAlert : PerProvider (option Z);
  isActive : bool
}.

Record EmailDoc := {
  doc_userId : string;
  doc_telegramChatId : string;
  doc_provider : Provider;
  doc_messageId : string;
  doc_threadId : option string;
  doc_uniqueId : string;
  doc_subject : string;
  doc_from : string;
  doc_to : string;
  doc_snippet : string;
  doc_body : string;
  doc_webLink : string;
  doc_receivedAt : Z;
  doc_createdAt : Z;
  doc_classification : JsVal;
  doc_notified : bool;
  doc_notifiedAt : option Z
}.

(** What the run does to the outside, in order. *)
Inductive Event :=
| Classified (email : Email)
| EmailNotification (chatId : string) (email : Email) (delivered : bool)
| FailureAlert (chatId : string) (p : Provider) (delivered : bool).

(** The two collections and the calls made so far. *)
Record World := {
  users : list User;
  emails : list EmailDoc;
  trace : list Event
}.

Definition withUsers (w : World) (us : list User) : World :=
  {| users := us; emails := emails w; trace := trace w |}.
Definition withEmails (w : World) (ds : list EmailDoc) : World :=
  {| users := users w; emails := ds; trace := trace w |}.
Definition emit (ev : Event) (w : World) : World :=
  {| users := users w; emails := emails w; trace := (trace w ++ [ev])%list |}.

(** ** The store operations (helpers/database.js) *)

Definition FAILURE_ALERT_COOLDOWN_MS : Z := 2 * 60 * 60 * 1000.

(** [User.findOne({ telegramChatId })] *)
Definition getUserByChatId (chatId : string) (w : World) : option User :=
  find (fun u => String.eqb (telegramChatId u) chatId) (users w).

(** [User.find({ isActive: true, $or: [gmail enabled, outlook enabled] })] *)
Definition getActiveUsers (w : World) : list User :=
  filter (fun u => andb (isActive u)
                        (orb (enabled (at_gmail (providers u)))
                             (enabled (at_outlook (providers u)))))
         (users w).

(** [User.updateOne({ telegramChatId }, { $set })]: the first match. *)
Fixpoint updateOne (chatId : string) (set : User -> User) (us : list User) : list User :=
  match us with
  | [] => []
  | u :: rest =>
      if String.eqb (telegramChatId u) chatId then set u :: rest
      else u :: updateOne chatId set rest
  end.

Definition setProviders (u : User) (ps : PerProvider ProviderConfig) : User :=
  {| _id := _id u; telegramChatId := telegramChatId u; firstName := firstName u;
     providers := ps; settings := settings u; lastChecked := lastChecked u;
     lastFailureAlert := lastFailureAlert u; isActive := isActive u |}.

Definition setLastChecked (u : User) (lc : PerProvider (option Z)) : User :=
  {| _id := _id u; telegramChatId := telegramChatId u; firstName := firstName u;
     providers := providers u; settings := settings u; lastChecked := lc;
     lastFailureAlert := lastFailureAlert u; isActive := isActive u |}.

Definition setLastFailureAlert (u : User) (lf : PerProvider (option Z)) : User :=
  {| _id := _id u; telegramChatId := telegramChatId u; firstName := firstName u;
     providers := providers u; settings := settings u; lastChecked := lastChecked u;
     lastFailureAlert := lf; isActive := isActive u |}.

Definition recordProviderError (chatId : string) (p : Provider) (error : string)
           (now : Z) (w : World) : World :=
  withUsers w
    (updateOne chatId
       (fun u =>
          let c := atProvider (providers u) p in
          setProviders u
            (setProvider (providers u) p
               {| enabled := enabled c; refreshToken := refreshToken c;
                  lastError := Some error; lastErrorAt := Some now |}))
       (users w)).

Definition updateLastChecked (chatId : string) (p : Provider) (now : Z) (w : World) : World :=
  withUsers w
    (updateOne chatId (fun u => setLastChecked u (setProvider (lastChecked u) p (Some now)))
       (users w)).

Definition canSendFailureAlert (chatId : string) (p : Provider) (now : Z) (w : World) : bool :=
  match getUserByChatId chatId w with
  | None => false
  | Some user =>
      match atProvider (lastFailureAlert user) p with
      | None => true
      | Some lastAlert => now - lastAlert >=? FAILURE_ALERT_COOLDOWN_MS
      end
  end.

Definition recordFailureAlert (chatId : string) (p : Provider) (now : Z) (w : World) : World :=
  withUsers w
    (updateOne chatId
       (fun u => setLastFailureAlert u (setProvider (lastFailureAlert u) p (Some now)))
       (users w)).

(** [Email.findOne({ telegramChatId, provider, messageId, notified: true })] *)
Definition isEmailNotified (chatId : string) (p : Provider) (mid : string) (w : World) : bool :=
  existsb (fun d => andb (andb (String.eqb (doc_telegramChatId d) chatId)
                               (Provider_eqb (doc_provider d) p))
                         (andb (String.eqb (doc_messageId d) mid) (doc_notified d)))
          (emails w).

(** [`${email.provider}_${email.messageId}`] *)
Definition uniqueIdOf (email : Email) : string :=
  providerName (provider email) ++ "_" ++ messageId email.

(** The [classification] sub-document [saveEmail] writes. *)
Definition classificationDoc (classification : JsVal) : JsVal :=
  JObj [ ("important", lookupProp (ownProps classification) "important");
         ("category", lookupProp (ownProps classification) "category");
         ("confidence", lookupProp (ownProps classification) "confidence");
         ("reason", lookupProp (ownProps classification) "reason");
         ("method", lookupProp (ownProps classification) "method") ].

(** The [$set] part of the update. *)
Definition markNotified (classification : JsVal) (now : Z) (d : EmailDoc) : EmailDoc :=
  {| doc_userId := doc_userId d; doc_telegramChatId := doc_telegramChatId d;
     doc_provider := doc_provider d; doc_messageId := doc_messageId d;
     doc_threadId := doc_threadId d; doc_uniqueId := doc_uniqueId d;
     doc_subject := doc_subject d; doc_from := doc_from d; doc_to := doc_to d;
     doc_snippet := doc_snippet d; doc_body := doc_body d;
     doc_webLink := doc_webLink d; doc_receivedAt := doc_receivedAt d;
     doc_createdAt := doc_createdAt d;
     doc_classification := classificationDoc classification;
     doc_notified := true; doc_notifiedAt := Some now |}.

(** The document an upsert inserts: [$setOnInsert] and [$set] together. *)
Definition insertedDoc (user : User) (email : Email) (classification : JsVal)
           (now : Z) : EmailDoc :=
  {| doc_userId := _id user; doc_telegramChatId := telegramChatId user;
     doc_provider := provider email; doc_messageId := messageId email;
     doc_threadId := threadId email; doc_uniqueId := uniqueIdOf email;
     doc_subject := subject email; doc_from := from email; doc_to := to email;
     doc_snippet := snippet email; doc_body := body email;
     doc_webLink := webLink email; doc_receivedAt := date email;
     doc_createdAt := now;
     doc_classification := classificationDoc classification;
     doc_notified := true; doc_notifiedAt := Some now |}.

(** [Email.findOneAndUpdate({ uniqueId }, ..., { upsert: true })] *)
Fixpoint findOneAndUpdate (uniqueId : string) (set : EmailDoc -> EmailDoc)
         (inserted : EmailDoc) (ds : list EmailDoc) : list EmailDoc :=
  match ds with
  | [] => [inserted]
  | d :: rest =>
      if String.eqb (doc_uniqueId d) uniqueId then set d :: rest
      else d :: findOneAndUpdate uniqueId set inserted rest
  end.

Definition saveEmail (user : User) (email : Email) (classification : JsVal)
           (now : Z) (w : World) : World :=
  withEmails w
    (findOneAndUpdate (uniqueIdOf email) (markNotified classification now)
       (insertedDoc user email classification now) (emails w)).

(** ** The sweep (src/index.js) *)

Definition DEFAULT_LOOKBACK_MINUTES : Z := 30.

(** [getSinceTimestamp], [now] being what [Date.now()] returns. A stored
    checkpoint is a [Date] object, which is truthy whatever its time. *)
Definition getSinceTimestamp (now : Z) (user : User) (p : Provider) : Z :=
  match atProvider (lastChecked user) p with
  | Some checked =>
      let thirtyMinsAgo := now - DEFAULT_LOOKBACK_MINUTES * 60 * 1000 in
      Z.max checked thirtyMinsAgo
  | None => now - DEFAULT_LOOKBACK_MINUTES * 60 * 1000
  end.

(** What one invocation meets outside the repository: the mailbox
    adapters, the classifier, the Telegram API, and the clock at each place
    that reads it. *)
Record Env := {
  fetchEmails : Provider -> option string -> Z -> outcome (list Email);
  classifier : Email -> outcome JsVal;
  sendMessage : string -> Email -> bool;
  sendAlertMessage : string -> Provider -> bool;
  clockSince : Z;
  clockSaved : Z;
  clockChecked : Z;
  clockError : Z;
  clockAlertCheck : Z;
  clockAlertStamp : Z
}.

Record ProviderResult := {
  emailsScanned : Z;
  importantFound : Z;
  notificationsSent : Z
}.

(** [ToPropertyKey] of a value used as a key. [None] stands for the
    decimal text of a number and for the comma-joined text of an array of
    several elements: the settings of a user have no key of either form. *)
Fixpoint toPropertyKey (v : JsVal) : option string :=
  match v with
  | JUndefined => Some "undefined"
  | JNull => Some "null"
  | JBool true => Some "true"
  | JBool false => Some "false"
  | JNum _ => None
  | JStr s => Some s
  | JObj _ => Some "[object Object]"
  | JArr elems _ =>
      match elems with
      | [] => Some EmptyString
      | [JUndefined] | [JNull] => Some EmptyString
      | [x] => toPropertyKey x
      | _ :: _ :: _ => None
      end
  end.

Fixpoint lookupFlag (flags : list (string * bool)) (k : string) : option bool :=
  match flags with
  | [] => None
  | (k', b) :: rest => if String.eqb k' k then Some b else lookupFlag rest k
  end.

(** [user.settings?.categories?.[classification.category] !== false] *)
Definition categoryEnabled (user : User) (category : JsVal) : bool :=
  match toPropertyKey category with
  | Some key =>
      match lookupFlag (categories (settings user)) key with
      | Some false => false
      | _ => true
      end
  | None => true
  end.

(** [bot.sendEmailNotification]: building the text throws, inside its
    [try], when [classification.category] has no [replace], and the API
    call may fail; both give [false]. *)
Definition sendEmailNotification (env : Env) (chatId : string) (email : Email)
           (classification : JsVal) : bool :=
  match getProp classification "category" with
  | Returned (JStr _) => sendMessage env chatId email
  | _ => false
  end.

(** [bot.sendFailureAlert] *)
Definition sendFailureAlert (env : Env) (chatId : string) (p : Provider) : bool :=
  sendAlertMessage env chatId p.

Definition foundImportant (r : ProviderResult) : ProviderResult :=
  {| emailsScanned := emailsScanned r; importantFound := importantFound r + 1;
     notificationsSent := notificationsSent r |}.

Definition sentNotification (r : ProviderResult) : ProviderResult :=
  {| emailsScanned := emailsScanned r; importantFound := importantFound r;
     notificationsSent := notificationsSent r + 1 |}.

(** One turn of the loop of [processProvider], its [try]/[catch] included:
    whatever a turn had done when it threw stays done. *)
Definition processEmail (env : Env) (user : User) (p : Provider)
           (st : ProviderResult * World) (email : Email) : ProviderResult * World :=
  let '(result, w) := st in
  let alreadyNotified := isEmailNotified (telegramChatId user) p (messageId email) w in
  if alreadyNotified then (result, w)
  else
    let w := emit (Classified email) w in
    match classifier env email with
    | Threw _ => (result, w)
    | Returned classification =>
        match getProp classification "category" with
        | Threw _ => (result, w)
        | Returned category =>
            match getProp classification "important" with
            | Threw _ => (result, w)
            | Returned important =>
                if andb (truthy important) (categoryEnabled user category)
                then
                  let result := foundImportant result in
                  let sent := sendEmailNotification env (telegramChatId user)
                                email classification in
                  let w := emit (EmailNotification (telegramChatId user) email sent) w in
                  if sent
                  then (sentNotification result,
                        saveEmail user email classification (clockSaved env) w)
                  else (result, w)
                else (result, w)
            end
        end
    end.

Definition processProvider (env : Env) (user : User) (p : Provider) (w : World)
  : outcome ProviderResult * World :=
  let refreshToken := refreshToken (atProvider (providers user) p) in
  let sinceTimestamp := getSinceTimestamp (clockSince env) user p in
  match fetchEmails env p refreshToken sinceTimestamp with
  | Threw e => (Threw e, w)
  | Returned fetched =>
      let result := {| emailsScanned := Z.of_nat (List.length fetched);
                       importantFound := 0; notificationsSent := 0 |} in
      let '(result, w) := fold_left (processEmail env user p) fetched (result, w) in
      let w := updateLastChecked (telegramChatId user) p (clockChecked env) w in
      (Returned result, w)
  end.

Definition handleProviderFailure (env : Env) (user : User) (p : Provider)
           (errorMessage : string) (w : World) : World :=
  let w := recordProviderError (telegramChatId user) p errorMessage (clockError env) w in
  let canAlert := canSendFailureAlert (telegramChatId user) p (clockAlertCheck env) w in
  if canAlert
  then
    let sent := sendFailureAlert env (telegramChatId user) p in
    let w := emit (FailureAlert (telegramChatId user) p sent) w in
    if sent then recordFailureAlert (telegramChatId user) p (clockAlertStamp env) w
    else w
  else w.

Record UserResult := {
  name : string;
  chatId : string;
  userEmailsScanned : Z;
  userImportantFound : Z;
  userNotificationsSent : Z;
  errors : list string
}.

(** [refreshToken] is truthy: neither [null] nor the empty string. *)
Definition hasToken (c : ProviderConfig) : bool :=
  match refreshToken c with
  | Some t => negb (String.eqb t EmptyString)
  | None => false
  end.

(** One of the two provider blocks of [processUserEmails]. *)
Definition sweepProvider (env : Env) (user : User) (p : Provider)
           (st : UserResult * World) : UserResult * World :=
  let '(result, w) := st in
  if andb (enabled (atProvider (providers user) p))
          (hasToken (atProvider (providers user) p))
  then
    match processProvider env user p w with
    | (Returned providerResult, w) =>
        ({| name := name result; chatId := chatId result;
            userEmailsScanned := userEmailsScanned result + emailsScanned providerResult;
            userImportantFound := userImportantFound result + importantFound providerResult;
            userNotificationsSent :=
              userNotificationsSent result + notificationsSent providerResult;
            errors := errors result |}, w)
    | (Threw message, w) =>
        ({| name := name result; chatId := chatId result;
            userEmailsScanned := userEmailsScanned result;
            userImportantFound := userImportantFound result;
            userNotificationsSent := userNotificationsSent result;
            errors := (errors result ++ [(providerName p ++ ": " ++ message)%string])%list |},
         handleProviderFailure env user p message w)
    end
  else (result, w).

Definition processUserEmails (env : Env) (user : User) (w : World)
  : outcome UserResult * World :=
  let result := {| name := firstName user; chatId := telegramChatId user;
                   userEmailsScanned := 0; userImportantFound := 0;
                   userNotificationsSent := 0; errors := [] |} in
  if negb (notificationsEnabled (settings user)) then (Returned result, w)
  else
    let '(result, w) := sweepProvider env user outlook
                          (sweepProvider env user gmail (result, w)) in
    (Returned result, w).

Record Summary := {
  usersProcessed : Z;
  totalEmailsScanned : Z;
  totalImportantFound : Z;
  totalNotificationsSent : Z;
  failures : Z;
  userResults : list UserResult
}.

(** One turn of the loop of the cron route. *)
Definition cronStep (env : Env) (st : Summary * World) (user : User) : Summary * World :=
  let '(summary, w) := st in
  match processUserEmails env user w with
  | (Returned userResult, w) =>
      ({| usersProcessed := usersProcessed summary + 1;
          totalEmailsScanned := totalEmailsScanned summary + userEmailsScanned userResult;
          totalImportantFound := totalImportantFound summary + userImportantFound userResult;
          totalNotificationsSent :=
            totalNotificationsSent summary + userNotificationsSent userResult;
          failures := failures summary + Z.of_nat (List.length (errors userResult));
          userResults := (userResults summary ++ [userResult])%list |}, w)
  | (Threw _, w) =>
      ({| usersProcessed := usersProcessed summary;
          totalEmailsScanned := totalEmailsScanned summary;
          totalImportantFound := totalImportantFound summary;
          totalNotificationsSent := totalNotificationsSent summary;
          failures := failures summary + 1;
          userResults := userResults summary |}, w)
  end.

(** The route [/cron/check] once the services are initialised: the users
    are read once, then swept in turn. *)
Definition cronCheck (env : Env) (w : World) : Summary * World :=
  fold_left (cronStep env) (getActiveUsers w)
    ({| usersProcessed := 0; totalEmailsScanned := 0; totalImportantFound := 0;
        totalNotificationsSent := 0; failures := 0; userResults := [] |}, w).


(** ** The bot (helpers/bot.js) *)

(** The entries of [MESSAGES] that the handlers below send, [{email}]
    filled in. *)
Inductive BotMessage :=
| GMAIL_SUCCESS (email : string)
| OUTLOOK_SUCCESS (email : string)
| ADD_ANOTHER
| NOTIFICATIONS_PAUSED
| NOTIFICATIONS_RESUMED
| ERROR.

(** [{ $set: { 'settings.notificationsEnabled': b } }] *)
Definition setNotificationsEnabled (b : bool) (u : User) : User :=
  {| _id := _id u; telegramChatId := telegramChatId u; firstName := firstName u;
     providers := providers u;
     settings := {| notificationsEnabled := b; categories := categories (settings u) |};
     lastChecked := lastChecked u; lastFailureAlert := lastFailureAlert u;
     isActive := isActive u |}.

(** [handlePause], the bot being initialised: the update, then the reply;
    [sendMessage] is the call to Telegram, which may throw, and a reply
    that fails is followed by the error message, whose failure leaves the
    handler. *)
Definition handlePause (sendMessage : string -> BotMessage -> outcome unit)
           (chatId : string) (w : World) : outcome unit * World :=
  let w := withUsers w (updateOne chatId (setNotificationsEnabled false) (users w)) in
  match sendMessage chatId NOTIFICATIONS_PAUSED with
  | Returned _ => (Returned tt, w)
  | Threw _ => (sendMessage chatId ERROR, w)
  end.

(** [handleResume] *)
Definition handleResume (sendMessage : string -> BotMessage -> outcome unit)
           (chatId : string) (w : World) : outcome unit * World :=
  let w := withUsers w (updateOne chatId (setNotificationsEnabled true) (users w)) in
  match sendMessage chatId NOTIFICATIONS_RESUMED with
  | Returned _ => (Returned tt, w)
  | Threw _ => (sendMessage chatId ERROR, w)
  end.

(** [text.replace(/c/g, '\\c')] for a character [c] that the pattern
    takes literally. *)
Fixpoint replaceAll (c : ascii) (text : string) : string :=
  match text with
  | EmptyString => EmptyString
  | String a rest =>
      if Ascii.eqb a c then String Json.backslash (String c (replaceAll c rest))
      else String a (replaceAll c rest)
  end.

(** [escapeMarkdown]; [None] is a text that is [null] or [undefined]. *)
Definition escapeMarkdown (text : option string) : string :=
  match text with
  | None => EmptyString
  | Some EmptyString => EmptyString
  | Some text =>
      replaceAll "`" (replaceAll "]" (replaceAll "[" (replaceAll "_" (replaceAll "*" text))))
  end.

(** ** The mailbox adapters (helpers/gmail.js, helpers/outlook.js) *)

(** [new Date(t).toISOString()] for an integral [t]: a RangeError beyond
    the range of time values. The text is not built; the time is carried. *)
Definition toISOString (t : Z) : outcome Z :=
  if Z.abs t <=? 8640000000000000 then Returned t else Threw "Invalid time value".

(** [email.isSpam = true] *)
Definition markSpam (email : Email) : Email :=
  {| id := id email; provider := provider email; messageId := messageId email;
     threadId := threadId email; subject := subject email; from := from email;
     to := to email; date := date email; snippet := snippet email; body := body email;
     webLink := webLink email; isSpam := true |}.

(** [!text] for a parameter that may be absent: absent or empty. *)
Definition notGiven (text : option string) : bool :=
  match text with
  | Some t => String.eqb t EmptyString
  | None => true
  end.

Definition givenText (text : option string) : string :=
  match text with Some t => t | None => EmptyString end.

Module Gmail.

(** What the Google client answers for one mailbox: the token refresh,
    [users.messages.list] for a query second and a label, and
    [users.messages.get] followed by [parseGmailMessage], whose [null] is
    [None]. *)
Record Api := {
  getAccessToken : string -> outcome unit;
  messagesList : string -> Z -> option string -> outcome (list string);
  messagesGet : string -> string -> outcome (option Email)
}.

(** [fetchFromLabel]: a message that cannot be read or parsed is left out. *)
Definition fetchFromLabel (api : Api) (token : string) (afterDate : Z)
           (labelId : option string) : outcome (list Email) :=
  messages <- messagesList api token afterDate labelId ;;
  Returned (flat_map (fun message =>
                        match messagesGet api token message with
                        | Returned (Some email) => [email]
                        | _ => []
                        end) messages).

(** [fetchEmails] *)
Definition fetchEmails (api : Api) (refreshToken : option string) (sinceTimestamp : Z)
  : outcome (list Email) :=
  if notGiven refreshToken then Threw "No refresh token provided"
  else
    let token := givenText refreshToken in
    _ <- getAccessToken api token ;;
    let afterDate := sinceTimestamp / 1000 in
    _ <- toISOString sinceTimestamp ;;
    let allEmails := [] in
    let allEmails :=
      match fetchFromLabel api token afterDate None with
      | Returned inboxEmails => (allEmails ++ inboxEmails)%list
      | Threw _ => allEmails
      end in
    let allEmails :=
      match fetchFromLabel api token afterDate (Some "SPAM") with
      | Returned spamEmails => (allEmails ++ map markSpam spamEmails)%list
      | Threw _ => allEmails
      end in
    Returned allEmails.

End Gmail.

Module Outlook.

(** What Microsoft answers for one mailbox: the token endpoint, and the
    messages of a folder since a time, each through [parseOutlookMessage],
    whose [null] is [None]. *)
Record Api := {
  tokenEndpoint : string -> outcome string;
  folderMessages : string -> string -> Z -> outcome (list (option Email))
}.

(** [getAccessToken] *)
Definition getAccessToken (api : Api) (refreshToken : option string) : outcome string :=
  if notGiven refreshToken then Threw "No refresh token provided"
  else tokenEndpoint api (givenText refreshToken).

(** [fetchFromFolder] *)
Definition fetchFromFolder (api : Api) (accessToken : string) (folderName : string)
           (sinceDate : Z) : outcome (list Email) :=
  messages <- folderMessages api accessToken folderName sinceDate ;;
  Returned (flat_map (fun parsed => match parsed with Some email => [email] | None => [] end)
                     messages).

(** [fetchEmails] *)
Definition fetchEmails (api : Api) (refreshToken : option string) (sinceTimestamp : Z)
  : outcome (list Email) :=
  accessToken <- getAccessToken api refreshToken ;;
  sinceDate <- toISOString sinceTimestamp ;;
  let allEmails := [] in
  let allEmails :=
    match fetchFromFolder api accessToken "inbox" sinceDate with
    | Returned inboxEmails => (allEmails ++ inboxEmails)%list
    | Threw _ => allEmails
    end in
  let allEmails :=
    match fetchFromFolder api accessToken "junkemail" sinceDate with
    | Returned junkEmails => (allEmails ++ map markSpam junkEmails)%list
    | Threw _ => allEmails
    end in
  Returned allEmails.

End Outlook.

(** The fetch of [processProvider]: one adapter per provider. *)
Definition fetchFrom (g : Gmail.Api) (o : Outlook.Api) (p : Provider)
  : option string -> Z -> outcome (list Email) :=
  match p with
  | gmail => Gmail.fetchEmails g
  | outlook => Outlook.fetchEmails o
  end.

(** ** Onboarding (helpers/database.js, helpers/bot.js, index.js)

    The collection of sessions is a list of documents as the other two
    are, and a parameter of a query is a text or is absent. *)

(** What [new User({...})] saves: the schema defaults around what it is
    given. Of the Telegram user the record keeps the first name, which the
    sweep reads; [oid] is the identifier the driver draws. *)
Definition newUser (oid chatId : string) (first_name : option string) : User :=
  {| _id := oid; telegramChatId := chatId;
     firstName := match first_name with
                  | Some n => if String.eqb n EmptyString then "User" else n
                  | None => "User"
                  end;
     providers :=
       {| at_gmail := {| enabled := false; refreshToken := None;
                         lastError := None; lastErrorAt := None |};
          at_outlook := {| enabled := false; refreshToken := None;
                           lastError := None; lastErrorAt := None |} |};
     settings := {| notificationsEnabled := true;
                    categories := [("PLACEMENT_DRIVE", true); ("INTERVIEW", true);
                                   ("ASSESSMENT", true); ("SHORTLISTED", true)] |};
     lastChecked := {| at_gmail := None; at_outlook := None |};
     lastFailureAlert := {| at_gmail := None; at_outlook := None |};
     isActive := true |}.

(** [findOrCreateUser], [chatId] being [telegramUser.id.toString()]. *)
Definition findOrCreateUser (oid chatId : string) (first_name : option string) (w : World)
  : User * World :=
  match getUserByChatId chatId w with
  | Some user => (user, w)
  | None =>
      let user := newUser oid chatId first_name in
      (user, withUsers w (users w ++ [user])%list)
  end.

(** [updateProviderCredentials]: the updated document, or [null]. *)
Definition updateProviderCredentials (chatId : string) (p : Provider)
           (credentials_refreshToken : option string) (w : World) : option User * World :=
  let w :=
    withUsers w
      (updateOne chatId
         (fun u =>
            setProviders u
              (setProvider (providers u) p
                 {| enabled := true; refreshToken := credentials_refreshToken;
                    lastError := None; lastErrorAt := None |}))
         (users w)) in
  (getUserByChatId chatId w, w).

Record Session := {
  session_telegramChatId : string;
  session_state : string;
  pendingProvider : option string;
  oauthState : option string;
  gmailConnected : bool;
  outlookConnected : bool;
  session_createdAt : Z;
  session_updatedAt : Z;
  expiresAt : Z
}.

(** The [updates] of [updateSession]: a field is [Some] when the object
    has the key. *)
Record SessionUpdates := {
  to_state : option string;
  to_pendingProvider : option (option string);
  to_oauthState : option (option string);
  to_gmailConnected : option bool;
  to_outlookConnected : option bool
}.

Definition noUpdates : SessionUpdates :=
  {| to_state := None; to_pendingProvider := None; to_oauthState := None;
     to_gmailConnected := None; to_outlookConnected := None |}.

Definition orKeep {A} (given : option A) (kept : A) : A :=
  match given with Some a => a | None => kept end.

(** [{ $set: { ...updates, updatedAt, expiresAt } }] *)
Definition setSession (updates : SessionUpdates) (updatedAt expires : Z) (s : Session)
  : Session :=
  {| session_telegramChatId := session_telegramChatId s;
     session_state := orKeep (to_state updates) (session_state s);
     pendingProvider := orKeep (to_pendingProvider updates) (pendingProvider s);
     oauthState := orKeep (to_oauthState updates) (oauthState s);
     gmailConnected := orKeep (to_gmailConnected updates) (gmailConnected s);
     outlookConnected := orKeep (to_outlookConnected updates) (outlookConnected s);
     session_createdAt := session_createdAt s;
     session_updatedAt := updatedAt;
     expiresAt := expires |}.

(** [Session.findOneAndUpdate({ telegramChatId }, ..., { upsert: true })] *)
Fixpoint upsertSession (chatId : string) (set : Session -> Session) (inserted : Session)
         (ss : list Session) : list Session :=
  match ss with
  | [] => [inserted]
  | s :: rest =>
      if String.eqb (session_telegramChatId s) chatId then set s :: rest
      else s :: upsertSession chatId set inserted rest
  end.

(** [updateSession]; [now] and [today] are the two readings of the clock,
    and [defaults] is what an upsert finds in the fields it is not given
    (the defaults the installed Mongoose applies on insert). *)
Definition updateSession (defaults : Session) (chatId : string) (updates : SessionUpdates)
           (now today : Z) (ss : list Session) : list Session :=
  let set := setSession updates now (today + 24 * 60 * 60 * 1000) in
  upsertSession chatId set
    (set {| session_telegramChatId := chatId; session_state := session_state defaults;
            pendingProvider := pendingProvider defaults; oauthState := oauthState defaults;
            gmailConnected := gmailConnected defaults;
            outlookConnected := outlookConnected defaults;
            session_createdAt := session_createdAt defaults;
            session_updatedAt := session_updatedAt defaults;
            expiresAt := expiresAt defaults |})
    ss.

(** [Session.findOne({ oauthState })] *)
Definition getSessionByOAuthState (state : string) (ss : list Session) : option Session :=
  find (fun s => match oauthState s with
                 | Some held => String.eqb held state
                 | None => false
                 end) ss.

(** What the callback of a provider meets outside the repository. *)
Record OAuthEnv := {
  ensureInitialized : outcome unit;
  exchangeCodeForTokens : Provider -> string -> outcome (option string * option string);
  botSendMessage : string -> BotMessage -> outcome unit;
  sessionDefaults : Session;
  clockConnected : Z;
  clockConnectedExpiry : Z;
  clockConsumed : Z;
  clockConsumedExpiry : Z
}.

(** [bot.handleOAuthSuccess]: what it catches it throws again. *)
Definition handleOAuthSuccess (env : OAuthEnv) (chatId : string) (p : Provider)
           (email : option string) (ss : list Session) : outcome unit * list Session :=
  let updates :=
    match p with
    | gmail => {| to_state := None; to_pendingProvider := None; to_oauthState := None;
                  to_gmailConnected := Some true; to_outlookConnected := None |}
    | outlook => {| to_state := None; to_pendingProvider := None; to_oauthState := None;
                    to_gmailConnected := None; to_outlookConnected := Some true |}
    end in
  let ss := updateSession (sessionDefaults env) chatId updates (clockConnected env)
              (clockConnectedExpiry env) ss in
  let shown := match email with
               | Some e => if String.eqb e EmptyString then "Unknown" else e
               | None => "Unknown"
               end in
  let message := match p with
                 | gmail => GMAIL_SUCCESS shown
                 | outlook => OUTLOOK_SUCCESS shown
                 end in
  match botSendMessage env chatId message with
  | Threw e => (Threw e, ss)
  | Returned _ => (botSendMessage env chatId ADD_ANOTHER, ss)
  end.

(** The query of a callback request; a parameter that is absent is [None]. *)
Record Query := {
  q_code : option string;
  q_state : option string;
  q_error : option string;
  q_error_description : option string
}.

(** What a callback answers: the page of [renderOAuthResult], by its
    arguments, or a 400 with its text. *)
Inductive Reply :=
| ResultPage (success : bool) (p : Provider) (error : option string) (email : option string)
| BadRequest (text : string).

(** The routes [/oauth/gmail/callback] and [/oauth/outlook/callback];
    they differ in the provider and in the error text they show. *)
Definition oauthCallback (env : OAuthEnv) (p : Provider) (q : Query)
           (st : World * list Session) : Reply * (World * list Session) :=
  let '(w, ss) := st in
  if negb (notGiven (q_error q))
  then
    let shown := match p with
                 | gmail => q_error q
                 | outlook => if notGiven (q_error_description q) then q_error q
                              else q_error_description q
                 end in
    (ResultPage false p shown None, st)
  else if orb (notGiven (q_code q)) (notGiven (q_state q))
  then (BadRequest "Missing code or state", st)
  else
    match ensureInitialized env with
    | Threw e => (ResultPage false p (Some e) None, st)
    | Returned _ =>
        match getSessionByOAuthState (givenText (q_state q)) ss with
        | None => (BadRequest "Invalid or expired state", st)
        | Some session =>
            match exchangeCodeForTokens env p (givenText (q_code q)) with
            | Threw e => (ResultPage false p (Some e) None, st)
            | Returned (refreshToken, email) =>
                if notGiven refreshToken
                then (ResultPage false p (Some "No refresh token received") None, st)
                else
                  let w := snd (updateProviderCredentials (session_telegramChatId session)
                                  p refreshToken w) in
                  match handleOAuthSuccess env (session_telegramChatId session) p email ss
                  with
                  | (Threw e, ss) => (ResultPage false p (Some e) None, (w, ss))
                  | (Returned _, ss) =>
                      let ss := updateSession (sessionDefaults env)
                                  (session_telegramChatId session)
                                  {| to_state := None; to_pendingProvider := None;
                                     to_oauthState := Some None;
                                     to_gmailConnected := None;
                                     to_outlookConnected := None |}
                                  (clockConsumed env) (clockConsumedExpiry env) ss in
                      (ResultPage true p None email, (w, ss))
                  end
            end
        end
    end.

(** ** The logger (utils/logger.js) *)

Module Logger.

Definition LOG_LEVELS : list (string * Z) :=
  [("ERROR", 0); ("WARN", 1); ("INFO", 2); ("DEBUG", 3)].

(** The names an object literal inherits from [Object.prototype]. *)
Definition inheritedNames : list string :=
  ["constructor"; "hasOwnProperty"; "isPrototypeOf"; "propertyIsEnumerable";
   "toLocaleString"; "toString"; "valueOf"; "__defineGetter__"; "__defineSetter__";
   "__lookupGetter__"; "__lookupSetter__"; "__proto__"].

(** What [LOG_LEVELS[key]] can be: a level, an inherited member, which is
    truthy and no number, or [undefined]. *)
Inductive Member :=
| Level (n : Z)
| Inherited (name : string)
| Undefined.

Fixpoint ownLevel (levels : list (string * Z)) (key : string) : option Z :=
  match levels with
  | [] => None
  | (k, n) :: rest => if String.eqb k key then Some n else ownLevel rest key
  end.

(** [LOG_LEVELS[key]] *)
Definition member (key : string) : Member :=
  match ownLevel LOG_LEVELS key with
  | Some n => Level n
  | None => if existsb (String.eqb key) inheritedNames then Inherited key else Undefined
  end.

(** [currentLevel], from [process.env.LOG_LEVEL]. *)
Definition currentLevel (toUpperCase : string -> string) (LOG_LEVEL : option string)
  : Member :=
  match LOG_LEVEL with
  | None => Level 2
  | Some text =>
      if String.eqb text EmptyString then Level 2
      else
        match member (toUpperCase text) with
        | Level n => if n =? 0 then Level 2 else Level n
        | Inherited name => Inherited name
        | Undefined => Level 2
        end
  end.

(** [currentLevel >= level], the test of each method of the logger. *)
Definition writes (current : Member) (level : Z) : bool :=
  match current with
  | Level n => n >=? level
  | _ => false
  end.

End Logger.

(** ** The vocabulary of the specification *)

(** The place of a category in the enumeration order of the scorer. *)
Definition rank (c : Category) : nat :=
  match c with
  | PLACEMENT_DRIVE => 0 | INTERVIEW => 1 | ASSESSMENT => 2 | SHORTLISTED => 3
  | OTHER => 4
  end.

(** How many keywords of a list the text includes. *)
Definition hits (text : string) (kws : list string) : Z :=
  Z.of_nat (List.length (filter (Js.includes text) kws)).

(** [KEYWORD_SCORES[c]] *)
Definition keywordsOf (c : Category) : Keywords :=
  match find (fun entry => Category_eqb (fst entry) c) KEYWORD_SCORES with
  | Some (_, keywords) => keywords
  | None => {| high := []; medium := []; low := [] |}
  end.

Definition categoryKeywords (c : Category) : list string :=
  (high (keywordsOf c) ++ medium (keywordsOf c) ++ low (keywordsOf c))%list.

(** The sender matches one of the trusted patterns. *)
Definition trustedSender (sender : string) : bool :=
  existsb (fun pattern => Js.test pattern sender) TRUSTED_SENDER_PATTERNS.

Section Scores.

Variable toLowerCase : string -> string.

(** The score of a category in the words of the specification: 3, 2 and 1
    points for each keyword of the three tiers, the bonus of a trusted
    sender, 2 points off for each negative keyword, never below 0. *)
Definition spec_score (email : Email) (c : Category) : Z :=
  let text := scanText toLowerCase email in
  Z.max 0 (3 * hits text (high (keywordsOf c)) + 2 * hits text (medium (keywordsOf c))
           + 1 * hits text (low (keywordsOf c))
           + (if trustedSender (toLowerCase (from email)) then 3 else 0)
           - 2 * hits text NEGATIVE_KEYWORDS).

End Scores.

Definition isBoolean (v : JsVal) : bool := match v with JBool _ => true | _ => false end.
Definition isString (v : JsVal) : bool := match v with JStr _ => true | _ => false end.

(** A fully populated classification result: the four fields, each of
    its type and in its range. *)
Definition schemaValid (v : JsVal) : bool :=
  match v with
  | JObj props | JArr _ props =>
      andb (andb (isBoolean (lookupProp props "important"))
                 (isCategoryName (lookupProp props "category")))
           (andb (negb (badConfidence (lookupProp props "confidence")))
                 (isString (lookupProp props "reason")))
  | _ => false
  end.

Definition isPrimitive (v : JsVal) : bool :=
  match v with JBool _ | JNum _ | JStr _ => true | _ => false end.

(** The own properties of an object once [parseAIResponse] has repaired them. *)
Definition validatedProps (props : list (string * JsVal)) : list (string * JsVal) :=
  let props := if isBoolean (lookupProp props "important") then props
               else assignProp props "important" (JBool false) in
  let props := if isCategoryName (lookupProp props "category") then props
               else assignProp props "category" (JStr (categoryName OTHER)) in
  let props := if badConfidence (lookupProp props "confidence")
               then assignProp props "confidence" (JNum (1 # 2)) else props in
  if isString (lookupProp props "reason") then props
  else assignProp props "reason" (JStr "AI classification").

(** The checkpoint the store holds for a recipient and a provider. *)
Definition checkpointOf (chat : string) (p : Provider) (w : World) : option (option Z) :=
  option_map (fun u => atProvider (lastChecked u) p) (getUserByChatId chat w).

(** The time of the last outage notice the store holds. *)
Definition alertStampOf (chat : string) (p : Provider) (w : World) : option (option Z) :=
  option_map (fun u => atProvider (lastFailureAlert u) p) (getUserByChatId chat w).

(** The record of a message, where there is one, belongs to this recipient. *)
Definition ownsRecord (user : User) (email : Email) (w : World) : Prop :=
  forall d, In d (emails w) -> doc_uniqueId d = uniqueIdOf email ->
            doc_telegramChatId d = telegramChatId user /\
            doc_provider d = provider email /\ doc_messageId d = messageId email.

(** The events that concern one message of one recipient. *)
Definition about (chat : string) (mid : string) (ev : Event) : bool :=
  match ev with
  | Classified e => String.eqb (messageId e) mid
  | EmailNotification c e _ => andb (String.eqb c chat) (String.eqb (messageId e) mid)
  | FailureAlert _ _ _ => false
  end.

(** How many notifications of a message reached a recipient. *)
Definition deliveredTo (chat : string) (p : Provider) (mid : string) (t : list Event) : nat :=
  List.length
    (filter (fun ev => match ev with
                       | EmailNotification c e true =>
                           andb (String.eqb c chat)
                                (andb (Provider_eqb (provider e) p)
                                      (String.eqb (messageId e) mid))
                       | _ => false
                       end) t).

(** The result [processUserEmails] starts from. *)
Definition emptyResult (user : User) : UserResult :=
  {| name := firstName user; chatId := telegramChatId user; userEmailsScanned := 0;
     userImportantFound := 0; userNotificationsSent := 0; errors := [] |}.

(** How many events of a kind a trace holds. *)
Definition countEvents (kind : Event -> bool) (t : list Event) : Z :=
  Z.of_nat (List.length (filter kind t)).

Definition isNotification (ev : Event) : bool :=
  match ev with EmailNotification _ _ _ => true | _ => false end.

Definition isDelivered (ev : Event) : bool :=
  match ev with EmailNotification _ _ true => true | _ => false end.

Definition isAlert (ev : Event) : bool :=
  match ev with FailureAlert _ _ _ => true | _ => false end.

(** The sum of a field over the rows of a summary. *)
Definition sumOf {A} (f : A -> Z) (l : list A) : Z :=
  fold_right (fun x acc => f x + acc) 0 l.

(** What one message of a sweep may put on the trace. *)
Definition emailEvent (env : Env) (user : User) (email : Email) (ev : Event) : Prop :=
  match ev with
  | Classified e => e = email
  | EmailNotification c e sent =>
      c = telegramChatId user /\ e = email /\
      exists classification category important,
        classifier env email = Returned classification /\
        getProp classification "category" = Returned category /\
        getProp classification "important" = Returned important /\
        truthy important = true /\ categoryEnabled user category = true /\
        sent = sendEmailNotification env c email classification
  | FailureAlert _ _ _ => False
  end.

(** What entitles a run to an event on behalf of a user. *)
Definition entitled (env : Env) (user : User) (ev : Event) : Prop :=
  notificationsEnabled (settings user) = true /\
  exists p,
    enabled (atProvider (providers user) p) = true /\
    hasToken (atProvider (providers user) p) = true /\
    let fetch := fetchEmails env p (refreshToken (atProvider (providers user) p))
                   (getSinceTimestamp (clockSince env) user p) in
    match ev with
    | FailureAlert c q sent =>
        c = telegramChatId user /\ q = p /\ (exists message, fetch = Threw message) /\
        sent = sendFailureAlert env c p
    | _ => exists fetched email,
             fetch = Returned fetched /\ In email fetched /\ emailEvent env user email ev
    end.

(** What a run leaves of a user as it was: identity, settings and the
    connection of each provider. *)
Definition sameAccount (u u' : User) : Prop :=
  _id u' = _id u /\ telegramChatId u' = telegramChatId u /\ firstName u' = firstName u /\
  settings u' = settings u /\ isActive u' = isActive u /\
  forall p, enabled (atProvider (providers u') p) = enabled (atProvider (providers u) p) /\
            refreshToken (atProvider (providers u') p)
            = refreshToken (atProvider (providers u) p).

(** What a run leaves of a ledger record as it was: everything but the
    classification and the notification stamp, and a mark once set. *)
Definition sameRecord (d d' : EmailDoc) : Prop :=
  doc_userId d' = doc_userId d /\ doc_telegramChatId d' = doc_telegramChatId d /\
  doc_provider d' = doc_provider d /\ doc_messageId d' = doc_messageId d /\
  doc_threadId d' = doc_threadId d /\ doc_uniqueId d' = doc_uniqueId d /\
  doc_subject d' = doc_subject d /\ doc_from d' = doc_from d /\ doc_to d' = doc_to d /\
  doc_snippet d' = doc_snippet d /\ doc_body d' = doc_body d /\
  doc_webLink d' = doc_webLink d /\ doc_receivedAt d' = doc_receivedAt d /\
  doc_createdAt d' = doc_createdAt d /\
  (doc_notified d = true -> doc_notified d' = true).

(** The ledger after is the ledger before, record by record, and new
    records behind it. *)
Definition ledgerGrows (w w' : World) : Prop :=
  exists kept added,
    emails w' = (kept ++ added)%list /\ Forall2 sameRecord (emails w) kept /\
    Forall (fun d => doc_notified d = true) added.

(** The two unique indexes of the Email collection hold, every record
    carries the identifier [saveEmail] computes, and every record is marked. *)
Definition ledgerIndexed (w : World) : Prop :=
  NoDup (map doc_uniqueId (emails w)) /\
  Forall (fun d => doc_uniqueId d
                   = (providerName (doc_provider d) ++ "_" ++ doc_messageId d)%string /\
                   doc_notified d = true) (emails w).

Definition otherProvider (p : Provider) : Provider :=
  match p with gmail => outlook | outlook => gmail end.

Definition providerConnected (user : User) (p : Provider) : bool :=
  andb (enabled (atProvider (providers user) p)) (hasToken (atProvider (providers user) p)).

(** The characters [escapeMarkdown] names. *)
Definition markdownSpecials : list ascii := ["`"; "]"; "["; "_"; "*"]%char.

(** One pass that puts a backslash before each character of a set. *)
Fixpoint escapeEach (set : list ascii) (text : string) : string :=
  match text with
  | EmptyString => EmptyString
  | String a rest =>
      if existsb (Ascii.eqb a) set
      then String Json.backslash (String a (escapeEach set rest))
      else String a (escapeEach set rest)
  end.

(** An event that is addressed to a chat. *)
Definition addressedTo (chat : string) (ev : Event) : bool :=
  match ev with
  | Classified _ => false
  | EmailNotification c _ _ => String.eqb c chat
  | FailureAlert c _ _ => String.eqb c chat
  end.

(** The token refresh the adapter of a provider starts with. *)
Definition refreshOutcome (g : Gmail.Api) (o : Outlook.Api) (p : Provider) (token : string)
  : outcome unit :=
  match p with
  | gmail => Gmail.getAccessToken g token
  | outlook => _ <- Outlook.tokenEndpoint o token ;; Returned tt
  end.

(** The messages of a folder, nothing when it cannot be read. *)
Definition readable (folder : outcome (list Email)) : list Email :=
  match folder with Returned l => l | Threw _ => [] end.

(** A session that holds a state of the OAuth flow. *)
Definition holdsState (state : string) (s : Session) : bool :=
  match oauthState s with
  | Some held => String.eqb held state
  | None => false
  end.

(** A message the classifier calls important in a category the user has
    not disabled. *)
Definition wanted (env : Env) (user : User) (email : Email) : Prop :=
  exists classification category important,
    classifier env email = Returned classification /\
    getProp classification "category" = Returned category /\
    getProp classification "important" = Returned important /\
    truthy important = true /\ categoryEnabled user category = true.

(** ** Recipients, messages and environments of the examples *)

Definition connected (token : string) : ProviderConfig :=
  {| enabled := true; refreshToken := Some token; lastError := None; lastErrorAt := None |}.

Definition unconnected : ProviderConfig :=
  {| enabled := false; refreshToken := None; lastError := None; lastErrorAt := None |}.

Definition defaultSettings (notify : bool) : Settings :=
  {| notificationsEnabled := notify;
     categories := [("PLACEMENT_DRIVE", true); ("INTERVIEW", true);
                    ("ASSESSMENT", true); ("SHORTLISTED", true)] |}.

(** A recipient who connected a Gmail mailbox and nothing else. *)
Definition gmailUser (oid chat first token : string) (notify : bool) : User :=
  {| _id := oid; telegramChatId := chat; firstName := first;
     providers := {| at_gmail := connected token; at_outlook := unconnected |};
     settings := defaultSettings notify;
     lastChecked := {| at_gmail := None; at_outlook := None |};
     lastFailureAlert := {| at_gmail := None; at_outlook := None |};
     isActive := true |}.

Definition noBackend : Backend := fun _ => Threw "connect ECONNREFUSED".

(** The classifier as the service runs it without an API key. *)
Definition keywordOnly : Email -> outcome JsVal :=
  classifyEmail Js.asciiLower Json.parse false noBackend 64.

(** Every mailbox holds [inbox]; Telegram delivers. *)
Definition mailboxEnv (inbox : list Email) : Env :=
  {| fetchEmails := fun _ _ _ => Returned inbox;
     classifier := keywordOnly;
     sendMessage := fun _ _ => true;
     sendAlertMessage := fun _ _ => true;
     clockSince := 1700000000000; clockSaved := 1700000000500;
     clockChecked := 1700000001000; clockError := 1700000000100;
     clockAlertCheck := 1700000000200; clockAlertStamp := 1700000000300 |}.

(** The mailbox is there but Telegram refuses every message. *)
Definition undeliveredEnv (inbox : list Email) : Env :=
  {| fetchEmails := fun _ _ _ => Returned inbox;
     classifier := keywordOnly;
     sendMessage := fun _ _ => false;
     sendAlertMessage := fun _ _ => false;
     clockSince := 1700000000000; clockSaved := 1700000000500;
     clockChecked := 1700000001000; clockError := 1700000000100;
     clockAlertCheck := 1700000000200; clockAlertStamp := 1700000000300 |}.

(** The refresh token was revoked: every fetch throws. *)
Definition outageEnv (clock : Z) : Env :=
  {| fetchEmails := fun _ _ _ => Threw "invalid_grant";
     classifier := keywordOnly;
     sendMessage := fun _ _ => true;
     sendAlertMessage := fun _ _ => true;
     clockSince := clock; clockSaved := clock; clockChecked := clock;
     clockError := clock; clockAlertCheck := clock; clockAlertStamp := clock |}.

Definition invitation : Email :=
  {| id := "gmail_18c2f"; provider := gmail; messageId := "18c2f"; threadId := None;
     subject := "Interview schedule for Friday"; from := "hr@acme-corp.com";
     to := "student@example.org"; date := 1699999990000;
     snippet := "Your technical interview is confirmed."; body := EmptyString;
     webLink := "https://mail.google.com/mail/u/0/#inbox/18c2f"; isSpam := false |}.

(** What the keyword tier answers for [invitation]. *)
Definition invitationClass : JsVal :=
  JObj [ ("important", JBool true); ("category", JStr "INTERVIEW");
         ("confidence", JNum 1);
         ("reason",
          JStr "Matched keywords: interview schedule, technical interview, interview");
         ("method", JStr "keyword") ].

Definition asha : User := gmailUser "u1" "1001" "Asha" "token-shared" true.
Definition ravi : User := gmailUser "u2" "1002" "Ravi" "token-shared" true.

(** Two recipients who connected the same mailbox; nothing stored yet. *)
Definition sharedMailbox : World := {| users := [asha; ravi]; emails := []; trace := [] |}.

Definition afterFirstRun : World := snd (cronCheck (mailboxEnv [invitation]) sharedMailbox).
Definition afterSecondRun : World := snd (cronCheck (mailboxEnv [invitation]) afterFirstRun).

(** A recipient who sent /pause. *)
Definition pausedUser : User := gmailUser "u3" "1003" "Meera" "token-m" false.
Definition pausedWorld : World := {| users := [pausedUser]; emails := []; trace := [] |}.

Definition emDash : string :=
  String (ascii_of_nat 226) (String (ascii_of_nat 128) (String (ascii_of_nat 148) EmptyString)).

(** The message of the worked example of the specification. *)
Definition workedExample : Email :=
  {| id := "gmail_42"; provider := gmail; messageId := "42"; threadId := None;
     subject := "Interview Schedule " ++ emDash ++ " Round 2";
     from := "hr@acme-corp.com"; to := "student@example.org"; date := 1699999990000;
     snippet := EmptyString;
     body := "The technical interview will be held as a zoom interview.";
     webLink := "https://mail.google.com/mail/u/0/#inbox/42"; isSpam := false |}.

(** A greeting from a recruiter's address, with no keyword in it. *)
Definition greeting : Email :=
  {| id := "gmail_77"; provider := gmail; messageId := "77"; threadId := None;
     subject := "Hello from Acme"; from := "Priya <HR@acme-corp.com>";
     to := "student@example.org"; date := 1699999990000;
     snippet := "Nice to meet you at the fair."; body := "See you around.";
     webLink := "https://mail.google.com/mail/u/0/#inbox/77"; isSpam := false |}.

(** A message the keyword tier is unsure about (score 5). *)
Definition uncertain : Email :=
  {| id := "gmail_90"; provider := gmail; messageId := "90"; threadId := None;
     subject := "Technical interview"; from := "someone@example.org";
     to := "student@example.org"; date := 1699999990000;
     snippet := EmptyString; body := EmptyString;
     webLink := "https://mail.google.com/mail/u/0/#inbox/90"; isSpam := false |}.

(** The backend answers with the JSON text [123]. *)
Definition numberBackend : Backend := fun _ => Returned (Some "123").


(** The worked example as the specification computes it: score 9 and
    confidence 0.9 for a message whose body includes both phrases. *)
Definition workedExampleAsStated : Prop :=
  Js.includes (body workedExample) "technical interview" = true ->
  Js.includes (body workedExample) "zoom interview" = true ->
  kr_score (keywordClassify Js.asciiLower workedExample) = 9 /\
  keywordConfidence (keywordClassify Js.asciiLower workedExample) == 9 # 10.

(** The selection of recipients as the specification words it: the run
    goes over the users that are active, have an enabled provider and have
    notifications enabled, and over no other. *)
Definition selectionAsStated (w : World) (u : User) : Prop :=
  In u (getActiveUsers w) <->
  In u (users w) /\ isActive u = true /\
  orb (enabled (at_gmail (providers u))) (enabled (at_outlook (providers u))) = true /\
  notificationsEnabled (settings u) = true.


(** ** Recipients, mailboxes and sessions of the further examples *)

(** A recipient who connected both mailboxes. *)
Definition dana : User :=
  {| _id := "u4"; telegramChatId := "1004"; firstName := "Dana";
     providers := {| at_gmail := connected "token-g"; at_outlook := connected "token-o" |};
     settings := defaultSettings true;
     lastChecked := {| at_gmail := None; at_outlook := None |};
     lastFailureAlert := {| at_gmail := None; at_outlook := None |};
     isActive := true |}.

Definition danaWorld : World := {| users := [dana]; emails := []; trace := [] |}.

(** A message of an Outlook mailbox. *)
Definition assessment : Email :=
  {| id := "outlook_AAMk1"; provider := outlook; messageId := "AAMk1";
     threadId := Some "conv-7"; subject := "Online assessment link";
     from := "noreply@hackerrank.com"; to := "dana@example.org"; date := 1699999995000;
     snippet := "Your coding test is ready."; body := EmptyString;
     webLink := "https://outlook.office.com/mail/inbox/id/AAMk1"; isSpam := false |}.

(** Gmail refuses the token; Outlook answers. *)
Definition gmailDownEnv : Env :=
  {| fetchEmails := fun p _ _ => match p with
                                 | gmail => Threw "invalid_grant"
                                 | outlook => Returned [assessment]
                                 end;
     classifier := keywordOnly;
     sendMessage := fun _ _ => true;
     sendAlertMessage := fun _ _ => true;
     clockSince := 1700000000000; clockSaved := 1700000000500;
     clockChecked := 1700000001000; clockError := 1700000000100;
     clockAlertCheck := 1700000000200; clockAlertStamp := 1700000000300 |}.

(** A Gmail mailbox whose token refreshes, one of whose messages cannot be
    read, and whose spam folder cannot be listed. *)
Definition gmailApi : Gmail.Api :=
  {| Gmail.getAccessToken := fun _ => Returned tt;
     Gmail.messagesList := fun _ _ label => match label with
                                            | None => Returned ["18c2f"; "gone"]
                                            | Some _ => Threw "Backend Error"
                                            end;
     Gmail.messagesGet := fun _ message =>
                            if String.eqb message "18c2f" then Returned (Some invitation)
                            else Threw "Not Found" |}.

(** An Outlook account whose token was revoked. *)
Definition outlookApi : Outlook.Api :=
  {| Outlook.tokenEndpoint := fun _ => Threw "invalid_grant";
     Outlook.folderMessages := fun _ _ _ => Returned [] |}.

(** The sweep with the two adapters behind it. *)
Definition adapterEnv : Env :=
  {| fetchEmails := fetchFrom gmailApi outlookApi;
     classifier := keywordOnly;
     sendMessage := fun _ _ => true;
     sendAlertMessage := fun _ _ => true;
     clockSince := 1700000000000; clockSaved := 1700000000500;
     clockChecked := 1700000001000; clockError := 1700000000100;
     clockAlertCheck := 1700000000200; clockAlertStamp := 1700000000300 |}.

(** Telegram takes every message, or refuses every message. *)
Definition telegramUp : string -> BotMessage -> outcome unit := fun _ _ => Returned tt.
Definition telegramDown : string -> BotMessage -> outcome unit :=
  fun _ _ => Threw "ETELEGRAM: 403 Forbidden".

(** The session of a recipient who was sent the link of Gmail. *)
Definition blankSession : Session :=
  {| session_telegramChatId := EmptyString; session_state := "START";
     pendingProvider := None; oauthState := None;
     gmailConnected := false; outlookConnected := false;
     session_createdAt := 1700000000000; session_updatedAt := 1700000000000;
     expiresAt := 1700086400000 |}.

Definition awaitingGmail : Session :=
  {| session_telegramChatId := "1001"; session_state := "AWAITING_GMAIL_AUTH";
     pendingProvider := Some "gmail"; oauthState := Some "5f2a9c17";
     gmailConnected := false; outlookConnected := false;
     session_createdAt := 1700000000000; session_updatedAt := 1700000000000;
     expiresAt := 1700086400000 |}.

Definition oauthEnv (send : string -> BotMessage -> outcome unit) : OAuthEnv :=
  {| ensureInitialized := Returned tt;
     exchangeCodeForTokens := fun _ _ => Returned (Some "1//0g-refresh", Some "asha@example.org");
     botSendMessage := send;
     sessionDefaults := blankSession;
     clockConnected := 1700000002000; clockConnectedExpiry := 1700000002001;
     clockConsumed := 1700000002002; clockConsumedExpiry := 1700000002003 |}.

Definition callbackQuery : Query :=
  {| q_code := Some "4/0AX4XfWh"; q_state := Some "5f2a9c17";
     q_error := None; q_error_description := None |}.

(** An object a model may answer, and the same with words around it. *)
Definition wrappedObject : string :=
  "{" ++ Json.quoted "important" ++ ": true, "
    ++ Json.quoted "category" ++ ": " ++ Json.quoted "INTERVIEW" ++ "}".

Definition wrappedAnswer : string :=
  "Here is the result: " ++ wrappedObject ++ " I hope it helps.".

(** An answer of the model with a field it was not asked for and a
    confidence out of range. *)
Definition eagerAnswer : string :=
  "{" ++ Json.quoted "important" ++ ": true, "
    ++ Json.quoted "category" ++ ": " ++ Json.quoted "ASSESSMENT" ++ ", "
    ++ Json.quoted "confidence" ++ ": 7, "
    ++ Json.quoted "reason" ++ ": " ++ Json.quoted "coding test" ++ ", "
    ++ Json.quoted "deadline" ++ ": " ++ Json.quoted "Friday" ++ "}".

(** Upper case of the ASCII letters, every other byte kept. *)
Definition upperAscii (c : ascii) : ascii :=
  let n := nat_of_ascii c in
  if (andb (Nat.leb 97 n) (Nat.leb n 122)) then ascii_of_nat (n - 32) else c.

Fixpoint asciiUpper (s : string) : string :=
  match s with
  | EmptyString => EmptyString
  | String c s' => String (upperAscii c) (asciiUpper s')
  end.

(** * Properties *)

(** ** The embedding at work *)

Example includes_substring : Js.includes "campus placement drive" "placement" = true.
Proof. reflexivity. Qed.

Example includes_needs_contiguity : Js.includes "inter view" "interview" = false.
Proof. reflexivity. Qed.

Example test_ignores_case :
  Js.test (Js.Lit "hr@") "Priya <HR@acme-corp.com>" = true.
Proof. reflexivity. Qed.

Example test_dot_star :
  Js.test (Js.LitDotStarLit "noreply" "placement") "NoReply-cell@placement.example.edu" = true
  /\ Js.test (Js.LitDotStarLit "noreply" "placement") "placement noreply" = false.
Proof. split; reflexivity. Qed.

Example matchJsonObject_is_greedy :
  matchJsonObject "Sure: {a} and {b}. Bye" = Some "{a} and {b}"
  /\ matchJsonObject "no closing { brace" = None.
Proof. split; reflexivity. Qed.

Example parse_number : Json.parse " -12.50e1 " = Some (JNum (-1250 # 10)).
Proof. reflexivity. Qed.

Example parse_refuses_leading_zero : Json.parse "01" = None.
Proof. reflexivity. Qed.

Example parse_nested :
  Json.parse "[1, [true, {}], null]"
  = Some (JArr [JNum 1; JArr [JBool true; JObj []] []; JNull] []).
Proof. reflexivity. Qed.

(** An answer wrapped in prose: the object is extracted and its missing
    and out-of-range fields are repaired. *)
Example parseAIResponse_extracts :
  parseAIResponse Json.parse 64
    ("Here you go: {" ++ Json.quoted "important" ++ ": true, "
       ++ Json.quoted "category" ++ ": " ++ Json.quoted "INTERVIEW" ++ ", "
       ++ Json.quoted "confidence" ++ ": 1.9} Regards")
  = Returned (JObj [ ("important", JBool true); ("category", JStr "INTERVIEW");
                     ("confidence", JNum (1 # 2));
                     ("reason", JStr "AI classification") ]).
Proof. vm_compute. reflexivity. Qed.

(** A text in braces that is no JSON is extracted as itself, again and
    again; the recursion ends when the stack does, with the fixed result. *)
Example parseAIResponse_exhausts_stack :
  matchJsonObject "{a}" = Some "{a}" /\
  parseAIResponse Json.parse 64 "{a}" = Returned unparseable.
Proof. split; vm_compute; reflexivity. Qed.

Example parseAIResponse_null : parseAIResponse Json.parse 64 "null" = Returned unparseable.
Proof. vm_compute. reflexivity. Qed.

Example keywordClassify_discount :
  let offer := {| id := "gmail_7"; provider := gmail; messageId := "7"; threadId := None;
                  subject := "50% off your next course!"; from := "deals@shop.example";
                  to := EmptyString; date := 0; snippet := "discount inside"; body := EmptyString;
                  webLink := EmptyString; isSpam := false |} in
  kr_category (keywordClassify Js.asciiLower offer) = OTHER /\
  kr_important (keywordClassify Js.asciiLower offer) = false.
Proof. split; vm_compute; reflexivity. Qed.

(** ** Equality tests *)

Lemma Category_eqb_eq a b : Category_eqb a b = true <-> a = b.
Proof. destruct a, b; simpl; split; intro H; try reflexivity; discriminate H. Qed.

Lemma Provider_eqb_refl p : Provider_eqb p p = true.
Proof. destruct p; reflexivity. Qed.

(** Two messages have the same [uniqueId] only if they have the same
    provider and the same message id. *)
Lemma uniqueIdOf_injective e1 e2 :
  uniqueIdOf e1 = uniqueIdOf e2 ->
  provider e1 = provider e2 /\ messageId e1 = messageId e2.
Proof.
  unfold uniqueIdOf. destruct (provider e1), (provider e2); cbn; intro H;
    try discriminate H; injection H as H; split; (reflexivity || assumption).
Qed.

Lemma all_scored (P : Category -> Prop) :
  P PLACEMENT_DRIVE -> P INTERVIEW -> P ASSESSMENT -> P SHORTLISTED ->
  forall c, c <> OTHER -> P c.
Proof. intros ? ? ? ? c Hne. destruct c; try assumption. now elim Hne. Qed.

Lemma filter_none {A} (f : A -> bool) (l : list A) :
  (forall x, In x l -> f x = false) -> filter f l = [].
Proof.
  induction l as [|x l IH]; intro H; cbn [filter]; [reflexivity|].
  rewrite (H x (or_introl eq_refl)). apply IH. intros y Hy. apply H. now right.
Qed.

(** ** The keyword tier *)

Section Tier1Facts.

Variable toLowerCase : string -> string.

(** The loop over the four entries ends in one of five ways. *)
Lemma categoryLoop_four text b n c1 k1 c2 k2 c3 k3 c4 k4 :
  let s := fun k => fst (scoreCategory text b n k) in
  let st := categoryLoop text b n [(c1, k1); (c2, k2); (c3, k3); (c4, k4)]
              {| categoryScores := []; maxCategory := OTHER; maxScore := 0 |} in
  (maxCategory st = OTHER /\ maxScore st = 0 /\
   s k1 <= 0 /\ s k2 <= 0 /\ s k3 <= 0 /\ s k4 <= 0) \/
  (maxCategory st = c1 /\ maxScore st = s k1 /\ 0 < s k1 /\
   s k2 <= s k1 /\ s k3 <= s k1 /\ s k4 <= s k1) \/
  (maxCategory st = c2 /\ maxScore st = s k2 /\ 0 < s k2 /\
   s k1 < s k2 /\ s k3 <= s k2 /\ s k4 <= s k2) \/
  (maxCategory st = c3 /\ maxScore st = s k3 /\ 0 < s k3 /\
   s k1 < s k3 /\ s k2 < s k3 /\ s k4 <= s k3) \/
  (maxCategory st = c4 /\ maxScore st = s k4 /\ 0 < s k4 /\
   s k1 < s k4 /\ s k2 < s k4 /\ s k3 < s k4).
Proof.
  intros s st. subst s st. unfold categoryLoop. cbn [fold_left]. unfold categoryStep.
  destruct (scoreCategory text b n k1) as [s1 m1].
  destruct (scoreCategory text b n k2) as [s2 m2].
  destruct (scoreCategory text b n k3) as [s3 m3].
  destruct (scoreCategory text b n k4) as [s4 m4].
  cbn [fst maxScore maxCategory categoryScores].
  destruct (Z.gtb_spec s1 0); cbn [fst maxScore maxCategory categoryScores];
  match goal with |- context [s2 >? ?x] => destruct (Z.gtb_spec s2 x) end;
  cbn [fst maxScore maxCategory categoryScores];
  match goal with |- context [s3 >? ?x] => destruct (Z.gtb_spec s3 x) end;
  cbn [fst maxScore maxCategory categoryScores];
  match goal with |- context [s4 >? ?x] => destruct (Z.gtb_spec s4 x) end;
  cbn [fst maxScore maxCategory categoryScores].
  all: first [ left; repeat split; (reflexivity || lia)
             | right; left; repeat split; (reflexivity || lia)
             | right; right; left; repeat split; (reflexivity || lia)
             | right; right; right; left; repeat split; (reflexivity || lia)
             | right; right; right; right; repeat split; (reflexivity || lia) ].
Qed.

(** A tier adds its points once for each keyword the text includes. *)
Lemma scoreTier_hits text points kws acc :
  scoreTier text points kws acc =
  (fst acc + points * hits text kws, (snd acc ++ filter (Js.includes text) kws)%list).
Proof.
  unfold hits. revert acc. induction kws as [|kw kws IH]; intros [sc mk].
  - cbn. f_equal; [lia | now rewrite app_nil_r].
  - cbn [scoreTier fold_left filter]. destruct (Js.includes text kw) eqn:E.
    + change (fold_left _ kws ?a) with (scoreTier text points kws a).
      rewrite IH. cbn [fst snd List.length]. f_equal; [lia | now rewrite <- app_assoc].
    + change (fold_left _ kws ?a) with (scoreTier text points kws a).
      rewrite IH. reflexivity.
Qed.

Lemma negativeScoreOf_hits text : negativeScoreOf text = 2 * hits text NEGATIVE_KEYWORDS.
Proof.
  unfold negativeScoreOf, hits.
  assert (G : forall l acc,
             fold_left (fun a kw => if Js.includes text kw then a + 2 else a) l acc
             = acc + 2 * Z.of_nat (List.length (filter (Js.includes text) l))).
  { induction l as [|kw l IH]; intro acc; cbn [fold_left filter].
    - cbn. lia.
    - rewrite IH. destruct (Js.includes text kw); cbn [List.length]; lia. }
  rewrite G. lia.
Qed.

Lemma senderBonusLoop_trusted patterns sender :
  senderBonusLoop patterns sender =
  if existsb (fun pattern => Js.test pattern sender) patterns then 3 else 0.
Proof.
  induction patterns as [|p ps IH]; cbn [senderBonusLoop existsb]; [reflexivity|].
  destruct (Js.test p sender); [reflexivity | exact IH].
Qed.

(** The loop of the source computes the score of the specification. *)
Lemma scoreCategory_spec email c :
  fst (scoreCategory (scanText toLowerCase email) (senderBonusOf toLowerCase email)
         (negativeScoreOf (scanText toLowerCase email)) (keywordsOf c))
  = spec_score toLowerCase email c.
Proof.
  unfold scoreCategory, spec_score.
  rewrite !scoreTier_hits. cbn [fst snd].
  rewrite negativeScoreOf_hits. unfold senderBonusOf. rewrite senderBonusLoop_trusted.
  unfold trustedSender. f_equal; lia.
Qed.

Lemma scoreCategory_none text b n c :
  (forall kw, In kw (categoryKeywords c) -> Js.includes text kw = false) ->
  scoreCategory text b n (keywordsOf c) = (Z.max 0 (b - n), []).
Proof.
  intro H. unfold scoreCategory. rewrite !scoreTier_hits. unfold hits. cbn [fst snd].
  unfold categoryKeywords in H.
  rewrite !filter_none.
  - cbn [List.length app Z.of_nat]. f_equal; f_equal; lia.
  - intros kw Hk. apply H. apply in_or_app. right. apply in_or_app. now right.
  - intros kw Hk. apply H. apply in_or_app. right. apply in_or_app. now left.
  - intros kw Hk. apply H. apply in_or_app. now left.
Qed.

Lemma keywordsOf_table :
  KEYWORD_SCORES =
  [ (PLACEMENT_DRIVE, keywordsOf PLACEMENT_DRIVE); (INTERVIEW, keywordsOf INTERVIEW);
    (ASSESSMENT, keywordsOf ASSESSMENT); (SHORTLISTED, keywordsOf SHORTLISTED) ].
Proof. reflexivity. Qed.

Lemma keywordClassify_loop email :
  let text := scanText toLowerCase email in
  let st := categoryLoop text (senderBonusOf toLowerCase email) (negativeScoreOf text)
              KEYWORD_SCORES
              {| categoryScores := []; maxCategory := OTHER; maxScore := 0 |} in
  kr_category (keywordClassify toLowerCase email) = maxCategory st /\
  kr_score (keywordClassify toLowerCase email) = maxScore st.
Proof. split; reflexivity. Qed.

Lemma keywordClassify_important email :
  kr_important (keywordClassify toLowerCase email) =
  andb (negb (Category_eqb (kr_category (keywordClassify toLowerCase email)) OTHER))
       (kr_score (keywordClassify toLowerCase email) >=? 2).
Proof. reflexivity. Qed.

Lemma keywordConfidence_ratio (r : KeywordResult) :
  keywordConfidence r == Qmin (inject_Z (kr_score r) / 10) 1.
Proof.
  unfold keywordConfidence. apply Q.min_compat; [|reflexivity].
  generalize (kr_score r). intro z.
  unfold Qeq, Qdiv, Qmult, Qinv, inject_Z. cbn. lia.
Qed.

(** The winner and its score against the four scores of the specification. *)
Lemma winner_cases email :
  let r := keywordClassify toLowerCase email in
  let s := spec_score toLowerCase email in
  (kr_category r = OTHER /\ kr_score r = 0 /\
   s PLACEMENT_DRIVE <= 0 /\ s INTERVIEW <= 0 /\ s ASSESSMENT <= 0 /\ s SHORTLISTED <= 0) \/
  (kr_category r = PLACEMENT_DRIVE /\ kr_score r = s PLACEMENT_DRIVE /\
   0 < s PLACEMENT_DRIVE /\ s INTERVIEW <= s PLACEMENT_DRIVE /\
   s ASSESSMENT <= s PLACEMENT_DRIVE /\ s SHORTLISTED <= s PLACEMENT_DRIVE) \/
  (kr_category r = INTERVIEW /\ kr_score r = s INTERVIEW /\ 0 < s INTERVIEW /\
   s PLACEMENT_DRIVE < s INTERVIEW /\ s ASSESSMENT <= s INTERVIEW /\
   s SHORTLISTED <= s INTERVIEW) \/
  (kr_category r = ASSESSMENT /\ kr_score r = s ASSESSMENT /\ 0 < s ASSESSMENT /\
   s PLACEMENT_DRIVE < s ASSESSMENT /\ s INTERVIEW < s ASSESSMENT /\
   s SHORTLISTED <= s ASSESSMENT) \/
  (kr_category r = SHORTLISTED /\ kr_score r = s SHORTLISTED /\ 0 < s SHORTLISTED /\
   s PLACEMENT_DRIVE < s SHORTLISTED /\ s INTERVIEW < s SHORTLISTED /\
   s ASSESSMENT < s SHORTLISTED).
Proof.
  intros r s. subst r s.
  destruct (keywordClassify_loop email) as (Hc & Hs).
  rewrite Hc, Hs. clear Hc Hs.
  rewrite keywordsOf_table.
  pose proof (categoryLoop_four (scanText toLowerCase email) (senderBonusOf toLowerCase email)
              (negativeScoreOf (scanText toLowerCase email))
              PLACEMENT_DRIVE (keywordsOf PLACEMENT_DRIVE) INTERVIEW (keywordsOf INTERVIEW)
              ASSESSMENT (keywordsOf ASSESSMENT) SHORTLISTED (keywordsOf SHORTLISTED)) as H.
  cbv beta zeta in H. rewrite !scoreCategory_spec in H.
  exact H.
Qed.

Section WithBackend.

Variable JSON_parse : string -> option JsVal.
Variable GEMINI_API_KEY : bool.
Variable gemini : Backend.
Variable stackRoom : nat.

(** A score outside the band ]3, 8[ is answered by the keyword tier. *)
Lemma classifyEmail_keyword email :
  8 <= kr_score (keywordClassify toLowerCase email) \/
  kr_score (keywordClassify toLowerCase email) <= 3 ->
  classifyEmail toLowerCase JSON_parse GEMINI_API_KEY gemini stackRoom email
  = Returned (keywordAnswer (keywordClassify toLowerCase email) "keyword").
Proof.
  intro H. unfold classifyEmail, AI_THRESHOLD_HIGH, AI_THRESHOLD_LOW.
  generalize dependent (keywordClassify toLowerCase email). intros r H.
  replace (orb (kr_score r >=? 8) (kr_score r <=? 3)) with true; [reflexivity|].
  symmetry. apply orb_true_iff.
  destruct H; [left; apply Z.geb_le | right; apply Z.leb_le]; assumption.
Qed.

(** C5: the keyword tier picks the category of strictly highest score,
    the score being the one of the specification (tier points, sender
    bonus, negative penalty, floor 0); of equal scores the first in the
    order PLACEMENT_DRIVE, INTERVIEW, ASSESSMENT, SHORTLISTED stays; when
    no score is above 0 the result is OTHER with score 0; [important] is
    true exactly when the category is not OTHER and the score is at least
    2; and on the keyword path the confidence is min(score / 10, 1). *)
Theorem keywordClassify_winner email :
  let r := keywordClassify toLowerCase email in
  let score := spec_score toLowerCase email in
  (forall c, c <> OTHER -> score c <= kr_score r) /\
  (forall c, c <> OTHER -> kr_category r <> OTHER ->
             (rank c < rank (kr_category r))%nat -> score c < kr_score r) /\
  (kr_category r <> OTHER -> kr_score r = score (kr_category r) /\ 0 < kr_score r) /\
  (kr_category r = OTHER <-> forall c, c <> OTHER -> score c <= 0) /\
  (kr_category r = OTHER -> kr_score r = 0) /\
  (kr_important r = true <-> kr_category r <> OTHER /\ 2 <= kr_score r) /\
  (8 <= kr_score r \/ kr_score r <= 3 ->
   classifyEmail toLowerCase JSON_parse GEMINI_API_KEY gemini stackRoom email
   = Returned (keywordAnswer r "keyword")) /\
  (forall method, getProp (keywordAnswer r method) "confidence"
                  = Returned (JNum (keywordConfidence r))) /\
  keywordConfidence r == Qmin (inject_Z (kr_score r) / 10) 1.
Proof.
  intros r score.
  assert (Hi := keywordClassify_important email). fold r in Hi.
  assert (H := winner_cases email). cbv zeta in H. fold r score in H.
  assert (Hk := classifyEmail_keyword email). fold r in Hk.
  assert (Hconf := keywordConfidence_ratio r).
  revert Hk Hconf.
  generalize (classifyEmail toLowerCase JSON_parse GEMINI_API_KEY gemini stackRoom email).
  intros answer Hk Hconf.
  assert (Hget : forall method, getProp (keywordAnswer r method) "confidence"
                                = Returned (JNum (keywordConfidence r))) by reflexivity.
  revert Hk Hconf Hget. generalize (keywordConfidence r). generalize (keywordAnswer r).
  intros mkAnswer conf Hk Hconf Hget.
  clearbody r score.
  destruct r as [imp cat sc reason scores]. cbn [kr_important kr_category kr_score] in *.
  subst imp.
  split; [|split; [|split; [|split; [|split; [|split; [|split; [exact Hk|split;
    [exact Hget|exact Hconf]]]]]]]];
    clear Hk Hconf Hget conf mkAnswer answer.
  - apply all_scored;
      destruct H as [H | [H | [H | [H | H]]]]; lia.
  - intros c Hc Hne. revert c Hc.
    apply (all_scored (fun c => (rank c < rank cat)%nat -> score c < sc));
      destruct H as [H | [H | [H | [H | H]]]];
      destruct H as (Hcat & H); subst cat; cbn [rank]; try (now elim Hne); lia.
  - intros Hne.
    destruct H as [H | [H | [H | [H | H]]]];
      destruct H as (Hcat & Hsc & H); subst cat; try (now elim Hne); split; lia.
  - split.
    + intros Heq. apply all_scored;
        destruct H as [H | [H | [H | [H | H]]]];
        destruct H as (Hcat & H); try congruence; lia.
    + intros Hz.
      pose proof (Hz PLACEMENT_DRIVE ltac:(discriminate)).
      pose proof (Hz INTERVIEW ltac:(discriminate)).
      pose proof (Hz ASSESSMENT ltac:(discriminate)).
      pose proof (Hz SHORTLISTED ltac:(discriminate)).
      destruct H as [H | [H | [H | [H | H]]]]; [tauto | exfalso; lia ..].
  - intros Heq.
    destruct H as [H | [H | [H | [H | H]]]];
      destruct H as (Hcat & H); try congruence; lia.
  - rewrite andb_true_iff, negb_true_iff. split.
    + intros [Hn Hge]. split; [|lia].
      intros ->. discriminate Hn.
    + intros [Hne Hge]. split; [|lia].
      destruct cat; try reflexivity. now elim Hne.
Qed.

(** C10: when the scanned text includes no category keyword and no
    negative keyword and the sender matches a trusted pattern, every
    category scores 3 with no matched keyword, PLACEMENT_DRIVE (the first
    in order) wins with score 3, [important] is true, and [classifyEmail]
    hands this answer on as it is: the message is never turned into OTHER. *)
Theorem trusted_sender_alone_is_important email :
  (forall c kw, c <> OTHER -> In kw (categoryKeywords c) ->
                Js.includes (scanText toLowerCase email) kw = false) ->
  (forall kw, In kw NEGATIVE_KEYWORDS ->
              Js.includes (scanText toLowerCase email) kw = false) ->
  trustedSender (toLowerCase (from email)) = true ->
  let r := keywordClassify toLowerCase email in
  kr_categoryScores r =
    [ (PLACEMENT_DRIVE, (3, [])); (INTERVIEW, (3, []));
      (ASSESSMENT, (3, [])); (SHORTLISTED, (3, [])) ] /\
  kr_category r = PLACEMENT_DRIVE /\ kr_score r = 3 /\ kr_important r = true /\
  classifyEmail toLowerCase JSON_parse GEMINI_API_KEY gemini stackRoom email =
  Returned (JObj [ ("important", JBool true); ("category", JStr "PLACEMENT_DRIVE");
                   ("confidence", JNum (3 # 10));
                   ("reason", JStr "No strong keyword matches");
                   ("method", JStr "keyword") ]).
Proof.
  intros Hkw Hneg Htrust r.
  assert (Hb : senderBonusOf toLowerCase email = 3).
  { unfold senderBonusOf. rewrite senderBonusLoop_trusted.
    unfold trustedSender in Htrust. now rewrite Htrust. }
  assert (Hn : negativeScoreOf (scanText toLowerCase email) = 0).
  { rewrite negativeScoreOf_hits. unfold hits. now rewrite (filter_none _ _ Hneg). }
  assert (Hr : r = {| kr_important := true; kr_category := PLACEMENT_DRIVE; kr_score := 3;
                      kr_reason := "No strong keyword matches";
                      kr_categoryScores :=
                        [ (PLACEMENT_DRIVE, (3, [])); (INTERVIEW, (3, []));
                          (ASSESSMENT, (3, [])); (SHORTLISTED, (3, [])) ] |}).
  { subst r. unfold keywordClassify. rewrite Hb, Hn. rewrite keywordsOf_table.
    unfold categoryLoop. cbn [fold_left]. unfold categoryStep.
    rewrite !scoreCategory_none by (intros kw; apply Hkw; discriminate).
    reflexivity. }
  rewrite Hr. cbn [kr_categoryScores kr_category kr_score kr_important].
  repeat split.
  unfold classifyEmail. fold r. rewrite Hr. reflexivity.
Qed.

End WithBackend.

End Tier1Facts.

Lemma none_included text (l : list string) :
  forallb (fun kw => negb (Js.includes text kw)) l = true ->
  forall kw, In kw l -> Js.includes text kw = false.
Proof.
  intros H kw Hin. rewrite forallb_forall in H. apply negb_true_iff. now apply H.
Qed.

Lemma keywordClassify_winner_witness :
  spec_score Js.asciiLower workedExample PLACEMENT_DRIVE
  <= kr_score (keywordClassify Js.asciiLower workedExample) /\
  classifyEmail Js.asciiLower Json.parse false noBackend 64 workedExample
  = Returned (keywordAnswer (keywordClassify Js.asciiLower workedExample) "keyword").
Proof.
  pose proof (keywordClassify_winner Js.asciiLower Json.parse false noBackend 64
                workedExample) as H.
  cbv zeta in H. destruct H as (H1 & _ & _ & _ & _ & _ & H7 & _).
  split.
  - apply H1. discriminate.
  - apply H7. left. vm_compute. discriminate.
Defined.

Lemma trusted_sender_alone_is_important_witness :
  kr_category (keywordClassify Js.asciiLower greeting) = PLACEMENT_DRIVE /\
  kr_score (keywordClassify Js.asciiLower greeting) = 3 /\
  kr_important (keywordClassify Js.asciiLower greeting) = true.
Proof.
  destruct (trusted_sender_alone_is_important Js.asciiLower Json.parse false noBackend 64
              greeting) as (_ & Hc & Hs & Hi & _).
  - intros c kw Hc. apply none_included. destruct c; try (now elim Hc); vm_compute; reflexivity.
  - apply none_included. vm_compute. reflexivity.
  - vm_compute. reflexivity.
  - exact (conj Hc (conj Hs Hi)).
Defined.

(** The body includes both phrases, yet the score is not 9 and the
    confidence is not 0.9: the subject includes the keywords
    [interview schedule] and [interview] as well. *)
Lemma worked_example_is_not_9 : ~ workedExampleAsStated.
Proof.
  unfold workedExampleAsStated. intro H.
  destruct (H eq_refl eq_refl) as [Hs _]. vm_compute in Hs. discriminate Hs.
Qed.

(** C6 (amended): for the message of the worked example (subject
    "Interview Schedule - Round 2" with its dash, sender hr@acme-corp.com,
    empty snippet, a body of one sentence with "technical interview" and
    "zoom interview") the score of the keyword tier is 14: 3 for each of the
    high keywords [interview schedule], [technical interview] and
    [zoom interview], 2 for the medium keyword [interview], 3 for the
    trusted sender; and the classifier answers important, INTERVIEW,
    method keyword, confidence 1, whatever the backend. *)
Theorem worked_example_scores_14 :
  kr_score (keywordClassify Js.asciiLower workedExample) = 14 /\
  kr_categoryScores (keywordClassify Js.asciiLower workedExample) =
    [ (PLACEMENT_DRIVE, (3, []));
      (INTERVIEW, (14, ["interview schedule"; "technical interview"; "zoom interview";
                        "interview"]));
      (ASSESSMENT, (3, [])); (SHORTLISTED, (3, [])) ] /\
  forall JSON_parse GEMINI_API_KEY gemini stackRoom,
    classifyEmail Js.asciiLower JSON_parse GEMINI_API_KEY gemini stackRoom workedExample =
    Returned (JObj [ ("important", JBool true); ("category", JStr "INTERVIEW");
                     ("confidence", JNum 1);
                     ("reason",
                      JStr "Matched keywords: interview schedule, technical interview, zoom interview");
                     ("method", JStr "keyword") ]).
Proof.
  split; [vm_compute; reflexivity|]. split; [vm_compute; reflexivity|].
  intros JSON_parse key gemini room.
  rewrite classifyEmail_keyword by (left; vm_compute; discriminate).
  vm_compute. reflexivity.
Qed.

(** ** The AI tier *)

Lemma lookup_assign_same props k v : lookupProp (assignProp props k v) k = v.
Proof.
  induction props as [|[k' v'] props IH]; cbn [assignProp lookupProp].
  - now rewrite String.eqb_refl.
  - destruct (String.eqb k' k) eqn:E; cbn [lookupProp]; rewrite E; [reflexivity | exact IH].
Qed.

Lemma lookup_assign_other props k k' v :
  k' <> k -> lookupProp (assignProp props k v) k' = lookupProp props k'.
Proof.
  intro Hne. induction props as [|[k0 v0] props IH]; cbn [assignProp lookupProp].
  - destruct (String.eqb k k') eqn:E; [|reflexivity].
    apply String.eqb_eq in E. congruence.
  - destruct (String.eqb k0 k) eqn:E; cbn [lookupProp].
    + apply String.eqb_eq in E. subst k0.
      destruct (String.eqb k k') eqn:E'; [|reflexivity].
      apply String.eqb_eq in E'. congruence.
    + destruct (String.eqb k0 k'); [reflexivity | exact IH].
Qed.

(** Repairing one field makes it good and leaves the others alone. *)
Lemma repaired_prop (good : JsVal -> bool) props k v :
  good v = true ->
  let props' := if good (lookupProp props k) then props else assignProp props k v in
  good (lookupProp props' k) = true /\
  forall k', k' <> k -> lookupProp props' k' = lookupProp props k'.
Proof.
  intros Hv props'. subst props'. destruct (good (lookupProp props k)) eqn:E.
  - split; [exact E | reflexivity].
  - split; [now rewrite lookup_assign_same | intros k' Hne; now apply lookup_assign_other].
Qed.

Lemma validatedProps_valid props : schemaValid (JObj (validatedProps props)) = true.
Proof.
  unfold schemaValid, validatedProps.
  destruct (repaired_prop isBoolean props "important" (JBool false) eq_refl) as [A1 B1].
  set (p1 := if isBoolean (lookupProp props "important") then props else _) in *.
  destruct (repaired_prop isCategoryName p1 "category" (JStr (categoryName OTHER)) eq_refl)
    as [A2 B2].
  set (p2 := if isCategoryName (lookupProp p1 "category") then p1 else _) in *.
  destruct (repaired_prop (fun v => negb (badConfidence v)) p2 "confidence" (JNum (1 # 2))
              eq_refl) as [A3 B3].
  cbv beta in A3, B3.
  assert (E3 : (if badConfidence (lookupProp p2 "confidence")
                then assignProp p2 "confidence" (JNum (1 # 2)) else p2)
               = (if negb (badConfidence (lookupProp p2 "confidence")) then p2
                  else assignProp p2 "confidence" (JNum (1 # 2)))).
  { now destruct (badConfidence (lookupProp p2 "confidence")). }
  rewrite E3. clear E3.
  set (p3 := if negb (badConfidence (lookupProp p2 "confidence")) then p2 else _) in *.
  destruct (repaired_prop isString p3 "reason" (JStr "AI classification") eq_refl) as [A4 B4].
  set (p4 := if isString (lookupProp p3 "reason") then p3 else _) in *.
  rewrite A4.
  rewrite (B4 "confidence"), A3 by discriminate.
  rewrite (B4 "category"), (B3 "category"), A2 by discriminate.
  rewrite (B4 "important"), (B3 "important"), (B2 "important"), A1 by discriminate.
  reflexivity.
Qed.

Section Tier2Facts.

Variable toLowerCase : string -> string.
Variable JSON_parse : string -> option JsVal.

Ltac walk_validation :=
  match goal with
  | |- context [isCategoryName (lookupProp ?p "category")] =>
      destruct (isCategoryName (lookupProp p "category"))
  | |- context [badConfidence (lookupProp ?p "confidence")] =>
      destruct (badConfidence (lookupProp p "confidence"))
  | |- context [typeof (lookupProp ?p "reason")] =>
      destruct (lookupProp p "reason")
  end; cbn [typeof setProp bind getProp isString].

(** An object leaves the validation with its four fields repaired. *)
Lemma validateResponse_object text props :
  JSON_parse text = Some (JObj props) ->
  validateResponse JSON_parse text = Returned (JObj (validatedProps props)).
Proof.
  intro H. unfold validateResponse, validatedProps. rewrite H. cbn [bind getProp].
  destruct (lookupProp props "important"); cbn [typeof setProp bind getProp isBoolean].
  all: repeat walk_validation; reflexivity.
Qed.

(** So does an array: the fields become named properties of it. *)
Lemma validateResponse_array text elems props :
  JSON_parse text = Some (JArr elems props) ->
  validateResponse JSON_parse text = Returned (JArr elems (validatedProps props)).
Proof.
  intro H. unfold validateResponse, validatedProps. rewrite H. cbn [bind getProp].
  destruct (lookupProp props "important"); cbn [typeof setProp bind getProp isBoolean].
  all: repeat walk_validation; reflexivity.
Qed.

(** A number, a boolean or a string passes through untouched: every
    assignment to it is dropped. *)
Lemma validateResponse_primitive text v :
  JSON_parse text = Some v -> isPrimitive v = true ->
  validateResponse JSON_parse text = Returned v.
Proof.
  intros H Hp. unfold validateResponse. rewrite H.
  destruct v; try discriminate Hp; reflexivity.
Qed.

Lemma validateResponse_cases text :
  (exists v, validateResponse JSON_parse text = Returned v /\
             (schemaValid v = true \/
              (isPrimitive v = true /\ JSON_parse text = Some v))) \/
  (exists e, validateResponse JSON_parse text = Threw e).
Proof.
  destruct (JSON_parse text) as [v|] eqn:H.
  - destruct v.
    + right. unfold validateResponse. rewrite H. eexists; reflexivity.
    + right. unfold validateResponse. rewrite H. eexists; reflexivity.
    + left. exists (JBool b). rewrite (validateResponse_primitive _ _ H eq_refl). auto.
    + left. exists (JNum q). rewrite (validateResponse_primitive _ _ H eq_refl). auto.
    + left. exists (JStr s). rewrite (validateResponse_primitive _ _ H eq_refl). auto.
    + left. eexists. rewrite (validateResponse_object _ _ H). split; [reflexivity|].
      left. apply validatedProps_valid.
    + left. eexists. rewrite (validateResponse_array _ _ _ H). split; [reflexivity|].
      left. exact (validatedProps_valid props).
  - right. unfold validateResponse. rewrite H. eexists; reflexivity.
Qed.

(** With room for one frame [parseAIResponse] returns, whatever the text
    and however deep the recursion on an extracted substring goes; what it
    returns is a populated result or a primitive that [JSON.parse] read. *)
Lemma parseAIResponse_returns stack text :
  exists v, parseAIResponse JSON_parse (S stack) text = Returned v /\
            (schemaValid v = true \/
             (isPrimitive v = true /\ exists t, JSON_parse t = Some v)).
Proof.
  revert text. induction stack as [|stack IH]; intro text.
  - cbn [parseAIResponse].
    destruct (validateResponse_cases text) as [(v & -> & Hv) | (e & ->)]; cbn [tryCatch].
    + exists v. split; [reflexivity|]. destruct Hv as [Hv | [Hp Hj]]; [now left | right; eauto].
    + exists unparseable. split; [|now left].
      destruct (matchJsonObject text); reflexivity.
  - change (parseAIResponse JSON_parse (S (S stack)) text)
      with (tryCatch (validateResponse JSON_parse text)
              (fun _ => match matchJsonObject text with
                        | Some jsonMatch =>
                            tryCatch (parseAIResponse JSON_parse (S stack) jsonMatch)
                              (fun _ => Returned unparseable)
                        | None => Returned unparseable
                        end)).
    destruct (validateResponse_cases text) as [(v & -> & Hv) | (e & ->)]; cbn [tryCatch].
    + exists v. split; [reflexivity|]. destruct Hv as [Hv | [Hp Hj]]; [now left | right; eauto].
    + destruct (matchJsonObject text) as [m|].
      * destruct (IH m) as (v & -> & Hv). exists v. split; [reflexivity | exact Hv].
      * exists unparseable. split; [reflexivity | now left].
Qed.

(** A text that is no JSON and holds no braces gives the fixed result. *)
Lemma parseAIResponse_unparseable stack text :
  JSON_parse text = None -> matchJsonObject text = None ->
  parseAIResponse JSON_parse (S stack) text = Returned unparseable.
Proof.
  intros H Hm. cbn [parseAIResponse]. unfold validateResponse. rewrite H, Hm. reflexivity.
Qed.

(** A number that [JSON.parse] reads comes back as the bare number. *)
Lemma parseAIResponse_number stack text q :
  JSON_parse text = Some (JNum q) ->
  parseAIResponse JSON_parse (S stack) text = Returned (JNum q).
Proof.
  intro H. cbn [parseAIResponse].
  now rewrite (validateResponse_primitive _ _ H eq_refl).
Qed.

Variable GEMINI_API_KEY : bool.
Variable gemini : Backend.
Variable stackRoom : nat.

(** No exception of the AI tier leaves [classifyEmail]. *)
Lemma classifyEmail_returns email :
  exists v, classifyEmail toLowerCase JSON_parse GEMINI_API_KEY gemini stackRoom email
            = Returned v.
Proof.
  unfold classifyEmail.
  destruct (orb _ _); [eexists; reflexivity|].
  destruct GEMINI_API_KEY; [|eexists; reflexivity].
  destruct (aiClassify JSON_parse true gemini stackRoom email); cbn [bind tryCatch];
    eexists; reflexivity.
Qed.

End Tier2Facts.

(** C7: a response that is a JSON number is not recovered. For the response
    text 123, [JSON.parse] succeeds, the four repairs are assignments to a
    number and are dropped, and [parseAIResponse] returns the bare number
    123, which has none of the four fields; [classifyEmail] then answers
    with an object that holds the method and nothing else. *)
Theorem number_response_is_not_validated :
  Json.parse "123" = Some (JNum 123) /\
  parseAIResponse Json.parse 64 "123" = Returned (JNum 123) /\
  schemaValid (JNum 123) = false /\
  kr_score (keywordClassify Js.asciiLower uncertain) = 5 /\
  classifyEmail Js.asciiLower Json.parse true numberBackend 64 uncertain
  = Returned (JObj [("method", JStr "ai")]) /\
  schemaValid (JObj [("method", JStr "ai")]) = false.
Proof. vm_compute. repeat split. Qed.

(** ** The fetch window *)

(** C3: with a checkpoint the lower bound of the fetch is the later of the
    checkpoint and 30 minutes (1800000 ms) before now; without one it is 30
    minutes before now; it never precedes now - 30 minutes, and it depends
    on nothing but the checkpoint and now. *)
Theorem getSinceTimestamp_window now user p :
  (forall checked, atProvider (lastChecked user) p = Some checked ->
     getSinceTimestamp now user p = Z.max checked (now - 1800000)) /\
  (atProvider (lastChecked user) p = None ->
     getSinceTimestamp now user p = now - 1800000) /\
  now - 1800000 <= getSinceTimestamp now user p /\
  (forall user', atProvider (lastChecked user') p = atProvider (lastChecked user) p ->
     getSinceTimestamp now user' p = getSinceTimestamp now user p).
Proof.
  unfold getSinceTimestamp, DEFAULT_LOOKBACK_MINUTES.
  split; [|split; [|split]].
  - intros checked ->. reflexivity.
  - intros ->. reflexivity.
  - destruct (atProvider (lastChecked user) p); lia.
  - intros user' ->. reflexivity.
Qed.

Lemma getSinceTimestamp_window_witness :
  getSinceTimestamp 1700000000000 asha gmail = 1699998200000 /\
  getSinceTimestamp 1700000000000
    (setLastChecked asha {| at_gmail := Some 1699999999000; at_outlook := None |}) gmail
  = 1699999999000.
Proof.
  split.
  - rewrite (proj1 (proj2 (getSinceTimestamp_window 1700000000000 asha gmail)));
      reflexivity.
  - rewrite (proj1 (getSinceTimestamp_window 1700000000000
                      (setLastChecked asha {| at_gmail := Some 1699999999000;
                                              at_outlook := None |}) gmail)
               1699999999000); reflexivity.
Defined.

(** ** The store *)

Lemma find_updateOne chat set us :
  (forall u, telegramChatId (set u) = telegramChatId u) ->
  find (fun u => String.eqb (telegramChatId u) chat) (updateOne chat set us)
  = option_map set (find (fun u => String.eqb (telegramChatId u) chat) us).
Proof.
  intro Hset. induction us as [|u us IH]; [reflexivity|].
  cbn [updateOne find]. destruct (String.eqb (telegramChatId u) chat) eqn:E.
  - cbn [find]. rewrite Hset, E. reflexivity.
  - cbn [find]. rewrite E. exact IH.
Qed.

Lemma getUserByChatId_updateOne chat set w :
  (forall u, telegramChatId (set u) = telegramChatId u) ->
  getUserByChatId chat (withUsers w (updateOne chat set (users w)))
  = option_map set (getUserByChatId chat w).
Proof. intro H. unfold getUserByChatId. cbn [users withUsers]. now apply find_updateOne. Qed.

Lemma getUserByChatId_emit chat ev w :
  getUserByChatId chat (emit ev w) = getUserByChatId chat w.
Proof. reflexivity. Qed.

Lemma checkpointOf_updateLastChecked chat p now w u :
  getUserByChatId chat w = Some u ->
  checkpointOf chat p (updateLastChecked chat p now w) = Some (Some now).
Proof.
  unfold checkpointOf, updateLastChecked. intro H.
  rewrite getUserByChatId_updateOne by reflexivity. rewrite H.
  cbn [option_map lastChecked setLastChecked]. destruct p; reflexivity.
Qed.

(** The upsert leaves a record under the key it was given. *)
Lemma findOneAndUpdate_records uid set ins ds :
  doc_uniqueId ins = uid ->
  (forall d, doc_uniqueId (set d) = doc_uniqueId d) ->
  exists d, In d (findOneAndUpdate uid set ins ds) /\ doc_uniqueId d = uid /\
            (d = ins \/ exists d0, In d0 ds /\ d = set d0).
Proof.
  intros Hi Hs. induction ds as [|d ds IH]; cbn [findOneAndUpdate].
  - exists ins. split; [now left|]. split; [assumption | now left].
  - destruct (String.eqb (doc_uniqueId d) uid) eqn:E.
    + exists (set d). split; [now left|]. split.
      * rewrite Hs. now apply String.eqb_eq.
      * right. exists d. split; [now left | reflexivity].
    + destruct IH as (d' & Hin & Hu & Hor). exists d'. split; [now right|].
      split; [assumption|].
      destruct Hor as [-> | (d0 & Hin0 & ->)]; [now left|].
      right. exists d0. split; [now right | reflexivity].
Qed.

(** Where the record of the message is the recipient's own, or is yet to
    be written, [saveEmail] makes the ledger answer yes. *)
Lemma isEmailNotified_saveEmail_owner user email classification now w :
  ownsRecord user email w ->
  isEmailNotified (telegramChatId user) (provider email) (messageId email)
    (saveEmail user email classification now w) = true.
Proof.
  unfold ownsRecord, isEmailNotified, saveEmail. cbn [emails withEmails].
  induction (emails w) as [|d ds IH]; intro Hown; cbn [findOneAndUpdate].
  - cbn. now rewrite !String.eqb_refl, Provider_eqb_refl.
  - destruct (String.eqb (doc_uniqueId d) (uniqueIdOf email)) eqn:E.
    + apply String.eqb_eq in E. destruct (Hown d (or_introl eq_refl) E) as (Hc & Hp & Hm).
      cbn [existsb markNotified doc_telegramChatId doc_provider doc_messageId doc_notified].
      now rewrite Hc, Hp, Hm, !String.eqb_refl, Provider_eqb_refl.
    + cbn [existsb]. rewrite IH; [apply orb_true_r|].
      intros d' Hin. apply Hown. now right.
Qed.

(** [saveEmail] never takes a notification back. *)
Lemma isEmailNotified_saveEmail_mono chat p mid user email classification now w :
  isEmailNotified chat p mid w = true ->
  isEmailNotified chat p mid (saveEmail user email classification now w) = true.
Proof.
  unfold isEmailNotified, saveEmail. cbn [emails withEmails].
  induction (emails w) as [|d ds IH]; intro H; [discriminate H|].
  cbn [findOneAndUpdate]. cbn [existsb] in H.
  destruct (String.eqb (doc_uniqueId d) (uniqueIdOf email)); cbn [existsb].
  - cbn [markNotified doc_telegramChatId doc_provider doc_messageId doc_notified].
    apply orb_true_iff in H. destruct H as [H | H]; [|rewrite H; apply orb_true_r].
    apply andb_true_iff in H. destruct H as [H1 H2].
    apply andb_true_iff in H2. destruct H2 as [H2 _].
    now rewrite H1, H2.
  - apply orb_true_iff in H. destruct H as [H | H]; [now rewrite H|].
    rewrite (IH H). apply orb_true_r.
Qed.

(** ** One message *)

Lemma users_processEmail env user p st email :
  users (snd (processEmail env user p st email)) = users (snd st).
Proof.
  destruct st as [result w]. unfold processEmail.
  destruct (isEmailNotified _ _ _ w); [reflexivity|].
  destruct (classifier env email) as [c|]; [|reflexivity].
  destruct (getProp c "category") as [cat|]; [|reflexivity].
  destruct (getProp c "important") as [imp|]; [|reflexivity].
  destruct (andb _ _); [|reflexivity].
  destruct (sendEmailNotification _ _ _ _); reflexivity.
Qed.

Lemma users_processEmails env user p fetched st :
  users (snd (fold_left (processEmail env user p) fetched st)) = users (snd st).
Proof.
  revert st. induction fetched as [|e es IH]; intro st; [reflexivity|].
  cbn [fold_left]. rewrite IH. apply users_processEmail.
Qed.

(** A message the ledger knows is passed over: nothing is classified,
    sent, counted or written. *)
Lemma processEmail_skips env user p result w email :
  isEmailNotified (telegramChatId user) p (messageId email) w = true ->
  processEmail env user p (result, w) email = (result, w).
Proof. intro H. unfold processEmail. now rewrite H. Qed.

Lemma isEmailNotified_processEmail chat p mid env user p' st email :
  isEmailNotified chat p mid (snd st) = true ->
  isEmailNotified chat p mid (snd (processEmail env user p' st email)) = true.
Proof.
  destruct st as [result w]. cbn [snd]. intro H. unfold processEmail.
  destruct (isEmailNotified _ p' _ w); [exact H|].
  destruct (classifier env email) as [c|]; [|exact H].
  destruct (getProp c "category") as [cat|]; [|exact H].
  destruct (getProp c "important") as [imp|]; [|exact H].
  destruct (andb _ _); [|exact H].
  destruct (sendEmailNotification _ _ _ _); cbn [snd]; [|exact H].
  now apply isEmailNotified_saveEmail_mono.
Qed.

(** What one turn of the loop adds to the trace. *)
Lemma processEmail_trace env user p st email :
  exists evs, trace (snd (processEmail env user p st email)) = (trace (snd st) ++ evs)%list /\
              (isEmailNotified (telegramChatId user) p (messageId email) (snd st) = true ->
               evs = []) /\
              (isEmailNotified (telegramChatId user) p (messageId email) (snd st) = false ->
               exists rest, evs = Classified email :: rest) /\
              forall ev, In ev evs ->
                         ev = Classified email \/
                         exists sent, ev = EmailNotification (telegramChatId user) email sent.
Proof.
  destruct st as [result w]. cbn [snd]. unfold processEmail.
  destruct (isEmailNotified _ p _ w).
  { exists []. cbn [snd]. rewrite app_nil_r.
    split; [reflexivity|]. split; [reflexivity|]. split; [discriminate|]. intros ev []. }
  assert (H1 : exists evs,
             trace (emit (Classified email) w) = (trace w ++ evs)%list /\
             (false = true -> evs = []) /\
             (false = false -> exists rest, evs = Classified email :: rest) /\
             forall ev, In ev evs ->
                        ev = Classified email \/
                        exists sent, ev = EmailNotification (telegramChatId user) email sent).
  { exists [Classified email]. split; [reflexivity|]. split; [discriminate|].
    split; [intros _; now exists []|].
    intros ev [<- | []]. now left. }
  destruct (classifier env email) as [c|]; [|exact H1].
  destruct (getProp c "category") as [cat|]; [|exact H1].
  destruct (getProp c "important") as [imp|]; [|exact H1].
  destruct (andb _ _); [|exact H1].
  exists [Classified email;
          EmailNotification (telegramChatId user) email
            (sendEmailNotification env (telegramChatId user) email c)].
  split.
  - destruct (sendEmailNotification _ _ _ _); cbn [snd trace emit saveEmail withEmails];
      now rewrite <- app_assoc.
  - split; [discriminate|]. split; [intros _; eexists; reflexivity|].
    intros ev [<- | [<- | []]]; [now left | right; eauto].
Qed.

(** A key that starts with a letter is no index of an array. *)
Lemma revapp_not_Nil d acc : acc <> Decimal.Nil -> Decimal.revapp d acc <> Decimal.Nil.
Proof.
  revert acc. induction d; intros acc H; cbn [Decimal.revapp]; try exact H;
    apply IHd; discriminate.
Qed.

Lemma little_succ_not_Nil d : Decimal.Little.succ d <> Decimal.Nil.
Proof. destruct d; discriminate. Qed.

Lemma to_little_uint_not_Nil n acc :
  acc <> Decimal.Nil -> Nat.to_little_uint n acc <> Decimal.Nil.
Proof.
  revert acc. induction n as [|n IH]; intros acc H; cbn [Nat.to_little_uint]; [exact H|].
  apply IH, little_succ_not_Nil.
Qed.

Lemma indexKey_not_named i a rest :
  Json.isDigit a = false -> String.eqb (indexKey i) (String a rest) = false.
Proof.
  intros D. unfold indexKey, Nat.to_uint, Decimal.rev.
  assert (N : Decimal.revapp (Nat.to_little_uint i Decimal.zero) Decimal.Nil <> Decimal.Nil).
  { generalize (to_little_uint_not_Nil i Decimal.zero ltac:(discriminate)).
    destruct (Nat.to_little_uint i Decimal.zero); intros H; try (now elim H);
      cbn [Decimal.revapp]; apply revapp_not_Nil; discriminate. }
  destruct (Decimal.revapp _ _); [now elim N| | | | | | | | | |];
    cbn [NilEmpty.string_of_uint String.eqb];
    match goal with
    | |- context [Ascii.eqb ?c a] =>
        destruct (Ascii.eqb_spec c a) as [<-|]; [discriminate D|reflexivity]
    end.
Qed.

Lemma lookupProp_indexed {A} (f : A -> JsVal) l i a rest :
  Json.isDigit a = false -> lookupProp (indexed f l i) (String a rest) = JUndefined.
Proof.
  intros D. revert i. induction l as [|x l IH]; intros i; [reflexivity|].
  cbn [indexed lookupProp]. rewrite (indexKey_not_named i a rest D). apply IH.
Qed.

Lemma lookupProp_app_indexed {A} (f : A -> JsVal) l i props a rest :
  Json.isDigit a = false ->
  lookupProp (indexed f l i ++ props) (String a rest) = lookupProp props (String a rest).
Proof.
  intros D. revert i. induction l as [|x l IH]; intros i; [reflexivity|].
  cbn [indexed lookupProp app]. rewrite (indexKey_not_named i a rest D). apply IH.
Qed.

(** What [o.k] reads is what the spread of [o] holds under [k]. *)
Lemma lookupProp_ownProps v a rest x :
  Json.isDigit a = false ->
  getProp v (String a rest) = Returned x -> lookupProp (ownProps v) (String a rest) = x.
Proof.
  intros D. destruct v; cbn [getProp ownProps]; try discriminate; intros [= <-];
    try reflexivity.
  - apply lookupProp_indexed, D.
  - apply lookupProp_app_indexed, D.
Qed.

(** An object or an array has every property read return. *)
Lemma getProp_returns v k x k' :
  getProp v k = Returned x -> exists y, getProp v k' = Returned y.
Proof. destruct v; cbn [getProp]; try discriminate; intros _; eexists; reflexivity. Qed.

(** The upsert by the first record under the identifier. *)
Lemma findOneAndUpdate_find uid set ins ds :
  match find (fun d => String.eqb (doc_uniqueId d) uid) ds with
  | None => findOneAndUpdate uid set ins ds = (ds ++ [ins])%list
  | Some d0 =>
      exists before after,
        ds = (before ++ d0 :: after)%list /\
        Forall (fun d => doc_uniqueId d <> uid) before /\
        findOneAndUpdate uid set ins ds = (before ++ set d0 :: after)%list
  end.
Proof.
  induction ds as [|d ds IH]; cbn [find findOneAndUpdate]; [reflexivity|].
  destruct (String.eqb (doc_uniqueId d) uid) eqn:E.
  - exists [], ds. repeat split. constructor.
  - destruct (find _ ds) as [d0|].
    + destruct IH as (before & after & -> & F & ->).
      exists (d :: before), after. repeat split.
      constructor; [apply String.eqb_neq, E|exact F].
    + rewrite IH. reflexivity.
Qed.

Lemma notified_saveEmail user email classification now w :
  Forall (fun d => doc_notified d = true) (emails w) ->
  Forall (fun d => doc_notified d = true) (emails (saveEmail user email classification now w)).
Proof.
  unfold saveEmail. cbn [emails withEmails].
  induction 1 as [|d ds H H' IH]; cbn [findOneAndUpdate].
  - constructor; [reflexivity|constructor].
  - destruct (String.eqb _ _); constructor; auto.
Qed.

Lemma notified_processEmail env user p st email :
  Forall (fun d => doc_notified d = true) (emails (snd st)) ->
  Forall (fun d => doc_notified d = true) (emails (snd (processEmail env user p st email))).
Proof.
  destruct st as [result w]. cbn [snd]. intros H. unfold processEmail.
  destruct (isEmailNotified _ _ _ w); [exact H|].
  destruct (classifier env email) as [c|]; [|exact H].
  destruct (getProp c "category"); [|exact H].
  destruct (getProp c "important"); [|exact H].
  destruct (andb _ _); [|exact H].
  destruct (sendEmailNotification _ _ _ _); cbn [snd]; [|exact H].
  apply notified_saveEmail. exact H.
Qed.

(** The record of another message does not mark this one, in a ledger
    whose records are all marked. *)
Lemma isEmailNotified_saveEmail_other chat p mid user email classification now w :
  Forall (fun d => doc_notified d = true) (emails w) ->
  messageId email <> mid ->
  isEmailNotified chat p mid (saveEmail user email classification now w)
  = isEmailNotified chat p mid w.
Proof.
  intros F N. unfold isEmailNotified, saveEmail. cbn [emails withEmails].
  induction F as [|d ds H H' IH]; cbn [findOneAndUpdate existsb].
  - cbn [insertedDoc doc_telegramChatId doc_provider doc_messageId doc_notified].
    apply String.eqb_neq in N. rewrite N, !andb_false_r. reflexivity.
  - destruct (String.eqb (doc_uniqueId d) (uniqueIdOf email)); cbn [existsb].
    + cbn [markNotified doc_telegramChatId doc_provider doc_messageId doc_notified].
      rewrite H. reflexivity.
    + rewrite IH. reflexivity.
Qed.

Lemma isEmailNotified_processEmail_other chat p mid env user p' st email :
  Forall (fun d => doc_notified d = true) (emails (snd st)) ->
  messageId email <> mid ->
  isEmailNotified chat p mid (snd (processEmail env user p' st email))
  = isEmailNotified chat p mid (snd st).
Proof.
  destruct st as [result w]. cbn [snd]. intros F N. unfold processEmail.
  destruct (isEmailNotified _ p' _ w); [reflexivity|].
  destruct (classifier env email) as [c|]; [|reflexivity].
  destruct (getProp c "category"); [|reflexivity].
  destruct (getProp c "important"); [|reflexivity].
  destruct (andb _ _); [|reflexivity].
  destruct (sendEmailNotification _ _ _ _); cbn [snd]; [|reflexivity].
  rewrite isEmailNotified_saveEmail_other; [reflexivity|exact F|exact N].
Qed.

Lemma trace_processEmails env user p fetched st :
  exists evs,
    trace (snd (fold_left (processEmail env user p) fetched st)) = (trace (snd st) ++ evs)%list.
Proof.
  revert st. induction fetched as [|e es IH]; intros st.
  - exists []. cbn. now rewrite app_nil_r.
  - cbn [fold_left]. destruct (processEmail_trace env user p st e) as (evs1 & T1 & _).
    destruct (IH (processEmail env user p st e)) as (evs2 & T2).
    exists (evs1 ++ evs2)%list. now rewrite T2, T1, app_assoc.
Qed.

(** The turn of a message that is not marked and that the classifier
    calls important in an enabled category. *)
Lemma processEmail_wanted env user p result w email classification category important :
  isEmailNotified (telegramChatId user) p (messageId email) w = false ->
  classifier env email = Returned classification ->
  getProp classification "category" = Returned category ->
  getProp classification "important" = Returned important ->
  truthy important = true ->
  categoryEnabled user category = true ->
  processEmail env user p (result, w) email
  = let sent := sendEmailNotification env (telegramChatId user) email classification in
    let w1 := emit (EmailNotification (telegramChatId user) email sent)
                (emit (Classified email) w) in
    if sent
    then (sentNotification (foundImportant result),
          saveEmail user email classification (clockSaved env) w1)
    else (foundImportant result, w1).
Proof.
  intros Hn Hc Hcat Himp Ht He. unfold processEmail.
  rewrite Hn, Hc, Hcat, Himp, Ht, He. reflexivity.
Qed.

(** A sweep that fetches a message that is not marked takes it up. *)
Lemma processEmails_retry env user p fetched st email classification category important :
  Forall (fun d => doc_notified d = true) (emails (snd st)) ->
  isEmailNotified (telegramChatId user) p (messageId email) (snd st) = false ->
  In email fetched ->
  (forall other, In other fetched -> messageId other = messageId email -> other = email) ->
  classifier env email = Returned classification ->
  getProp classification "category" = Returned category ->
  getProp classification "important" = Returned important ->
  truthy important = true ->
  categoryEnabled user category = true ->
  exists evs,
    trace (snd (fold_left (processEmail env user p) fetched st)) = (trace (snd st) ++ evs)%list /\
    In (Classified email) evs /\
    In (EmailNotification (telegramChatId user) email
          (sendEmailNotification env (telegramChatId user) email classification)) evs.
Proof.
  intros F N I U Hc Hcat Himp Ht He. revert st F N.
  induction fetched as [|e es IH]; intros st F N; [destruct I|].
  cbn [fold_left].
  destruct (String.eqb_spec (messageId e) (messageId email)) as [E|E].
  - assert (e = email) by (apply U; [left; reflexivity|exact E]). subst e.
    destruct st as [result w]. cbn [snd] in *.
    rewrite (processEmail_wanted env user p result w email classification category important
               N Hc Hcat Himp Ht He). cbv zeta.
    set (sent := sendEmailNotification env (telegramChatId user) email classification).
    match goal with |- context [fold_left _ es ?st1] =>
      destruct (trace_processEmails env user p es st1) as (evs2 & T2) end.
    exists ([Classified email; EmailNotification (telegramChatId user) email sent] ++ evs2)%list.
    split.
    + rewrite T2. destruct sent; cbn [snd trace emit saveEmail withEmails];
        rewrite <- !app_assoc; reflexivity.
    + split; apply in_or_app; left; [left|right; left]; reflexivity.
  - destruct I as [->|I]; [now elim E|].
    destruct (processEmail_trace env user p st e) as (evs1 & T1 & _).
    destruct (IH I (fun other H => U other (or_intror H))
                (processEmail env user p st e)
                (notified_processEmail env user p st e F)) as (evs2 & T2 & C2 & A2).
    { rewrite isEmailNotified_processEmail_other; [exact N|exact F|exact E]. }
    exists (evs1 ++ evs2)%list. rewrite T2, T1, app_assoc.
    split; [reflexivity|]. split; apply in_or_app; right; assumption.
Qed.

(** C4: for a message that reached the classifier, was found important and
    has its category enabled, the record is written exactly when the
    delivery call returned true.  Then the ledger holds, under the
    identifier of the message, a record marked notified at the time of the
    write, with the five fields of the classification as the classifier
    returned them: where no record had the identifier it is a new record,
    the last of the ledger, owned by the recipient and holding the message
    (provider, identifiers, subject, sender, recipient, snippet, body, link
    and date); where one had it, that record keeps its place, owner and
    content and takes the mark and the classification; and where the
    record, if there was one, was the recipient's own, the message counts
    as notified for the recipient afterwards.  When the call returned false
    nothing is written: the ledger and the users are as they were and the
    message is still not notified; and any later sweep of the provider for
    this recipient that starts with the message not marked, and whose fetch
    returns it, classifies it again and attempts its notification again. *)
Theorem ledger_write_only_on_delivery env user p result w email
        classification category important :
  isEmailNotified (telegramChatId user) p (messageId email) w = false ->
  classifier env email = Returned classification ->
  getProp classification "category" = Returned category ->
  getProp classification "important" = Returned important ->
  truthy important = true ->
  categoryEnabled user category = true ->
  let chat := telegramChatId user in
  let sent := sendEmailNotification env chat email classification in
  let result' := fst (processEmail env user p (result, w) email) in
  let w' := snd (processEmail env user p (result, w) email) in
  let uid := (providerName (provider email) ++ "_" ++ messageId email)%string in
  (sent = true ->
     notificationsSent result' = notificationsSent result + 1 /\
     users w' = users w /\
     exists confidence reason method,
       getProp classification "confidence" = Returned confidence /\
       getProp classification "reason" = Returned reason /\
       getProp classification "method" = Returned method /\
       let stored := JObj [("important", important); ("category", category);
                           ("confidence", confidence); ("reason", reason);
                           ("method", method)] in
       match find (fun d => String.eqb (doc_uniqueId d) uid) (emails w) with
       | None =>
           emails w'
           = (emails w
              ++ [{| doc_userId := _id user; doc_telegramChatId := chat;
                     doc_provider := provider email; doc_messageId := messageId email;
                     doc_threadId := threadId email; doc_uniqueId := uid;
                     doc_subject := subject email; doc_from := from email;
                     doc_to := to email; doc_snippet := snippet email;
                     doc_body := body email; doc_webLink := webLink email;
                     doc_receivedAt := date email; doc_createdAt := clockSaved env;
                     doc_classification := stored; doc_notified := true;
                     doc_notifiedAt := Some (clockSaved env) |}])%list
       | Some held =>
           exists before after marked,
             emails w = (before ++ held :: after)%list /\
             Forall (fun d => doc_uniqueId d <> uid) before /\
             emails w' = (before ++ marked :: after)%list /\
             sameRecord held marked /\
             doc_classification marked = stored /\
             doc_notified marked = true /\
             doc_notifiedAt marked = Some (clockSaved env)
       end /\
       (provider email = p -> ownsRecord user email w ->
        isEmailNotified chat p (messageId email) w' = true)) /\
  (sent = false ->
     emails w' = emails w /\
     users w' = users w /\
     isEmailNotified chat p (messageId email) w' = false /\
     notificationsSent result' = notificationsSent result /\
     forall env2 user2 w2 fetched2 classification2 category2 important2,
       telegramChatId user2 = chat ->
       Forall (fun d => doc_notified d = true) (emails w2) ->
       isEmailNotified chat p (messageId email) w2 = false ->
       fetchEmails env2 p (refreshToken (atProvider (providers user2) p))
         (getSinceTimestamp (clockSince env2) user2 p) = Returned fetched2 ->
       In email fetched2 ->
       (forall other, In other fetched2 -> messageId other = messageId email ->
                      other = email) ->
       classifier env2 email = Returned classification2 ->
       getProp classification2 "category" = Returned category2 ->
       getProp classification2 "important" = Returned important2 ->
       truthy important2 = true ->
       categoryEnabled user2 category2 = true ->
       exists result2 w3 evs,
         processProvider env2 user2 p w2 = (Returned result2, w3) /\
         trace w3 = (trace w2 ++ evs)%list /\
         In (Classified email) evs /\
         In (EmailNotification chat email
               (sendEmailNotification env2 chat email classification2)) evs) /\
  (emails w' <> emails w -> sent = true) /\
  trace w' = (trace w ++ [Classified email;
                          EmailNotification (telegramChatId user) email sent])%list.
Proof.
  intros Hn Hc Hcat Himp Ht He chat sent result' w' uid. subst result' w'.
  rewrite (processEmail_wanted env user p result w email classification category important
             Hn Hc Hcat Himp Ht He).
  cbv zeta. fold chat. fold sent. destruct sent eqn:Hsent; cbn [fst snd].
  - split; [|split; [|split]].
    + intros _. split; [reflexivity|]. split; [reflexivity|].
      destruct (getProp_returns _ _ _ "confidence" Hcat) as (confidence & Hconf).
      destruct (getProp_returns _ _ _ "reason" Hcat) as (reason & Hreason).
      destruct (getProp_returns _ _ _ "method" Hcat) as (method & Hmethod).
      exists confidence, reason, method.
      split; [exact Hconf|]. split; [exact Hreason|]. split; [exact Hmethod|].
      assert (Hdoc : classificationDoc classification
                     = JObj [("important", important); ("category", category);
                             ("confidence", confidence); ("reason", reason);
                             ("method", method)]).
      { unfold classificationDoc.
        rewrite (lookupProp_ownProps classification "i" "mportant" important eq_refl Himp),
                (lookupProp_ownProps classification "c" "ategory" category eq_refl Hcat),
                (lookupProp_ownProps classification "c" "onfidence" confidence eq_refl Hconf),
                (lookupProp_ownProps classification "r" "eason" reason eq_refl Hreason),
                (lookupProp_ownProps classification "m" "ethod" method eq_refl Hmethod).
        reflexivity. }
      split.
      * unfold saveEmail. cbn [emails withEmails emit].
        pose proof (findOneAndUpdate_find (uniqueIdOf email)
                      (markNotified classification (clockSaved env))
                      (insertedDoc user email classification (clockSaved env))
                      (emails w)) as H.
        change (uniqueIdOf email) with uid in H. change (uniqueIdOf email) with uid.
        destruct (find (fun d => String.eqb (doc_uniqueId d) uid) (emails w)) as [held|].
        -- destruct H as (before & after & E & F & U).
           exists before, after, (markNotified classification (clockSaved env) held).
           split; [exact E|]. split; [exact F|]. split; [exact U|].
           split; [unfold sameRecord; cbn; repeat split; reflexivity|].
           split; [exact Hdoc|]. split; reflexivity.
        -- rewrite H. unfold insertedDoc. rewrite Hdoc. reflexivity.
      * intros <- Hown. apply isEmailNotified_saveEmail_owner.
        intros d Hin. apply Hown. exact Hin.
    + discriminate.
    + reflexivity.
    + cbn [trace emit saveEmail withEmails]. now rewrite <- app_assoc.
  - split; [|split; [|split]].
    + discriminate.
    + intros _. split; [reflexivity|]. split; [reflexivity|]. split; [exact Hn|].
      split; [reflexivity|].
      intros env2 user2 w2 fetched2 classification2 category2 important2
             Hchat F2 N2 Hfetch Hin Huniq Hc2 Hcat2 Himp2 Ht2 He2.
      unfold processProvider. rewrite Hfetch.
      destruct (processEmails_retry env2 user2 p fetched2
                  ({| emailsScanned := Z.of_nat (List.length fetched2);
                      importantFound := 0; notificationsSent := 0 |}, w2)
                  email classification2 category2 important2)
        as (evs & T & C & A); try assumption.
      { rewrite Hchat. exact N2. }
      destruct (fold_left _ fetched2 _) as [r2 w3]. cbn [snd] in T.
      exists r2, (updateLastChecked (telegramChatId user2) p (clockChecked env2) w3), evs.
      split; [reflexivity|]. split; [exact T|]. split; [exact C|].
      rewrite Hchat in A. exact A.
    + intros H. now elim H.
    + cbn [trace emit]. now rewrite <- app_assoc.
Qed.

Lemma ledger_write_only_on_delivery_witness :
  let scanned := {| emailsScanned := 1; importantFound := 0; notificationsSent := 0 |} in
  let delivered := snd (processEmail (mailboxEnv [invitation]) asha gmail
                          (scanned, sharedMailbox) invitation) in
  let refused := snd (processEmail (undeliveredEnv [invitation]) asha gmail
                        (scanned, sharedMailbox) invitation) in
  let afterSweep := snd (processProvider (undeliveredEnv [invitation]) asha gmail
                           sharedMailbox) in
  let ashaAgain := setLastChecked asha {| at_gmail := Some 1700000001000;
                                          at_outlook := None |} in
  emails delivered
  = [{| doc_userId := "u1"; doc_telegramChatId := "1001"; doc_provider := gmail;
        doc_messageId := "18c2f"; doc_threadId := None; doc_uniqueId := "gmail_18c2f";
        doc_subject := "Interview schedule for Friday"; doc_from := "hr@acme-corp.com";
        doc_to := "student@example.org";
        doc_snippet := "Your technical interview is confirmed."; doc_body := EmptyString;
        doc_webLink := "https://mail.google.com/mail/u/0/#inbox/18c2f";
        doc_receivedAt := 1699999990000; doc_createdAt := 1700000000500;
        doc_classification :=
          JObj [("important", JBool true); ("category", JStr "INTERVIEW");
                ("confidence", JNum 1);
                ("reason",
                 JStr "Matched keywords: interview schedule, technical interview, interview");
                ("method", JStr "keyword")];
        doc_notified := true; doc_notifiedAt := Some 1700000000500 |}] /\
  isEmailNotified "1001" gmail "18c2f" delivered = true /\
  emails refused = [] /\
  isEmailNotified "1001" gmail "18c2f" refused = false /\
  (exists marked,
      emails (snd (processEmail (mailboxEnv [invitation]) ravi gmail (scanned, delivered)
                     invitation)) = [marked] /\
      doc_telegramChatId marked = "1001" /\ doc_notified marked = true) /\
  getUserByChatId "1001" afterSweep = Some ashaAgain /\
  exists result2 w3 evs,
    processProvider (mailboxEnv [invitation]) ashaAgain gmail afterSweep
    = (Returned result2, w3) /\
    trace w3 = (trace afterSweep ++ evs)%list /\
    In (Classified invitation) evs /\
    In (EmailNotification "1001" invitation true) evs.
Proof.
  intros scanned delivered refused afterSweep ashaAgain.
  pose proof (ledger_write_only_on_delivery (mailboxEnv [invitation]) asha gmail scanned
                sharedMailbox invitation invitationClass (JStr "INTERVIEW") (JBool true)
                ltac:(vm_compute; reflexivity) ltac:(vm_compute; reflexivity)
                eq_refl eq_refl eq_refl eq_refl) as Hyes.
  pose proof (ledger_write_only_on_delivery (undeliveredEnv [invitation]) asha gmail scanned
                sharedMailbox invitation invitationClass (JStr "INTERVIEW") (JBool true)
                ltac:(vm_compute; reflexivity) ltac:(vm_compute; reflexivity)
                eq_refl eq_refl eq_refl eq_refl) as Hno.
  cbv zeta in Hyes, Hno.
  destruct Hyes as (Hsent & _). destruct Hno as (_ & Hfailed & _).
  destruct (Hsent ltac:(vm_compute; reflexivity))
    as (_ & _ & confidence & reason & method & Hconf & Hreason & Hmethod & Hrecord & Hmarked).
  destruct (Hfailed ltac:(vm_compute; reflexivity)) as (Hkept & _ & Hstill & _ & Hretry).
  injection Hconf as <-. injection Hreason as <-. injection Hmethod as <-.
  split; [exact Hrecord|].
  split; [apply Hmarked; [reflexivity|intros d []]|].
  split; [exact Hkept|].
  split; [exact Hstill|].
  split.
  { pose proof (ledger_write_only_on_delivery (mailboxEnv [invitation]) ravi gmail scanned
                  delivered invitation invitationClass (JStr "INTERVIEW") (JBool true)
                  ltac:(vm_compute; reflexivity) ltac:(vm_compute; reflexivity)
                  eq_refl eq_refl eq_refl eq_refl) as Hshared.
    cbv zeta in Hshared. destruct Hshared as (Hagain & _).
    destruct (Hagain ltac:(vm_compute; reflexivity))
      as (_ & _ & c2 & r2 & m2 & _ & _ & _ & Hupdated & _).
    unfold delivered in Hupdated |- *. rewrite Hrecord in Hupdated. cbn [find doc_uniqueId String.eqb Ascii.eqb Bool.eqb] in Hupdated.
    destruct Hupdated as (before & after & marked & E & _ & U & S & _ & N & _).
    exists marked.
    destruct before as [|b before].
    - injection E as <-. split; [exact U|].
      destruct S as (_ & S2 & _). split; [exact S2|exact N].
    - destruct before; discriminate E. }
  split; [vm_compute; reflexivity|].
  apply (Hretry (mailboxEnv [invitation]) ashaAgain afterSweep [invitation]
           invitationClass (JStr "INTERVIEW") (JBool true)).
  - reflexivity.
  - constructor.
  - vm_compute. reflexivity.
  - reflexivity.
  - left. reflexivity.
  - intros other [<-|[]] _. reflexivity.
  - vm_compute. reflexivity.
  - reflexivity.
  - reflexivity.
  - reflexivity.
  - reflexivity.
Defined.

(** ** One provider *)

(** The steps of [handleProviderFailure] leave every checkpoint alone. *)
Lemma checkpointOf_handleProviderFailure env user p message p' w :
  checkpointOf (telegramChatId user) p' (handleProviderFailure env user p message w)
  = checkpointOf (telegramChatId user) p' w.
Proof.
  unfold handleProviderFailure, checkpointOf.
  assert (H1 : forall w0,
             option_map (fun u => atProvider (lastChecked u) p')
               (getUserByChatId (telegramChatId user)
                  (recordProviderError (telegramChatId user) p message (clockError env) w0))
             = option_map (fun u => atProvider (lastChecked u) p')
                 (getUserByChatId (telegramChatId user) w0)).
  { intro w0. unfold recordProviderError. rewrite getUserByChatId_updateOne by reflexivity.
    destruct (getUserByChatId (telegramChatId user) w0); reflexivity. }
  assert (H2 : forall w0,
             option_map (fun u => atProvider (lastChecked u) p')
               (getUserByChatId (telegramChatId user)
                  (recordFailureAlert (telegramChatId user) p (clockAlertStamp env) w0))
             = option_map (fun u => atProvider (lastChecked u) p')
                 (getUserByChatId (telegramChatId user) w0)).
  { intro w0. unfold recordFailureAlert. rewrite getUserByChatId_updateOne by reflexivity.
    destruct (getUserByChatId (telegramChatId user) w0); reflexivity. }
  destruct (canSendFailureAlert _ _ _ _); [|apply H1].
  destruct (sendFailureAlert _ _ _).
  - rewrite H2. rewrite getUserByChatId_emit. apply H1.
  - rewrite getUserByChatId_emit. apply H1.
Qed.

(** C2: when the fetch returns, [processProvider] returns and the stored
    checkpoint of the recipient and provider is the reading of the clock
    at [updateLastChecked], whatever the classifier, the ledger and the
    delivery did or threw for each message; when the fetch throws,
    [processProvider] throws the same error with the store untouched, and
    after the failure was handled by the user sweep the checkpoint is
    still what it was. *)
Theorem checkpoint_advance env user p w :
  let fetch := fetchEmails env p (refreshToken (atProvider (providers user) p))
                 (getSinceTimestamp (clockSince env) user p) in
  (forall fetched stored,
      fetch = Returned fetched ->
      getUserByChatId (telegramChatId user) w = Some stored ->
      (exists result, fst (processProvider env user p w) = Returned result) /\
      checkpointOf (telegramChatId user) p (snd (processProvider env user p w))
      = Some (Some (clockChecked env))) /\
  (forall message,
      fetch = Threw message ->
      processProvider env user p w = (Threw message, w) /\
      forall result,
        checkpointOf (telegramChatId user) p (snd (sweepProvider env user p (result, w)))
        = checkpointOf (telegramChatId user) p w).
Proof.
  intro fetch. subst fetch. split.
  - intros fetched stored Hf Hs. unfold processProvider. rewrite Hf.
    destruct (fold_left _ fetched _) as [result w'] eqn:E.
    cbn [fst snd]. split; [eexists; reflexivity|].
    assert (Hu : users w' = users w).
    { change w' with (snd (result, w')). rewrite <- E. now rewrite users_processEmails. }
    apply (checkpointOf_updateLastChecked _ _ _ _ stored).
    unfold getUserByChatId in *. now rewrite Hu.
  - intros message Hf. split.
    + unfold processProvider. now rewrite Hf.
    + intro result. unfold sweepProvider.
      destruct (andb _ _); [|reflexivity].
      unfold processProvider. rewrite Hf. cbn [snd].
      apply checkpointOf_handleProviderFailure.
Qed.

Lemma checkpoint_advance_witness :
  checkpointOf "1001" gmail (snd (processProvider (mailboxEnv [invitation]) asha gmail
                                    sharedMailbox))
  = Some (Some 1700000001000) /\
  processProvider (outageEnv 1700000000000) asha gmail sharedMailbox
  = (Threw "invalid_grant", sharedMailbox).
Proof.
  split.
  - destruct (checkpoint_advance (mailboxEnv [invitation]) asha gmail sharedMailbox)
      as (Hok & _).
    destruct (Hok [invitation] asha eq_refl eq_refl) as (_ & Hcheck). exact Hcheck.
  - destruct (checkpoint_advance (outageEnv 1700000000000) asha gmail sharedMailbox)
      as (_ & Hthrow).
    destruct (Hthrow "invalid_grant" eq_refl) as (Hsame & _). exact Hsame.
Defined.

(** C8: when a sweep of a stored recipient fails, an outage notice is
    attempted if no notice was recorded for the recipient and provider or
    if at least 2 hours (7200000 ms) passed since the recorded one, and
    only then; the time of the notice is recorded only when the delivery
    call returned true; less than 2 hours after a recorded notice nothing
    is sent and the record stays; and this is what the user sweep runs
    when the fetch of an enabled provider throws. *)
Theorem failure_alert_cooldown env user p message w stored :
  getUserByChatId (telegramChatId user) w = Some stored ->
  let chat := telegramChatId user in
  let w' := handleProviderFailure env user p message w in
  let sent := sendAlertMessage env chat p in
  ((atProvider (lastFailureAlert stored) p = None \/
    exists last, atProvider (lastFailureAlert stored) p = Some last /\
                 7200000 <= clockAlertCheck env - last) ->
   trace w' = (trace w ++ [FailureAlert chat p sent])%list /\
   alertStampOf chat p w' =
     Some (if sent then Some (clockAlertStamp env)
           else atProvider (lastFailureAlert stored) p)) /\
  (forall last, atProvider (lastFailureAlert stored) p = Some last ->
                clockAlertCheck env - last < 7200000 ->
                trace w' = trace w /\ alertStampOf chat p w' = Some (Some last)) /\
  (forall result fetchError,
      enabled (atProvider (providers user) p) = true ->
      hasToken (atProvider (providers user) p) = true ->
      fetchEmails env p (refreshToken (atProvider (providers user) p))
        (getSinceTimestamp (clockSince env) user p) = Threw fetchError ->
      snd (sweepProvider env user p (result, w))
      = handleProviderFailure env user p fetchError w).
Proof.
  intros Hs chat w' sent. subst chat w' sent.
  assert (Hrec : getUserByChatId (telegramChatId user)
                   (recordProviderError (telegramChatId user) p message (clockError env) w)
                 = Some (setProviders stored
                           (setProvider (providers stored) p
                              {| enabled := enabled (atProvider (providers stored) p);
                                 refreshToken := refreshToken (atProvider (providers stored) p);
                                 lastError := Some message;
                                 lastErrorAt := Some (clockError env) |}))).
  { unfold recordProviderError. rewrite getUserByChatId_updateOne by reflexivity.
    now rewrite Hs. }
  unfold handleProviderFailure, canSendFailureAlert, alertStampOf, sendFailureAlert.
  rewrite Hrec. cbn [lastFailureAlert setProviders].
  split; [|split].
  - intros Hdue.
    assert (Hcan : match atProvider (lastFailureAlert stored) p with
                   | Some lastAlert =>
                       clockAlertCheck env - lastAlert >=? FAILURE_ALERT_COOLDOWN_MS
                   | None => true
                   end = true).
    { destruct Hdue as [-> | (last & -> & Hl)]; [reflexivity|].
      unfold FAILURE_ALERT_COOLDOWN_MS. apply Z.geb_le. lia. }
    rewrite Hcan.
    destruct (sendAlertMessage env (telegramChatId user) p).
    + split; [reflexivity|].
      unfold recordFailureAlert. rewrite getUserByChatId_updateOne by reflexivity.
      rewrite getUserByChatId_emit, Hrec.
      cbn [option_map lastFailureAlert setLastFailureAlert].
      destruct p; reflexivity.
    + split; [reflexivity|]. rewrite getUserByChatId_emit, Hrec. reflexivity.
  - intros last Hl Hlt. rewrite Hl.
    replace (clockAlertCheck env - last >=? FAILURE_ALERT_COOLDOWN_MS) with false.
    + split; [reflexivity|]. rewrite Hrec. cbn [option_map lastFailureAlert setProviders].
      now rewrite Hl.
    + symmetry. unfold FAILURE_ALERT_COOLDOWN_MS.
      destruct (Z.geb_spec (clockAlertCheck env - last) (2 * 60 * 60 * 1000));
        [lia | reflexivity].
  - intros result fetchError He Ht Hf. unfold sweepProvider. rewrite He, Ht. cbn [andb].
    unfold processProvider. rewrite Hf. reflexivity.
Qed.

Lemma failure_alert_cooldown_witness :
  trace (handleProviderFailure (outageEnv 1700000000000) asha gmail "invalid_grant"
           sharedMailbox)
  = [FailureAlert "1001" gmail true] /\
  let alerted := handleProviderFailure (outageEnv 1700000000000) asha gmail "invalid_grant"
                   sharedMailbox in
  trace (handleProviderFailure (outageEnv 1700003600000) asha gmail "invalid_grant" alerted)
  = trace alerted.
Proof.
  split.
  - destruct (failure_alert_cooldown (outageEnv 1700000000000) asha gmail "invalid_grant"
                sharedMailbox asha eq_refl) as (Hdue & _).
    destruct (Hdue (or_introl eq_refl)) as (Htrace & _). exact Htrace.
  - intro alerted.
    destruct (failure_alert_cooldown (outageEnv 1700003600000) asha gmail "invalid_grant"
                alerted
                (setLastFailureAlert
                   (setProviders asha
                      {| at_gmail := {| enabled := true; refreshToken := Some "token-shared";
                                        lastError := Some "invalid_grant";
                                        lastErrorAt := Some 1700000000000 |};
                         at_outlook := unconnected |})
                   {| at_gmail := Some 1700000000000; at_outlook := None |})
                eq_refl) as (_ & Hquiet & _).
    destruct (Hquiet 1700000000000 eq_refl eq_refl) as (Htrace & _). exact Htrace.
Defined.

(** ** The run *)

Lemma processUserEmails_returns env user w :
  exists result w', processUserEmails env user w = (Returned result, w').
Proof.
  unfold processUserEmails. destruct (negb _); [eexists _, _; reflexivity|].
  destruct (sweepProvider env user outlook _) as [r w']. eexists _, _; reflexivity.
Qed.

Lemma usersProcessed_fold env us st :
  usersProcessed (fst (fold_left (cronStep env) us st))
  = usersProcessed (fst st) + Z.of_nat (List.length us).
Proof.
  revert st. induction us as [|u us IH]; intro st.
  - cbn. lia.
  - cbn [fold_left]. rewrite IH. destruct st as [summary w]. unfold cronStep.
    destruct (processUserEmails_returns env u w) as (r & w' & ->).
    cbn [fst usersProcessed List.length]. lia.
Qed.

(** A recipient who paused the notifications is active and has a provider
    enabled: the run goes over it and counts it as processed. *)
Lemma paused_user_is_selected :
  In pausedUser (getActiveUsers pausedWorld) /\
  notificationsEnabled (settings pausedUser) = false /\
  usersProcessed (fst (cronCheck (mailboxEnv []) pausedWorld)) = 1 /\
  ~ selectionAsStated pausedWorld pausedUser.
Proof.
  split; [now left|]. split; [reflexivity|]. split; [reflexivity|].
  intros [H _]. assert (Hin : In pausedUser (getActiveUsers pausedWorld)) by now left.
  destruct (H Hin) as (_ & _ & _ & Hn). discriminate Hn.
Qed.

(** C9 (amended): the users the run goes over are exactly the stored users
    that are active (isActive) and have at least one provider enabled,
    whether or not their notifications are enabled; each of them is
    counted in usersProcessed; and the sweep of a user whose notifications
    are disabled returns the empty result and touches nothing. *)
Theorem active_recipient_selection :
  (forall w u, In u (getActiveUsers w) <->
               In u (users w) /\ isActive u = true /\
               orb (enabled (at_gmail (providers u)))
                   (enabled (at_outlook (providers u))) = true) /\
  (forall env w,
      usersProcessed (fst (cronCheck env w)) = Z.of_nat (List.length (getActiveUsers w))) /\
  (forall env user w,
      notificationsEnabled (settings user) = false ->
      processUserEmails env user w = (Returned (emptyResult user), w)).
Proof.
  split; [|split].
  - intros w u. unfold getActiveUsers. rewrite filter_In, andb_true_iff. tauto.
  - intros env w. unfold cronCheck. rewrite usersProcessed_fold. reflexivity.
  - intros env user w H. unfold processUserEmails. rewrite H. reflexivity.
Qed.

Lemma active_recipient_selection_witness :
  processUserEmails (mailboxEnv [invitation]) pausedUser pausedWorld
  = (Returned (emptyResult pausedUser), pausedWorld).
Proof.
  destruct active_recipient_selection as (_ & _ & Hpaused).
  apply Hpaused. reflexivity.
Defined.

(** ** At most once *)

(** Once the ledger holds the notification of a recipient, a sweep
    neither classifies nor delivers the message again. *)
Lemma notified_stays_silent env user p mid fetched st :
  isEmailNotified (telegramChatId user) p mid (snd st) = true ->
  let st' := fold_left (processEmail env user p) fetched st in
  isEmailNotified (telegramChatId user) p mid (snd st') = true /\
  filter (about (telegramChatId user) mid) (trace (snd st'))
  = filter (about (telegramChatId user) mid) (trace (snd st)).
Proof.
  revert st. induction fetched as [|e es IH]; intros st H; cbn [fold_left].
  - split; [exact H | reflexivity].
  - pose proof (isEmailNotified_processEmail _ _ _ env user p st e H) as H'.
    destruct (IH _ H') as [IH1 IH2]. split; [exact IH1|].
    cbv zeta in IH2. rewrite IH2.
    destruct (processEmail_trace env user p st e) as (evs & -> & Hskip & _ & Hevs).
    rewrite filter_app.
    destruct (String.eqb (messageId e) mid) eqn:E.
    + apply String.eqb_eq in E. subst mid. rewrite (Hskip H). cbn. now rewrite app_nil_r.
    + assert (Hnone : filter (about (telegramChatId user) mid) evs = []).
      { clear -Hevs E. induction evs as [|ev evs IHe]; [reflexivity|].
        cbn [filter]. destruct (Hevs ev (or_introl eq_refl)) as [-> | [sent ->]];
          cbn [about]; rewrite E, ?andb_false_r; apply IHe; intros; apply Hevs; now right. }
      rewrite Hnone. now rewrite app_nil_r.
Qed.

(** For the recipient the record belongs to, the notification is sent at
    most once: after a delivery that succeeded the ledger answers yes, and
    a later sweep whose fetch holds the message again adds no event about
    it, whatever else it fetches. *)
Lemma owner_notified_at_most_once env1 env2 user email result1 result2 w classification
      category important fetched2 :
  ownsRecord user email w ->
  isEmailNotified (telegramChatId user) (provider email) (messageId email) w = false ->
  classifier env1 email = Returned classification ->
  getProp classification "category" = Returned category ->
  getProp classification "important" = Returned important ->
  truthy important = true ->
  categoryEnabled user category = true ->
  sendEmailNotification env1 (telegramChatId user) email classification = true ->
  let w1 := snd (processEmail env1 user (provider email) (result1, w) email) in
  let w2 := snd (fold_left (processEmail env2 user (provider email)) fetched2 (result2, w1)) in
  isEmailNotified (telegramChatId user) (provider email) (messageId email) w1 = true /\
  filter (about (telegramChatId user) (messageId email)) (trace w2)
  = filter (about (telegramChatId user) (messageId email)) (trace w1).
Proof.
  intros Hown Hn Hc Hcat Himp Ht He Hs w1 w2.
  assert (H1 : isEmailNotified (telegramChatId user) (provider email) (messageId email) w1
               = true).
  { subst w1. unfold processEmail. rewrite Hn, Hc, Hcat, Himp, Ht, He, Hs. cbn [andb snd].
    apply isEmailNotified_saveEmail_owner.
    intros d Hin. apply Hown. exact Hin. }
  split; [exact H1|].
  subst w2.
  exact (proj2 (notified_stays_silent env2 user (provider email) (messageId email) fetched2
                  (result2, w1) H1)).
Qed.

(** C1: two recipients connected the same mailbox, so both fetch the
    message gmail/18c2f. In the first run both are notified; the record is
    inserted for the first recipient and the delivery to the second only
    updates that record, which stays the first recipient's. The ledger
    check of the second recipient therefore still answers no, and the
    second run classifies the message again and delivers a second
    notification to the second recipient; there is no record of theirs. *)
Theorem shared_mailbox_notified_twice :
  deliveredTo "1002" gmail "18c2f" (trace afterFirstRun) = 1%nat /\
  isEmailNotified "1002" gmail "18c2f" afterFirstRun = false /\
  deliveredTo "1002" gmail "18c2f" (trace afterSecondRun) = 2%nat /\
  deliveredTo "1001" gmail "18c2f" (trace afterSecondRun) = 1%nat /\
  map (fun d => (doc_telegramChatId d, doc_uniqueId d, doc_notified d))
      (emails afterSecondRun)
  = [("1001", "gmail_18c2f", true)].
Proof. vm_compute. repeat split. Qed.

(** * Further properties *)

(** ** The classifier *)

Section ClassifierFacts.
Variable toLowerCase : string -> string.
Variable JSON_parse : string -> option JsVal.

Lemma band_is_not_keyword (r : KeywordResult) :
  3 < kr_score r < 8 ->
  orb (kr_score r >=? AI_THRESHOLD_HIGH) (kr_score r <=? AI_THRESHOLD_LOW) = false.
Proof.
  intros [H1 H2]. unfold AI_THRESHOLD_HIGH, AI_THRESHOLD_LOW.
  apply orb_false_iff. split.
  - destruct (Z.geb_spec (kr_score r) 8); [lia | reflexivity].
  - apply Z.leb_gt. lia.
Qed.

(** X1: When the keyword score lies strictly between the two thresholds (3 and
    8), [classifyEmail] consults the second tier: without an API key, when
    the call to the model throws, when the model answers with no text, or
    when no frame of the stack is left, the answer is the keyword answer
    with the method "keyword_fallback"; when the model answers with a text
    that is not empty, the answer is what [parseAIResponse] makes of it,
    with its own properties and the method "ai". *)
Theorem classifyEmail_band key gemini room email :
  let r := keywordClassify toLowerCase email in
  3 < kr_score r < 8 ->
  (key = false \/ (exists e, gemini email = Threw e) \/
   gemini email = Returned None \/ gemini email = Returned (Some EmptyString) \/
   room = 0%nat ->
   classifyEmail toLowerCase JSON_parse key gemini room email
   = Returned (keywordAnswer r "keyword_fallback")) /\
  (forall c rest room',
     key = true -> gemini email = Returned (Some (String c rest)) -> room = S room' ->
     exists v, parseAIResponse JSON_parse room (String c rest) = Returned v /\
               classifyEmail toLowerCase JSON_parse key gemini room email
               = Returned (JObj (assignProp (ownProps v) "method" (JStr "ai")))).
Proof.
  intros r Hband. subst r. unfold classifyEmail.
  rewrite (band_is_not_keyword _ Hband). split.
  - intros H. destruct key; [|reflexivity].
    unfold aiClassify. cbn [negb].
    destruct H as [H | [(e & H) | [H | [H | H]]]].
    + discriminate H.
    + rewrite H. reflexivity.
    + rewrite H. reflexivity.
    + rewrite H. reflexivity.
    + subst room. destruct (gemini email) as [[[|c t]|]|]; reflexivity.
  - intros c rest room' -> Hg ->. unfold aiClassify. cbn [negb]. rewrite Hg. cbn [bind].
    destruct (parseAIResponse_returns JSON_parse room' (String c rest)) as (v & Hv & _).
    exists v. split; [exact Hv|]. rewrite Hv. reflexivity.
Qed.

Lemma kr_score_nonneg email : 0 <= kr_score (keywordClassify toLowerCase email).
Proof.
  pose proof (winner_cases toLowerCase email) as H. cbv zeta in H.
  destruct H as [H | [H | [H | [H | H]]]]; lia.
Qed.

Lemma categoryName_isCategoryName c : isCategoryName (JStr (categoryName c)) = true.
Proof. destruct c; reflexivity. Qed.

Lemma keywordConfidence_range (r : KeywordResult) :
  0 <= kr_score r -> badConfidence (JNum (keywordConfidence r)) = false.
Proof.
  intro H. unfold badConfidence, keywordConfidence.
  apply orb_false_iff. split; apply negb_false_iff; apply Qle_bool_iff.
  - apply Q.min_glb; unfold Qle; cbn; lia.
  - apply Q.le_min_r.
Qed.

Lemma keywordAnswer_valid email method :
  let r := keywordClassify toLowerCase email in
  schemaValid (keywordAnswer r method) = true /\
  (0 <= keywordConfidence r <= 1)%Q.
Proof.
  intro r. pose proof (kr_score_nonneg email) as Hs. fold r in Hs.
  pose proof (keywordConfidence_range r Hs) as Hc.
  split.
  - unfold schemaValid, keywordAnswer. cbn [lookupProp String.eqb Ascii.eqb Bool.eqb].
    cbn [isBoolean isString]. rewrite categoryName_isCategoryName, Hc. reflexivity.
  - unfold badConfidence in Hc. apply orb_false_iff in Hc. destruct Hc as [H1 H2].
    apply negb_false_iff in H1, H2. apply Qle_bool_iff in H1, H2. split; assumption.
Qed.

(** X2: [classifyEmail] always returns, and an answer that does not carry the
    method "ai" is the keyword answer, with the method "keyword" or
    "keyword_fallback": it has a boolean [important], a category of the
    closed set, a string [reason], and a confidence between 0 and 1. *)
Theorem keyword_answers_are_valid key gemini room email :
  let r := keywordClassify toLowerCase email in
  exists v,
    classifyEmail toLowerCase JSON_parse key gemini room email = Returned v /\
    (lookupProp (ownProps v) "method" = JStr "ai" \/
     ((v = keywordAnswer r "keyword" \/ v = keywordAnswer r "keyword_fallback") /\
      schemaValid v = true /\ (0 <= keywordConfidence r <= 1)%Q)).
Proof.
  intro r.
  destruct (keywordAnswer_valid email "keyword") as [V1 C].
  destruct (keywordAnswer_valid email "keyword_fallback") as [V2 _].
  fold r in V1, V2, C.
  unfold classifyEmail. fold r.
  destruct (orb _ _).
  { eexists. split; [reflexivity|]. right. split; [now left|]. split; assumption. }
  assert (F : exists v,
             Returned (keywordAnswer r "keyword_fallback") = Returned v /\
             (lookupProp (ownProps v) "method" = JStr "ai" \/
              ((v = keywordAnswer r "keyword" \/ v = keywordAnswer r "keyword_fallback") /\
               schemaValid v = true /\ (0 <= keywordConfidence r <= 1)%Q))).
  { eexists. split; [reflexivity|]. right. split; [now right|]. split; assumption. }
  destruct key; [|exact F].
  destruct (aiClassify JSON_parse true gemini room email) as [ai|]; cbn [bind tryCatch];
    [|exact F].
  eexists. split; [reflexivity|]. left. cbn [ownProps]. apply lookup_assign_same.
Qed.

Lemma scoreCategory_explained email c :
  scoreCategory (scanText toLowerCase email) (senderBonusOf toLowerCase email)
    (negativeScoreOf (scanText toLowerCase email)) (keywordsOf c)
  = (spec_score toLowerCase email c,
     filter (Js.includes (scanText toLowerCase email)) (categoryKeywords c)).
Proof.
  rewrite <- scoreCategory_spec.
  unfold scoreCategory, categoryKeywords. rewrite !scoreTier_hits. cbn [fst snd].
  rewrite !filter_app. cbn [app]. now rewrite app_assoc.
Qed.

Lemma categoryScores_fold text b n entries st :
  categoryScores (categoryLoop text b n entries st)
  = (categoryScores st
     ++ map (fun entry => (fst entry, scoreCategory text b n (snd entry))) entries)%list.
Proof.
  unfold categoryLoop. revert st. induction entries as [|[c k] es IH]; intro st.
  - cbn. now rewrite app_nil_r.
  - cbn [fold_left map fst snd]. rewrite IH. unfold categoryStep.
    destruct (scoreCategory text b n k) as [s m].
    destruct (s >? maxScore st); cbn [categoryScores]; now rewrite <- app_assoc.
Qed.

Lemma keywordClassify_fields email :
  let text := scanText toLowerCase email in
  let st := categoryLoop text (senderBonusOf toLowerCase email) (negativeScoreOf text)
              KEYWORD_SCORES
              {| categoryScores := []; maxCategory := OTHER; maxScore := 0 |} in
  kr_categoryScores (keywordClassify toLowerCase email) = categoryScores st /\
  kr_reason (keywordClassify toLowerCase email) =
    match matchedKeywordsOf (categoryScores st)
            (kr_category (keywordClassify toLowerCase email)) with
    | [] => "No strong keyword matches"
    | m => "Matched keywords: " ++ String.concat ", " (firstn 3 m)
    end.
Proof.
  split; [reflexivity|].
  unfold keywordClassify. cbn [kr_reason kr_category].
  destruct (matchedKeywordsOf _ _); reflexivity.
Qed.

(** X3: The [categoryScores] of [keywordClassify] hold, for the four categories
    in the order of the table, the score of the category and the keywords
    of the category that the text includes, high tier first, then medium,
    then low; and [reason] lists the first three keywords found for the
    winning category, or says that none was found. *)
Theorem categoryScores_explained email :
  let r := keywordClassify toLowerCase email in
  let found := fun c => filter (Js.includes (scanText toLowerCase email)) (categoryKeywords c) in
  kr_categoryScores r =
    map (fun c => (c, (spec_score toLowerCase email c, found c)))
        [PLACEMENT_DRIVE; INTERVIEW; ASSESSMENT; SHORTLISTED] /\
  kr_reason r =
    match found (kr_category r) with
    | [] => "No strong keyword matches"
    | m => "Matched keywords: " ++ String.concat ", " (firstn 3 m)
    end.
Proof.
  intros r found.
  destruct (keywordClassify_fields email) as [Hs Hr]. cbv zeta in Hs, Hr.
  rewrite categoryScores_fold in Hs, Hr. cbn [categoryScores app] in Hs, Hr.
  rewrite keywordsOf_table in Hs, Hr. cbn [map fst snd] in Hs, Hr.
  rewrite !scoreCategory_explained in Hs, Hr.
  fold r in Hs, Hr. fold (found PLACEMENT_DRIVE) (found INTERVIEW) (found ASSESSMENT)
                         (found SHORTLISTED) in Hs, Hr.
  split; [exact Hs|].
  rewrite Hr. clear Hr Hs.
  destruct (kr_category r); cbn [matchedKeywordsOf Category_eqb]; reflexivity.
Qed.

End ClassifierFacts.

Lemma classifyEmail_band_witness :
  kr_score (keywordClassify Js.asciiLower uncertain) = 5 /\
  classifyEmail Js.asciiLower Json.parse false noBackend 64 uncertain
  = Returned (keywordAnswer (keywordClassify Js.asciiLower uncertain) "keyword_fallback").
Proof.
  split; [vm_compute; reflexivity|].
  destruct (classifyEmail_band Js.asciiLower Json.parse false noBackend 64 uncertain
              ltac:(vm_compute; split; reflexivity)) as [H _].
  apply H. left. reflexivity.
Defined.

Lemma upToLast_none c s :
  upToLast c s = None <-> ~ In c (list_ascii_of_string s).
Proof.
  induction s as [|a s IH]; cbn [upToLast list_ascii_of_string].
  - split; [intros _ [] | reflexivity].
  - destruct (upToLast c s) as [p|].
    + split; [discriminate|]. intro H. exfalso.
      assert (Hn : ~ In c (list_ascii_of_string s)) by (intro; apply H; now right).
      apply IH in Hn. discriminate Hn.
    + destruct (Ascii.eqb_spec a c) as [->|Hne].
      * split; [discriminate|]. intro H. exfalso. apply H. now left.
      * split; [|reflexivity]. intros _ [H | H]; [congruence|].
        now apply (proj1 IH eq_refl).
Qed.

Lemma upToLast_some c s p :
  upToLast c s = Some p ->
  exists q post, p = q ++ String c EmptyString /\ s = p ++ post /\
                 ~ In c (list_ascii_of_string post).
Proof.
  revert p. induction s as [|a s IH]; intros p; cbn [upToLast]; [discriminate|].
  destruct (upToLast c s) as [p'|] eqn:E.
  - intros [= <-]. destruct (IH p' eq_refl) as (q & post & -> & -> & Hn).
    exists (String a q), post. repeat split; assumption.
  - destruct (Ascii.eqb_spec a c) as [->|Hne]; [|discriminate].
    intros [= <-]. exists EmptyString, s. repeat split.
    now apply upToLast_none.
Qed.

Lemma upToLast_closed c q : upToLast c (q ++ String c EmptyString) = Some (q ++ String c EmptyString).
Proof.
  induction q as [|a q IH]; cbn [append upToLast].
  - now rewrite Ascii.eqb_refl.
  - now rewrite IH.
Qed.

(** What was extracted is extracted as itself. *)
Lemma matchJsonObject_fixed s m :
  matchJsonObject s = Some m -> matchJsonObject m = Some m.
Proof.
  revert m. induction s as [|a s IH]; intros m; cbn [matchJsonObject]; [discriminate|].
  destruct (Ascii.eqb_spec a "{"%char) as [->|Hne]; [|apply IH].
  destruct (upToLast "}"%char s) as [p|] eqn:E; [|discriminate].
  intros [= <-]. destruct (upToLast_some _ _ _ E) as (q & post & -> & _ & _).
  cbn [matchJsonObject Ascii.eqb Bool.eqb]. now rewrite upToLast_closed.
Qed.

(** X4: What the pattern [/\{[\s\S]*\}/] extracts runs from the first opening
    brace of the text to its last closing brace, and extracting from the
    extracted text gives the same text again. *)
Theorem matchJsonObject_shape s m :
  matchJsonObject s = Some m ->
  (exists pre mid post,
      s = pre ++ m ++ post /\ m = "{" ++ mid ++ "}" /\
      ~ In "{"%char (list_ascii_of_string pre) /\
      ~ In "}"%char (list_ascii_of_string post)) /\
  matchJsonObject m = Some m.
Proof.
  revert m. induction s as [|a s IH]; intros m; cbn [matchJsonObject]; [discriminate|].
  destruct (Ascii.eqb_spec a "{"%char) as [->|Hne].
  - destruct (upToLast "}"%char s) as [p|] eqn:E; [|discriminate].
    intros [= <-]. destruct (upToLast_some _ _ _ E) as (q & post & -> & -> & Hn).
    split.
    + exists EmptyString, q, post.
      split; [reflexivity|]. split; [reflexivity|]. split; [intros []|exact Hn].
    + cbn [matchJsonObject Ascii.eqb Bool.eqb]. now rewrite upToLast_closed.
  - intro H. destruct (IH m H) as ((pre & mid & post & -> & Hm & Hpre & Hpost) & Hfix).
    split; [|exact Hfix].
    exists (String a pre), mid, post.
    split; [reflexivity|]. split; [exact Hm|]. split; [|exact Hpost].
    intros [Heq | Hin]; [congruence | now apply Hpre].
Qed.

Lemma matchJsonObject_shape_witness :
  matchJsonObject wrappedAnswer = Some wrappedObject /\
  matchJsonObject wrappedObject = Some wrappedObject.
Proof.
  split; [vm_compute; reflexivity|].
  apply (matchJsonObject_shape wrappedAnswer wrappedObject). vm_compute. reflexivity.
Defined.

Lemma validatedProps_fields props :
  let v := validatedProps props in
  lookupProp v "important"
    = (if isBoolean (lookupProp props "important") then lookupProp props "important"
       else JBool false) /\
  lookupProp v "category"
    = (if isCategoryName (lookupProp props "category") then lookupProp props "category"
       else JStr "OTHER") /\
  lookupProp v "confidence"
    = (if badConfidence (lookupProp props "confidence") then JNum (1 # 2)
       else lookupProp props "confidence") /\
  lookupProp v "reason"
    = (if isString (lookupProp props "reason") then lookupProp props "reason"
       else JStr "AI classification") /\
  (forall k, k <> "important" -> k <> "category" -> k <> "confidence" -> k <> "reason" ->
             lookupProp v k = lookupProp props k) /\
  (schemaValid (JObj props) = true -> v = props).
Proof.
  intro v. subst v. unfold validatedProps.
  set (p1 := if isBoolean (lookupProp props "important") then props else _).
  set (p2 := if isCategoryName (lookupProp p1 "category") then p1 else _).
  set (p3 := if badConfidence (lookupProp p2 "confidence") then _ else p2).
  set (p4 := if isString (lookupProp p3 "reason") then p3 else _).
  assert (L1 : forall k, k <> "important" -> lookupProp p1 k = lookupProp props k).
  { intros k Hk. subst p1. destruct (isBoolean _); [reflexivity|].
    now apply lookup_assign_other. }
  assert (L2 : forall k, k <> "category" -> lookupProp p2 k = lookupProp p1 k).
  { intros k Hk. subst p2. destruct (isCategoryName _); [reflexivity|].
    now apply lookup_assign_other. }
  assert (L3 : forall k, k <> "confidence" -> lookupProp p3 k = lookupProp p2 k).
  { intros k Hk. subst p3. destruct (badConfidence _); [|reflexivity].
    now apply lookup_assign_other. }
  assert (L4 : forall k, k <> "reason" -> lookupProp p4 k = lookupProp p3 k).
  { intros k Hk. subst p4. destruct (isString _); [reflexivity|].
    now apply lookup_assign_other. }
  assert (S1 : lookupProp p1 "important"
               = if isBoolean (lookupProp props "important")
                 then lookupProp props "important" else JBool false).
  { subst p1. destruct (isBoolean _); [reflexivity | apply lookup_assign_same]. }
  assert (S2 : lookupProp p2 "category"
               = if isCategoryName (lookupProp p1 "category")
                 then lookupProp p1 "category" else JStr "OTHER").
  { subst p2. destruct (isCategoryName _); [reflexivity | apply lookup_assign_same]. }
  assert (S3 : lookupProp p3 "confidence"
               = if badConfidence (lookupProp p2 "confidence")
                 then JNum (1 # 2) else lookupProp p2 "confidence").
  { subst p3. destruct (badConfidence _); [apply lookup_assign_same | reflexivity]. }
  assert (S4 : lookupProp p4 "reason"
               = if isString (lookupProp p3 "reason")
                 then lookupProp p3 "reason" else JStr "AI classification").
  { subst p4. destruct (isString _); [reflexivity | apply lookup_assign_same]. }
  split; [|split; [|split; [|split; [|split]]]].
  - rewrite L4, L3, L2 by discriminate. exact S1.
  - rewrite L4, L3 by discriminate. rewrite S2. now rewrite L1 by discriminate.
  - rewrite L4 by discriminate. rewrite S3. now rewrite L2, L1 by discriminate.
  - rewrite S4. now rewrite L3, L2, L1 by discriminate.
  - intros k H1 H2 H3 H4. now rewrite L4, L3, L2, L1.
  - unfold schemaValid. intro H.
    apply andb_true_iff in H. destruct H as [Ha Hb].
    apply andb_true_iff in Ha. destruct Ha as [Hi Hc].
    apply andb_true_iff in Hb. destruct Hb as [Hconf Hr].
    apply negb_true_iff in Hconf.
    subst p4 p3 p2 p1. now rewrite Hi, Hc, Hconf, Hr.
Qed.

Section ParserFacts.
Variable JSON_parse : string -> option JsVal.

Lemma validateResponse_syntax_error text :
  JSON_parse text = None -> exists e, validateResponse JSON_parse text = Threw e.
Proof. intro H. unfold validateResponse. rewrite H. eexists; reflexivity. Qed.

Lemma parseAIResponse_frame stack text :
  parseAIResponse JSON_parse (S stack) text
  = tryCatch (validateResponse JSON_parse text)
      (fun _ => match matchJsonObject text with
                | Some jsonMatch =>
                    tryCatch (parseAIResponse JSON_parse stack jsonMatch)
                      (fun _ => Returned unparseable)
                | None => Returned unparseable
                end).
Proof. reflexivity. Qed.

(** A substring that was extracted and is no JSON is extracted as itself
    at every depth, down to the last frame. *)
Lemma parseAIResponse_self stack m e :
  validateResponse JSON_parse m = Threw e ->
  matchJsonObject m = Some m ->
  parseAIResponse JSON_parse (S stack) m = Returned unparseable.
Proof.
  intros He Hfix. induction stack as [|n IHn]; rewrite parseAIResponse_frame, He;
    cbn [tryCatch]; rewrite Hfix.
  - reflexivity.
  - rewrite IHn. reflexivity.
Qed.

(** X5: For a text that is no JSON but holds a brace-delimited part:
    when that part is no JSON either, [parseAIResponse] returns the fixed
    result for an answer that cannot be parsed, however deep the stack;
    when that part is a JSON object, it returns the object with its fields
    repaired, given two frames of the stack, and the fixed result with one. *)
Theorem parseAIResponse_two_stage text m :
  JSON_parse text = None ->
  matchJsonObject text = Some m ->
  (JSON_parse m = None ->
   forall stack, parseAIResponse JSON_parse (S stack) text = Returned unparseable) /\
  (forall props,
     JSON_parse m = Some (JObj props) ->
     parseAIResponse JSON_parse 1 text = Returned unparseable /\
     forall stack,
       parseAIResponse JSON_parse (S (S stack)) text = Returned (JObj (validatedProps props))).
Proof.
  intros Ht Hm. destruct (validateResponse_syntax_error _ Ht) as (e & He).
  pose proof (matchJsonObject_fixed _ _ Hm) as Hfix.
  split.
  - intros Hmn stack. destruct (validateResponse_syntax_error _ Hmn) as (e' & He').
    rewrite parseAIResponse_frame, He. cbn [tryCatch]. rewrite Hm.
    destruct stack as [|stack]; [reflexivity|].
    now rewrite (parseAIResponse_self stack m e' He' Hfix).
  - intros props Hp. split.
    + rewrite parseAIResponse_frame, He. cbn [tryCatch]. rewrite Hm. reflexivity.
    + intro stack.
      rewrite parseAIResponse_frame, He. cbn [tryCatch]. rewrite Hm.
      rewrite parseAIResponse_frame, (validateResponse_object _ _ _ Hp). reflexivity.
Qed.

(** X6: For a text that is a JSON object, [parseAIResponse] returns an object
    that passes the validation, keeps every property other than the four
    fields of the classification, keeps each of the four fields that was
    valid, and is the parsed object itself when all four were valid. *)
Theorem parseAIResponse_keeps_valid_fields text props stack :
  JSON_parse text = Some (JObj props) ->
  exists props',
    parseAIResponse JSON_parse (S stack) text = Returned (JObj props') /\
    schemaValid (JObj props') = true /\
    (forall k, k <> "important" -> k <> "category" -> k <> "confidence" -> k <> "reason" ->
               lookupProp props' k = lookupProp props k) /\
    (isBoolean (lookupProp props "important") = true ->
     lookupProp props' "important" = lookupProp props "important") /\
    (isCategoryName (lookupProp props "category") = true ->
     lookupProp props' "category" = lookupProp props "category") /\
    (badConfidence (lookupProp props "confidence") = false ->
     lookupProp props' "confidence" = lookupProp props "confidence") /\
    (isString (lookupProp props "reason") = true ->
     lookupProp props' "reason" = lookupProp props "reason") /\
    (schemaValid (JObj props) = true -> props' = props).
Proof.
  intro H. exists (validatedProps props).
  destruct (validatedProps_fields props) as (F1 & F2 & F3 & F4 & F5 & F6).
  split.
  { cbn [parseAIResponse]. now rewrite (validateResponse_object _ _ _ H). }
  split; [apply validatedProps_valid|].
  split; [exact F5|].
  split; [intro E; now rewrite F1, E|].
  split; [intro E; now rewrite F2, E|].
  split; [intro E; now rewrite F3, E|].
  split; [intro E; now rewrite F4, E|].
  exact F6.
Qed.

End ParserFacts.

Lemma parseAIResponse_two_stage_witness :
  Json.parse wrappedAnswer = None /\
  parseAIResponse Json.parse 64 wrappedAnswer
  = Returned (JObj (validatedProps [("important", JBool true);
                                    ("category", JStr "INTERVIEW")])).
Proof.
  split; [vm_compute; reflexivity|].
  destruct (parseAIResponse_two_stage Json.parse wrappedAnswer wrappedObject
              ltac:(vm_compute; reflexivity) ltac:(vm_compute; reflexivity)) as [_ H].
  apply (H [("important", JBool true); ("category", JStr "INTERVIEW")]
           ltac:(vm_compute; reflexivity)).
Defined.

Lemma parseAIResponse_keeps_valid_fields_witness :
  exists props',
    parseAIResponse Json.parse 64 eagerAnswer = Returned (JObj props') /\
    lookupProp props' "category" = JStr "ASSESSMENT" /\
    lookupProp props' "deadline" = JStr "Friday".
Proof.
  destruct (parseAIResponse_keeps_valid_fields Json.parse eagerAnswer
              [("important", JBool true); ("category", JStr "ASSESSMENT");
               ("confidence", JNum (7 # 1)); ("reason", JStr "coding test");
               ("deadline", JStr "Friday")] 63 ltac:(vm_compute; reflexivity))
    as (props' & E & _ & O & _ & C & _).
  exists props'. split; [exact E|]. split.
  - apply C. reflexivity.
  - apply O; discriminate.
Defined.

(** ** The books of a run *)

Lemma countEvents_app kind t1 t2 :
  countEvents kind (t1 ++ t2) = countEvents kind t1 + countEvents kind t2.
Proof. unfold countEvents. rewrite filter_app, length_app. lia. Qed.

Lemma countEvents_nonneg kind t : 0 <= countEvents kind t.
Proof. unfold countEvents. lia. Qed.

Lemma delivered_le_notification t : countEvents isDelivered t <= countEvents isNotification t.
Proof.
  unfold countEvents. induction t as [|ev t IH]; [reflexivity|].
  cbn [filter]. destruct ev as [e|c e [|]|c p b]; cbn [isDelivered isNotification List.length];
    lia.
Qed.

(** What one turn of the loop does to the counters and to the trace. *)
Lemma processEmail_account env user p result w email :
  exists evs,
    trace (snd (processEmail env user p (result, w) email)) = (trace w ++ evs)%list /\
    emailsScanned (fst (processEmail env user p (result, w) email)) = emailsScanned result /\
    importantFound (fst (processEmail env user p (result, w) email))
    = importantFound result + countEvents isNotification evs /\
    notificationsSent (fst (processEmail env user p (result, w) email))
    = notificationsSent result + countEvents isDelivered evs /\
    countEvents isNotification evs <= 1 /\
    countEvents isAlert evs = 0.
Proof.
  unfold processEmail.
  destruct (isEmailNotified _ _ _ w).
  { exists []. cbn. rewrite app_nil_r. repeat split; lia. }
  assert (H1 : exists evs,
             trace (emit (Classified email) w) = (trace w ++ evs)%list /\
             emailsScanned result = emailsScanned result /\
             importantFound result = importantFound result + countEvents isNotification evs /\
             notificationsSent result = notificationsSent result + countEvents isDelivered evs /\
             countEvents isNotification evs <= 1 /\ countEvents isAlert evs = 0).
  { exists [Classified email]. cbn. repeat split; lia. }
  destruct (classifier env email) as [c|]; [|exact H1].
  destruct (getProp c "category") as [cat|]; [|exact H1].
  destruct (getProp c "important") as [imp|]; [|exact H1].
  destruct (andb _ _); [|exact H1].
  exists [Classified email;
          EmailNotification (telegramChatId user) email
            (sendEmailNotification env (telegramChatId user) email c)].
  destruct (sendEmailNotification _ _ _ _);
    cbn [fst snd trace emit saveEmail withEmails emailsScanned importantFound
         notificationsSent foundImportant sentNotification];
    rewrite <- app_assoc; cbn; repeat split; lia.
Qed.

Lemma processEmails_account env user p fetched result w :
  exists evs,
    trace (snd (fold_left (processEmail env user p) fetched (result, w)))
    = (trace w ++ evs)%list /\
    emailsScanned (fst (fold_left (processEmail env user p) fetched (result, w)))
    = emailsScanned result /\
    importantFound (fst (fold_left (processEmail env user p) fetched (result, w)))
    = importantFound result + countEvents isNotification evs /\
    notificationsSent (fst (fold_left (processEmail env user p) fetched (result, w)))
    = notificationsSent result + countEvents isDelivered evs /\
    countEvents isNotification evs <= Z.of_nat (List.length fetched) /\
    countEvents isAlert evs = 0.
Proof.
  revert result w. induction fetched as [|e es IH]; intros result w.
  - exists []. cbn. rewrite app_nil_r. repeat split; lia.
  - cbn [fold_left].
    destruct (processEmail_account env user p result w e)
      as (evs1 & T1 & S1 & I1 & N1 & B1 & A1).
    destruct (processEmail env user p (result, w) e) as [r1 w1]. cbn [fst snd] in *.
    destruct (IH r1 w1) as (evs2 & T2 & S2 & I2 & N2 & B2 & A2).
    exists (evs1 ++ evs2)%list. rewrite T2, T1, S2, S1, I2, I1, N2, N1.
    rewrite !countEvents_app. cbn [List.length]. rewrite app_assoc.
    repeat split; lia.
Qed.

(** X7: When the fetch returns, [processProvider] returns, and its counters agree
    with what happened: [emailsScanned] is the number of messages fetched,
    [importantFound] the number of notifications attempted during the
    sweep, [notificationsSent] the number of those that were delivered,
    and 0 <= sent <= important <= scanned. *)
Theorem processProvider_counts env user p w fetched :
  fetchEmails env p (refreshToken (atProvider (providers user) p))
    (getSinceTimestamp (clockSince env) user p) = Returned fetched ->
  exists result w' evs,
    processProvider env user p w = (Returned result, w') /\
    trace w' = (trace w ++ evs)%list /\
    emailsScanned result = Z.of_nat (List.length fetched) /\
    importantFound result = countEvents isNotification evs /\
    notificationsSent result = countEvents isDelivered evs /\
    0 <= notificationsSent result <= importantFound result /\
    importantFound result <= emailsScanned result.
Proof.
  intro Hf. unfold processProvider. rewrite Hf.
  destruct (processEmails_account env user p fetched
              {| emailsScanned := Z.of_nat (List.length fetched); importantFound := 0;
                 notificationsSent := 0 |} w)
    as (evs & T & S & I & N & B & _).
  destruct (fold_left _ fetched _) as [result w1]. cbn [fst snd] in *.
  exists result, (updateLastChecked (telegramChatId user) p (clockChecked env) w1), evs.
  split; [reflexivity|]. split; [exact T|].
  pose proof (delivered_le_notification evs). pose proof (countEvents_nonneg isDelivered evs).
  cbn [emailsScanned importantFound notificationsSent] in *.
  repeat split; lia.
Qed.

Lemma processProvider_counts_witness :
  exists result w' evs,
    processProvider (mailboxEnv [invitation; greeting]) asha gmail sharedMailbox
    = (Returned result, w') /\
    trace w' = (trace sharedMailbox ++ evs)%list /\
    emailsScanned result = 2 /\
    importantFound result = countEvents isNotification evs /\
    notificationsSent result = countEvents isDelivered evs.
Proof.
  destruct (processProvider_counts (mailboxEnv [invitation; greeting]) asha gmail
              sharedMailbox [invitation; greeting] eq_refl)
    as (result & w' & evs & E & T & S & I & N & _).
  exists result, w', evs. repeat split; assumption.
Defined.

Lemma handleProviderFailure_account env user p message w :
  exists evs,
    trace (handleProviderFailure env user p message w) = (trace w ++ evs)%list /\
    countEvents isNotification evs = 0 /\ countEvents isDelivered evs = 0 /\
    countEvents isAlert evs <= 1.
Proof.
  unfold handleProviderFailure.
  destruct (canSendFailureAlert _ _ _ _).
  - exists [FailureAlert (telegramChatId user) p (sendFailureAlert env (telegramChatId user) p)].
    destruct (sendFailureAlert _ _ _); cbn; repeat split; lia.
  - exists []. cbn. rewrite app_nil_r. repeat split; lia.
Qed.

Lemma sweepProvider_account env user p result w :
  exists evs,
    trace (snd (sweepProvider env user p (result, w))) = (trace w ++ evs)%list /\
    name (fst (sweepProvider env user p (result, w))) = name result /\
    chatId (fst (sweepProvider env user p (result, w))) = chatId result /\
    userEmailsScanned result <= userEmailsScanned (fst (sweepProvider env user p (result, w))) /\
    userImportantFound (fst (sweepProvider env user p (result, w)))
    = userImportantFound result + countEvents isNotification evs /\
    userNotificationsSent (fst (sweepProvider env user p (result, w)))
    = userNotificationsSent result + countEvents isDelivered evs /\
    Z.of_nat (List.length (errors result)) + countEvents isAlert evs
    <= Z.of_nat (List.length (errors (fst (sweepProvider env user p (result, w))))) /\
    Z.of_nat (List.length (errors (fst (sweepProvider env user p (result, w)))))
    <= Z.of_nat (List.length (errors result)) + 1.
Proof.
  unfold sweepProvider.
  destruct (andb _ _).
  2:{ exists []. cbn. rewrite app_nil_r. repeat split; lia. }
  unfold processProvider.
  destruct (fetchEmails env p _ _) as [fetched|message].
  - destruct (processEmails_account env user p fetched
                {| emailsScanned := Z.of_nat (List.length fetched); importantFound := 0;
                   notificationsSent := 0 |} w)
      as (evs & T & S & I & N & B & A).
    destruct (fold_left _ fetched _) as [r1 w1]. cbn [fst snd] in *.
    exists evs. cbn [fst snd name chatId userEmailsScanned userImportantFound
                     userNotificationsSent errors trace updateLastChecked withUsers].
    cbn [emailsScanned importantFound notificationsSent] in *.
    rewrite T, S, I, N, A. repeat split; lia.
  - destruct (handleProviderFailure_account env user p message w) as (evs & T & N & D & A).
    exists evs. cbn [fst snd name chatId userEmailsScanned userImportantFound
                     userNotificationsSent errors].
    rewrite T, N, D, length_app. cbn [List.length]. repeat split; lia.
Qed.

Lemma processUserEmails_account env user w :
  exists result w' evs,
    processUserEmails env user w = (Returned result, w') /\
    trace w' = (trace w ++ evs)%list /\
    chatId result = telegramChatId user /\ name result = firstName user /\
    0 <= userEmailsScanned result /\
    userImportantFound result = countEvents isNotification evs /\
    userNotificationsSent result = countEvents isDelivered evs /\
    countEvents isAlert evs <= Z.of_nat (List.length (errors result)) /\
    (List.length (errors result) <= 2)%nat.
Proof.
  unfold processUserEmails.
  destruct (negb _).
  { exists (emptyResult user), w, []. cbn. rewrite app_nil_r. repeat split; lia. }
  destruct (sweepProvider_account env user gmail (emptyResult user) w)
    as (evs1 & T1 & Nm1 & C1 & S1 & I1 & N1 & E1 & L1).
  fold (emptyResult user).
  destruct (sweepProvider env user gmail (emptyResult user, w)) as [r1 w1].
  cbn [fst snd] in *.
  destruct (sweepProvider_account env user outlook r1 w1)
    as (evs2 & T2 & Nm2 & C2 & S2 & I2 & N2 & E2 & L2).
  destruct (sweepProvider env user outlook (r1, w1)) as [r2 w2]. cbn [fst snd] in *.
  exists r2, w2, (evs1 ++ evs2)%list.
  split; [reflexivity|].
  rewrite T2, T1, C2, C1, Nm2, Nm1, I2, I1, N2, N1, !countEvents_app, app_assoc.
  cbn [emptyResult chatId name userEmailsScanned userImportantFound userNotificationsSent
       errors List.length] in *.
  repeat split; lia.
Qed.

(** The loop of the run keeps the books: the totals are the sums of the
    rows, and the rows are what the trace shows. *)
Lemma cron_fold_account env us summary w :
  exists evs,
    let st := fold_left (cronStep env) us (summary, w) in
    trace (snd st) = (trace w ++ evs)%list /\
    usersProcessed (fst st) = usersProcessed summary + Z.of_nat (List.length us) /\
    (exists rows,
        userResults (fst st) = (userResults summary ++ rows)%list /\
        map chatId rows = map telegramChatId us /\
        totalEmailsScanned (fst st) = totalEmailsScanned summary + sumOf userEmailsScanned rows /\
        totalImportantFound (fst st)
        = totalImportantFound summary + sumOf userImportantFound rows /\
        totalNotificationsSent (fst st)
        = totalNotificationsSent summary + sumOf userNotificationsSent rows /\
        failures (fst st)
        = failures summary + sumOf (fun r => Z.of_nat (List.length (errors r))) rows) /\
    totalImportantFound (fst st) = totalImportantFound summary + countEvents isNotification evs /\
    totalNotificationsSent (fst st)
    = totalNotificationsSent summary + countEvents isDelivered evs /\
    failures summary + countEvents isAlert evs <= failures (fst st) /\
    failures (fst st) <= failures summary + 2 * Z.of_nat (List.length us).
Proof.
  revert summary w. induction us as [|u us IH]; intros summary w.
  - exists []. cbn. rewrite app_nil_r. repeat split; try lia.
    exists []. cbn. rewrite app_nil_r. repeat split; lia.
  - cbn [fold_left].
    destruct (processUserEmails_account env u w)
      as (r & w1 & evs1 & P & T1 & C1 & _ & S1 & I1 & N1 & A1 & L1).
    assert (E : exists s, cronStep env (summary, w) u = (s, w1) /\
                s = {| usersProcessed := usersProcessed summary + 1;
                       totalEmailsScanned := totalEmailsScanned summary + userEmailsScanned r;
                       totalImportantFound := totalImportantFound summary + userImportantFound r;
                       totalNotificationsSent :=
                         totalNotificationsSent summary + userNotificationsSent r;
                       failures := failures summary + Z.of_nat (List.length (errors r));
                       userResults := (userResults summary ++ [r])%list |}).
    { eexists. unfold cronStep. rewrite P. split; reflexivity. }
    destruct E as (s & -> & ->).
    match goal with |- context [fold_left _ us (?s, w1)] => destruct (IH s w1) as (evs2 & H) end.
    cbv zeta in H. destruct H as (T2 & U2 & (rows & R2 & M2 & ES & IF & NS & FS) & I2 & N2 & A2 & L2).
    cbn [usersProcessed totalEmailsScanned totalImportantFound totalNotificationsSent
         failures userResults] in *.
    exists (evs1 ++ evs2)%list. cbv zeta.
    rewrite T2, T1, U2, I2, N2, !countEvents_app, app_assoc. cbn [List.length].
    split; [reflexivity|]. split; [lia|]. split.
    + exists (r :: rows). rewrite R2, <- app_assoc. cbn [app map sumOf fold_right].
      fold (sumOf userEmailsScanned rows) (sumOf userImportantFound rows)
           (sumOf userNotificationsSent rows)
           (sumOf (fun r => Z.of_nat (List.length (errors r))) rows).
      rewrite M2, C1. repeat split; lia.
    + repeat split; lia.
Qed.

(** X8: The summary of a run has one row for each active user, in the order
    the users were read; [usersProcessed] is their number, each total is the
    sum of that column over the rows, [failures] is the number of error
    texts in the rows, and there are at most two failures for a user. *)
Theorem cronCheck_summary_is_sum_of_rows env w :
  let summary := fst (cronCheck env w) in
  map chatId (userResults summary) = map telegramChatId (getActiveUsers w) /\
  usersProcessed summary = Z.of_nat (List.length (getActiveUsers w)) /\
  totalEmailsScanned summary = sumOf userEmailsScanned (userResults summary) /\
  totalImportantFound summary = sumOf userImportantFound (userResults summary) /\
  totalNotificationsSent summary = sumOf userNotificationsSent (userResults summary) /\
  failures summary
  = sumOf (fun r => Z.of_nat (List.length (errors r))) (userResults summary) /\
  failures summary <= 2 * usersProcessed summary.
Proof.
  cbv zeta. unfold cronCheck.
  match goal with |- context [fold_left _ ?us (?s, w)] =>
    destruct (cron_fold_account env us s w) as (evs & H) end.
  cbv zeta in H. destruct H as (_ & U & (rows & R & M & ES & IF & NS & FS) & _ & _ & _ & L).
  cbn [usersProcessed totalEmailsScanned totalImportantFound totalNotificationsSent
       failures userResults app] in *.
  rewrite R, M, U, ES, IF, NS, FS. repeat split; lia.
Qed.

(** X9: The totals of a run agree with what the run did: a run only appends to
    the trace, [totalImportantFound] is the number of notifications it
    attempted, [totalNotificationsSent] the number it delivered, and it sent
    no more outage notices than it counts failures. *)
Theorem cronCheck_summary_matches_trace env w :
  exists evs,
    trace (snd (cronCheck env w)) = (trace w ++ evs)%list /\
    totalImportantFound (fst (cronCheck env w)) = countEvents isNotification evs /\
    totalNotificationsSent (fst (cronCheck env w)) = countEvents isDelivered evs /\
    countEvents isAlert evs <= failures (fst (cronCheck env w)) /\
    0 <= totalNotificationsSent (fst (cronCheck env w))
      <= totalImportantFound (fst (cronCheck env w)).
Proof.
  unfold cronCheck.
  match goal with |- context [fold_left _ ?us (?s, w)] =>
    destruct (cron_fold_account env us s w) as (evs & H) end.
  cbv zeta in H. destruct H as (T & _ & _ & I & N & A & _).
  cbn [totalImportantFound totalNotificationsSent failures] in *.
  exists evs. rewrite T, I, N.
  pose proof (delivered_le_notification evs). pose proof (countEvents_nonneg isDelivered evs).
  repeat split; lia.
Qed.

(** ** What a run may send *)

Lemma processEmail_events env user p st email :
  exists evs,
    trace (snd (processEmail env user p st email)) = (trace (snd st) ++ evs)%list /\
    Forall (emailEvent env user email) evs.
Proof.
  destruct st as [result w]. unfold processEmail.
  destruct (isEmailNotified _ _ _ _).
  { exists []. cbn. rewrite app_nil_r. auto. }
  destruct (classifier env email) as [classification|] eqn:C.
  2:{ exists [Classified email]. cbn. split; [reflexivity|]. repeat constructor. }
  destruct (getProp classification "category") as [category|] eqn:G.
  2:{ exists [Classified email]. cbn. split; [reflexivity|]. repeat constructor. }
  destruct (getProp classification "important") as [important|] eqn:I.
  2:{ exists [Classified email]. cbn. split; [reflexivity|]. repeat constructor. }
  destruct (andb _ _) eqn:B.
  2:{ exists [Classified email]. cbn. split; [reflexivity|]. repeat constructor. }
  apply andb_true_iff in B. destruct B as [B1 B2].
  exists [Classified email;
          EmailNotification (telegramChatId user) email
            (sendEmailNotification env (telegramChatId user) email classification)].
  split.
  - destruct (sendEmailNotification _ _ _ _); cbn; rewrite <- app_assoc; reflexivity.
  - constructor; [reflexivity|]. constructor; [|constructor].
    cbn. split; [reflexivity|]. split; [reflexivity|].
    exists classification, category, important. repeat split; assumption.
Qed.

Lemma processEmails_events env user p fetched st :
  exists evs,
    trace (snd (fold_left (processEmail env user p) fetched st)) = (trace (snd st) ++ evs)%list /\
    Forall (fun ev => exists email, In email fetched /\ emailEvent env user email ev) evs.
Proof.
  revert st. induction fetched as [|email fetched IH]; intros st.
  - exists []. cbn. rewrite app_nil_r. auto.
  - cbn [fold_left].
    destruct (processEmail_events env user p st email) as (evs1 & T1 & F1).
    destruct (IH (processEmail env user p st email)) as (evs2 & T2 & F2).
    exists (evs1 ++ evs2)%list. rewrite T2, T1, app_assoc. split; [reflexivity|].
    apply Forall_app. split.
    + eapply Forall_impl; [|exact F1]. intros ev H. exists email. split; [left; reflexivity|exact H].
    + eapply Forall_impl; [|exact F2]. intros ev (e & H1 & H2). exists e. split; [right|]; assumption.
Qed.

Lemma sweepProvider_events env user p result w :
  notificationsEnabled (settings user) = true ->
  exists evs,
    trace (snd (sweepProvider env user p (result, w))) = (trace w ++ evs)%list /\
    Forall (entitled env user) evs.
Proof.
  intros On. unfold sweepProvider.
  destruct (andb _ _) eqn:B.
  2:{ exists []. cbn. rewrite app_nil_r. auto. }
  apply andb_true_iff in B. destruct B as [B1 B2].
  unfold processProvider.
  destruct (fetchEmails env p _ _) as [fetched|message] eqn:F.
  - destruct (processEmails_events env user p fetched
                ({| emailsScanned := Z.of_nat (List.length fetched); importantFound := 0;
                    notificationsSent := 0 |}, w)) as (evs & T & A).
    destruct (fold_left _ fetched _) as [r1 w1]. cbn [fst snd] in *.
    exists evs. split; [exact T|].
    eapply Forall_impl; [|exact A]. intros ev (email & I & E).
    split; [exact On|]. exists p. split; [exact B1|]. split; [exact B2|].
    cbv zeta. rewrite F.
    destruct ev as [e|c e s|c q s]; [| |destruct E]; exists fetched, email; auto.
  - cbn [snd]. unfold handleProviderFailure.
    destruct (canSendFailureAlert _ _ _ _).
    + exists [FailureAlert (telegramChatId user) p (sendFailureAlert env (telegramChatId user) p)].
      split; [destruct (sendFailureAlert _ _ _); reflexivity|].
      constructor; [|constructor]. split; [exact On|]. exists p.
      split; [exact B1|]. split; [exact B2|]. cbv zeta. rewrite F.
      repeat split. exists message. reflexivity.
    + exists []. cbn. rewrite app_nil_r. auto.
Qed.

Lemma processUserEmails_events env user w :
  exists evs,
    trace (snd (processUserEmails env user w)) = (trace w ++ evs)%list /\
    Forall (entitled env user) evs.
Proof.
  unfold processUserEmails.
  destruct (notificationsEnabled (settings user)) eqn:On; cbn [negb].
  2:{ exists []. cbn. rewrite app_nil_r. auto. }
  destruct (sweepProvider_events env user gmail (emptyResult user) w On) as (evs1 & T1 & F1).
  fold (emptyResult user).
  destruct (sweepProvider env user gmail (emptyResult user, w)) as [r1 w1]. cbn [snd] in T1.
  destruct (sweepProvider_events env user outlook r1 w1 On) as (evs2 & T2 & F2).
  destruct (sweepProvider env user outlook (r1, w1)) as [r2 w2]. cbn [snd] in *.
  exists (evs1 ++ evs2)%list. rewrite T2, T1, app_assoc. split; [reflexivity|].
  apply Forall_app. auto.
Qed.

Lemma cron_fold_events env us st :
  exists evs,
    trace (snd (fold_left (cronStep env) us st)) = (trace (snd st) ++ evs)%list /\
    Forall (fun ev => exists u, In u us /\ entitled env u ev) evs.
Proof.
  revert st. induction us as [|u us IH]; intros st.
  - exists []. cbn. rewrite app_nil_r. auto.
  - cbn [fold_left].
    assert (S1 : exists evs, trace (snd (cronStep env st u)) = (trace (snd st) ++ evs)%list /\
                             Forall (entitled env u) evs).
    { destruct st as [summary w]. unfold cronStep.
      destruct (processUserEmails_events env u w) as (evs & T & F).
      destruct (processUserEmails env u w) as [[r|e] w1]; exists evs; auto. }
    destruct S1 as (evs1 & T1 & F1).
    destruct (IH (cronStep env st u)) as (evs2 & T2 & F2).
    exists (evs1 ++ evs2)%list. rewrite T2, T1, app_assoc. split; [reflexivity|].
    apply Forall_app. split.
    + eapply Forall_impl; [|exact F1]. intros ev H. exists u. split; [left; reflexivity|exact H].
    + eapply Forall_impl; [|exact F2]. intros ev (u' & H1 & H2). exists u'. split; [right|]; assumption.
Qed.

(** X10: Every event of a run is justified by an active user whose notifications
    are enabled and by one of the user's providers that is enabled and has
    a token: a classification or a notification concerns a message that the
    fetch for that user and provider returned, a notification moreover goes
    to that user for a message the classifier called important in a category
    the user has not disabled, and an outage notice goes to that user for
    that provider when its fetch threw. *)
Theorem cronCheck_events_entitled env w :
  exists evs,
    trace (snd (cronCheck env w)) = (trace w ++ evs)%list /\
    Forall (fun ev => exists u, In u (getActiveUsers w) /\ entitled env u ev) evs.
Proof. unfold cronCheck. apply cron_fold_events. Qed.

Lemma processEmail_attempts env user p st email :
  wanted env user email ->
  exists evs,
    trace (snd (processEmail env user p st email)) = (trace (snd st) ++ evs)%list /\
    (isEmailNotified (telegramChatId user) p (messageId email) (snd st) = true \/
     exists sent, In (EmailNotification (telegramChatId user) email sent) evs).
Proof.
  intros (c & cat & imp & C & G & I & T & E).
  destruct st as [result w]. unfold processEmail. cbn [snd].
  destruct (isEmailNotified _ _ _ w).
  { exists []. cbn. rewrite app_nil_r. auto. }
  rewrite C, G, I, T, E. cbn [andb].
  exists [Classified email;
          EmailNotification (telegramChatId user) email
            (sendEmailNotification env (telegramChatId user) email c)].
  split.
  - destruct (sendEmailNotification _ _ _ _); cbn; rewrite <- app_assoc; reflexivity.
  - right. eexists. right. left. reflexivity.
Qed.

Lemma processEmails_attempts env user p fetched st :
  exists evs,
    trace (snd (fold_left (processEmail env user p) fetched st)) = (trace (snd st) ++ evs)%list /\
    forall email,
      In email fetched -> wanted env user email ->
      isEmailNotified (telegramChatId user) p (messageId email)
        (snd (fold_left (processEmail env user p) fetched st)) = true \/
      exists sent, In (EmailNotification (telegramChatId user) email sent) evs.
Proof.
  revert st. induction fetched as [|e es IH]; intros st.
  - exists []. cbn. rewrite app_nil_r. split; [reflexivity|]. intros email [].
  - cbn [fold_left].
    destruct (processEmail_events env user p st e) as (evs1 & T1 & _).
    destruct (IH (processEmail env user p st e)) as (evs2 & T2 & H2).
    exists (evs1 ++ evs2)%list. rewrite T2, T1, app_assoc. split; [reflexivity|].
    intros email [<-|I] W.
    + destruct (processEmail_attempts env user p st e W) as (evs1' & T1' & [N|(sent & S)]).
      * left.
        apply (notified_stays_silent env user p (messageId e) es
                 (processEmail env user p st e)).
        apply isEmailNotified_processEmail. exact N.
      * right. exists sent. rewrite T1 in T1'. apply app_inv_head in T1'. subst evs1'.
        apply in_or_app. left. exact S.
    + destruct (H2 email I W) as [N|(sent & S)]; [left; exact N|].
      right. exists sent. apply in_or_app. right. exact S.
Qed.

(** X11: When the fetch returns, no fetched message that the classifier
    calls important in a category the user has not disabled is passed
    over: after the sweep it counts as notified to the recipient, or a
    notification of it was attempted during the sweep. *)
Theorem processProvider_skips_nothing env user p w fetched :
  fetchEmails env p (refreshToken (atProvider (providers user) p))
    (getSinceTimestamp (clockSince env) user p) = Returned fetched ->
  exists result w' evs,
    processProvider env user p w = (Returned result, w') /\
    trace w' = (trace w ++ evs)%list /\
    forall email,
      In email fetched -> wanted env user email ->
      isEmailNotified (telegramChatId user) p (messageId email) w' = true \/
      exists sent, In (EmailNotification (telegramChatId user) email sent) evs.
Proof.
  intros F. unfold processProvider. rewrite F.
  destruct (processEmails_attempts env user p fetched
              ({| emailsScanned := Z.of_nat (List.length fetched); importantFound := 0;
                  notificationsSent := 0 |}, w)) as (evs & T & H).
  destruct (fold_left _ fetched _) as [r1 w1]. cbn [snd] in *.
  exists r1, (updateLastChecked (telegramChatId user) p (clockChecked env) w1), evs.
  split; [reflexivity|]. split; [exact T|]. exact H.
Qed.

Lemma processProvider_skips_nothing_witness :
  exists result w' evs,
    processProvider (mailboxEnv [invitation; greeting]) asha gmail sharedMailbox
    = (Returned result, w') /\
    trace w' = (trace sharedMailbox ++ evs)%list /\
    (isEmailNotified "1001" gmail "18c2f" w' = true \/
     exists sent, In (EmailNotification "1001" invitation sent) evs).
Proof.
  destruct (processProvider_skips_nothing (mailboxEnv [invitation; greeting]) asha gmail
              sharedMailbox [invitation; greeting] eq_refl)
    as (result & w' & evs & E & T & H).
  exists result, w', evs. split; [exact E|]. split; [exact T|].
  apply (H invitation (or_introl eq_refl)).
  exists invitationClass, (JStr "INTERVIEW"), (JBool true).
  repeat split; vm_compute; reflexivity.
Defined.

(** ** What a run leaves alone *)

Section Effects.
Variable R : World -> World -> Prop.
Hypothesis R_refl : forall w, R w w.
Hypothesis R_trans : forall w1 w2 w3, R w1 w2 -> R w2 w3 -> R w1 w3.
Hypothesis R_emit : forall ev w, R w (emit ev w).
Hypothesis R_saveEmail : forall user email classification now w,
    R w (saveEmail user email classification now w).
Hypothesis R_updateLastChecked : forall chat p now w, R w (updateLastChecked chat p now w).
Hypothesis R_recordProviderError : forall chat p message now w,
    R w (recordProviderError chat p message now w).
Hypothesis R_recordFailureAlert : forall chat p now w, R w (recordFailureAlert chat p now w).

Lemma effects_processEmail env user p st email :
  R (snd st) (snd (processEmail env user p st email)).
Proof.
  destruct st as [result w]. unfold processEmail. cbn [snd].
  destruct (isEmailNotified _ _ _ _); [apply R_refl|].
  destruct (classifier env email) as [classification|]; [|apply R_emit].
  destruct (getProp classification "category") as [category|]; [|apply R_emit].
  destruct (getProp classification "important") as [important|]; [|apply R_emit].
  destruct (andb _ _); [|apply R_emit].
  destruct (sendEmailNotification _ _ _ _); cbn [snd].
  - eapply R_trans; [apply R_emit|]. eapply R_trans; [apply R_emit|]. apply R_saveEmail.
  - eapply R_trans; [apply R_emit|]. apply R_emit.
Qed.

Lemma effects_processEmails env user p fetched st :
  R (snd st) (snd (fold_left (processEmail env user p) fetched st)).
Proof.
  revert st. induction fetched as [|email fetched IH]; intros st; [apply R_refl|].
  cbn [fold_left]. eapply R_trans; [apply effects_processEmail|apply IH].
Qed.

Lemma effects_handleProviderFailure env user p message w :
  R w (handleProviderFailure env user p message w).
Proof.
  unfold handleProviderFailure.
  destruct (canSendFailureAlert _ _ _ _); [|apply R_recordProviderError].
  destruct (sendFailureAlert _ _ _).
  - eapply R_trans; [apply R_recordProviderError|].
    eapply R_trans; [apply R_emit|]. apply R_recordFailureAlert.
  - eapply R_trans; [apply R_recordProviderError|]. apply R_emit.
Qed.

Lemma effects_sweepProvider env user p st :
  R (snd st) (snd (sweepProvider env user p st)).
Proof.
  destruct st as [result w]. unfold sweepProvider. cbn [snd].
  destruct (andb _ _); [|apply R_refl].
  unfold processProvider.
  destruct (fetchEmails env p _ _) as [fetched|message].
  - pose proof (effects_processEmails env user p fetched
                  ({| emailsScanned := Z.of_nat (List.length fetched); importantFound := 0;
                      notificationsSent := 0 |}, w)) as H.
    destruct (fold_left _ fetched _) as [r1 w1]. cbn [snd] in *.
    eapply R_trans; [exact H|]. apply R_updateLastChecked.
  - cbn [snd]. apply effects_handleProviderFailure.
Qed.

Lemma effects_processUserEmails env user w :
  R w (snd (processUserEmails env user w)).
Proof.
  unfold processUserEmails. destruct (negb _); [apply R_refl|].
  fold (emptyResult user).
  pose proof (effects_sweepProvider env user gmail (emptyResult user, w)) as H1.
  pose proof (effects_sweepProvider env user outlook
                (sweepProvider env user gmail (emptyResult user, w))) as H2.
  destruct (sweepProvider env user outlook _) as [r2 w2]. cbn [snd] in *.
  eapply R_trans; eassumption.
Qed.

Lemma effects_cronSteps env us st :
  R (snd st) (snd (fold_left (cronStep env) us st)).
Proof.
  revert st. induction us as [|u us IH]; intros st; [apply R_refl|].
  cbn [fold_left]. eapply R_trans; [|apply IH].
  destruct st as [summary w]. unfold cronStep.
  pose proof (effects_processUserEmails env u w) as H.
  destruct (processUserEmails env u w) as [[r|e] w1]; exact H.
Qed.

Lemma effects_cronCheck env w : R w (snd (cronCheck env w)).
Proof. unfold cronCheck. apply (effects_cronSteps env (getActiveUsers w) (_, w)). Qed.

End Effects.

Lemma sameAccount_refl u : sameAccount u u.
Proof. unfold sameAccount. repeat split; reflexivity. Qed.

Lemma sameAccount_trans u1 u2 u3 : sameAccount u1 u2 -> sameAccount u2 u3 -> sameAccount u1 u3.
Proof.
  unfold sameAccount. intros (A1 & A2 & A3 & A4 & A5 & A6) (B1 & B2 & B3 & B4 & B5 & B6).
  repeat split; try congruence.
  - destruct (A6 p), (B6 p); congruence.
  - destruct (A6 p), (B6 p); congruence.
Qed.

Lemma Forall2_refl {A} (P : A -> A -> Prop) l : (forall x, P x x) -> Forall2 P l l.
Proof. intros H. induction l; constructor; auto. Qed.

Lemma Forall2_trans {A} (P : A -> A -> Prop) l1 l2 l3 :
  (forall x y z, P x y -> P y z -> P x z) ->
  Forall2 P l1 l2 -> Forall2 P l2 l3 -> Forall2 P l1 l3.
Proof.
  intros T H. revert l3. induction H; intros l3 H3; inversion H3; subst; constructor; eauto.
Qed.

Lemma sameAccount_updateOne chat set us :
  (forall u, sameAccount u (set u)) -> Forall2 sameAccount us (updateOne chat set us).
Proof.
  intros H. induction us as [|u us IH]; cbn [updateOne]; [constructor|].
  destruct (String.eqb _ _); constructor; auto using sameAccount_refl.
  apply Forall2_refl, sameAccount_refl.
Qed.

Lemma atProvider_setProvider {A} (ps : PerProvider A) p q (x : A) :
  atProvider (setProvider ps p x) q = if Provider_eqb p q then x else atProvider ps q.
Proof. destruct p, q; reflexivity. Qed.

Lemma sameAccount_active us us' :
  Forall2 sameAccount us us' ->
  Forall2 sameAccount
    (filter (fun u => andb (isActive u)
                        (orb (enabled (at_gmail (providers u)))
                             (enabled (at_outlook (providers u))))) us)
    (filter (fun u => andb (isActive u)
                        (orb (enabled (at_gmail (providers u)))
                             (enabled (at_outlook (providers u))))) us').
Proof.
  induction 1 as [|u u' us us' H _ IH]; [constructor|].
  cbn [filter]. pose proof H as (H1 & H2 & H3 & H4 & H5 & H6).
  destruct (H6 gmail) as [G _], (H6 outlook) as [O _]. cbn [atProvider] in G, O.
  rewrite H5, G, O. destruct (andb _ _); [constructor|]; auto.
Qed.

(** X12: A run leaves the accounts as they are: the same users in the same
    order, each with its identifier, chat, first name, settings, activity
    flag and, for both providers, the enabled flag and the refresh token;
    so a provider that fails is not disconnected, and the users that are
    active after the run are those that were active before. *)
Theorem cronCheck_keeps_accounts env w :
  Forall2 sameAccount (users w) (users (snd (cronCheck env w))) /\
  Forall2 sameAccount (getActiveUsers w) (getActiveUsers (snd (cronCheck env w))).
Proof.
  assert (H : Forall2 sameAccount (users w) (users (snd (cronCheck env w)))).
  { apply (effects_cronCheck (fun w w' => Forall2 sameAccount (users w) (users w'))).
    - intros. apply Forall2_refl, sameAccount_refl.
    - intros ? ? ?. apply Forall2_trans. apply sameAccount_trans.
    - intros. apply Forall2_refl, sameAccount_refl.
    - intros. apply Forall2_refl, sameAccount_refl.
    - intros. apply sameAccount_updateOne. intros u. unfold sameAccount. repeat split; reflexivity.
    - intros. apply sameAccount_updateOne. intros u. unfold sameAccount.
      cbn [_id telegramChatId firstName settings isActive providers setProviders].
      repeat split; try reflexivity; rewrite atProvider_setProvider;
        destruct (Provider_eqb p p0) eqn:E; try reflexivity;
        destruct p, p0; try discriminate; reflexivity.
    - intros. apply sameAccount_updateOne. intros u. unfold sameAccount. repeat split; reflexivity. }
  split; [exact H|]. unfold getActiveUsers. apply sameAccount_active, H.
Qed.

Lemma sameRecord_refl d : sameRecord d d.
Proof. unfold sameRecord. repeat split; auto. Qed.

Lemma sameRecord_trans d1 d2 d3 : sameRecord d1 d2 -> sameRecord d2 d3 -> sameRecord d1 d3.
Proof.
  unfold sameRecord.
  intros (A1 & A2 & A3 & A4 & A5 & A6 & A7 & A8 & A9 & A10 & A11 & A12 & A13 & A14 & A15)
         (B1 & B2 & B3 & B4 & B5 & B6 & B7 & B8 & B9 & B10 & B11 & B12 & B13 & B14 & B15).
  repeat split; try congruence. auto.
Qed.

Lemma ledgerGrows_refl w : ledgerGrows w w.
Proof.
  exists (emails w), []. rewrite app_nil_r.
  split; [reflexivity|]. split; [apply Forall2_refl, sameRecord_refl|constructor].
Qed.

Lemma ledgerGrows_same w w' : emails w' = emails w -> ledgerGrows w w'.
Proof. intros E. unfold ledgerGrows. rewrite E. apply (ledgerGrows_refl w). Qed.

Lemma ledgerGrows_trans w1 w2 w3 : ledgerGrows w1 w2 -> ledgerGrows w2 w3 -> ledgerGrows w1 w3.
Proof.
  intros (k1 & a1 & E1 & F1 & N1) (k2 & a2 & E2 & F2 & N2).
  rewrite E1 in F2. apply Forall2_app_inv_l in F2.
  destruct F2 as (k2a & k2b & Fa & Fb & ->).
  exists k2a, (k2b ++ a2)%list. rewrite E2, <- app_assoc.
  split; [reflexivity|]. split.
  - eapply Forall2_trans; [apply sameRecord_trans|exact F1|exact Fa].
  - apply Forall_app. split; [|exact N2].
    clear - Fb N1. induction Fb as [|d d' l l' H _ IH]; [constructor|].
    inversion N1; subst. constructor; [|auto].
    unfold sameRecord in H. apply H. assumption.
Qed.

Lemma ledgerGrows_findOneAndUpdate uid classification now ins ds :
  doc_notified ins = true ->
  exists kept added,
    findOneAndUpdate uid (markNotified classification now) ins ds = (kept ++ added)%list /\
    Forall2 sameRecord ds kept /\ Forall (fun d => doc_notified d = true) added.
Proof.
  intros N. induction ds as [|d ds IH]; cbn [findOneAndUpdate].
  - exists [], [ins]. repeat constructor. exact N.
  - destruct (String.eqb _ _).
    + exists (markNotified classification now d :: ds), []. rewrite app_nil_r.
      split; [reflexivity|]. split; [|constructor].
      constructor; [|apply Forall2_refl, sameRecord_refl].
      unfold sameRecord. cbn. repeat split; reflexivity.
    + destruct IH as (kept & added & E & F & A).
      exists (d :: kept), added. rewrite E. split; [reflexivity|]. split; [|exact A].
      constructor; [apply sameRecord_refl|exact F].
Qed.

Lemma ledgerGrows_notified w w' chat p mid :
  ledgerGrows w w' -> isEmailNotified chat p mid w = true ->
  isEmailNotified chat p mid w' = true.
Proof.
  intros (kept & added & E & F & _). unfold isEmailNotified. rewrite E, existsb_app.
  intros H. apply orb_true_iff. left. clear E. revert H.
  induction F as [|d d' l l' S _ IH]; [discriminate|].
  cbn [existsb]. intros H. apply orb_true_iff in H. apply orb_true_iff. destruct H as [H|H]; [left|right; auto].
  destruct S as (_ & S2 & S3 & S4 & _ & _ & _ & _ & _ & _ & _ & _ & _ & _ & S15).
  rewrite S2, S3, S4.
  apply andb_true_iff in H. destruct H as [H1 H2]. apply andb_true_iff in H2. destruct H2 as [H2 H3].
  rewrite H1, H2, (S15 H3). reflexivity.
Qed.

(** X13: A run only adds to the ledger: the records that were there stay, in
    their places, with their owner, message and content, and stay marked
    when they were; new records follow them and are marked; and a message
    that counted as notified before the run counts as notified after it. *)
Theorem cronCheck_ledger_grows env w :
  ledgerGrows w (snd (cronCheck env w)) /\
  forall chat p mid,
    isEmailNotified chat p mid w = true ->
    isEmailNotified chat p mid (snd (cronCheck env w)) = true.
Proof.
  assert (H : ledgerGrows w (snd (cronCheck env w))).
  { apply (effects_cronCheck ledgerGrows).
    - apply ledgerGrows_refl.
    - apply ledgerGrows_trans.
    - intros. apply ledgerGrows_same. reflexivity.
    - intros. unfold ledgerGrows, saveEmail. cbn [emails withEmails].
      apply ledgerGrows_findOneAndUpdate. reflexivity.
    - intros. apply ledgerGrows_same. reflexivity.
    - intros. apply ledgerGrows_same. reflexivity.
    - intros. apply ledgerGrows_same. reflexivity. }
  split; [exact H|]. intros chat p mid. apply ledgerGrows_notified, H.
Qed.

Lemma findOneAndUpdate_ids uid set ins ds :
  doc_uniqueId ins = uid ->
  (forall d, doc_uniqueId (set d) = doc_uniqueId d) ->
  map doc_uniqueId (findOneAndUpdate uid set ins ds)
  = if existsb (fun d => String.eqb (doc_uniqueId d) uid) ds
    then map doc_uniqueId ds else (map doc_uniqueId ds ++ [uid])%list.
Proof.
  intros I S. induction ds as [|d ds IH]; cbn [findOneAndUpdate existsb map].
  - rewrite I. reflexivity.
  - destruct (String.eqb (doc_uniqueId d) uid) eqn:E; cbn [orb map].
    + rewrite S. reflexivity.
    + rewrite IH. destruct (existsb _ ds); reflexivity.
Qed.

Lemma findOneAndUpdate_Forall (P : EmailDoc -> Prop) uid set ins ds :
  P ins -> (forall d, P d -> P (set d)) -> Forall P ds ->
  Forall P (findOneAndUpdate uid set ins ds).
Proof.
  intros I S. induction 1 as [|d ds H H' IH]; cbn [findOneAndUpdate].
  - constructor; [exact I|constructor].
  - destruct (String.eqb _ _); constructor; auto.
Qed.

Lemma ledgerIndexed_saveEmail user email classification now w :
  ledgerIndexed w -> ledgerIndexed (saveEmail user email classification now w).
Proof.
  intros [N F]. unfold ledgerIndexed, saveEmail. cbn [emails withEmails]. split.
  - rewrite findOneAndUpdate_ids by reflexivity.
    destruct (existsb _ (emails w)) eqn:E; [exact N|].
    apply NoDup_app_remove_l with (l := []). cbn.
    rewrite <- (rev_involutive (map doc_uniqueId (emails w) ++ [uniqueIdOf email])).
    apply NoDup_rev. rewrite rev_app_distr. cbn. constructor.
    + rewrite <- in_rev. intros I. apply in_map_iff in I. destruct I as (d & D1 & D2).
      assert (X : existsb (fun d => String.eqb (doc_uniqueId d) (uniqueIdOf email)) (emails w)
                  = true).
      { apply existsb_exists. exists d. split; [exact D2|]. apply String.eqb_eq. exact D1. }
      congruence.
    + apply NoDup_rev. exact N.
  - apply findOneAndUpdate_Forall; [split; reflexivity| |exact F].
    intros d [D1 D2]. cbn. split; [exact D1|reflexivity].
Qed.

(** X14: A run keeps the ledger well indexed: when no two records share a
    [uniqueId], every record carries the identifier made of its provider
    and its message, and every record is marked as notified, the same holds
    after the run. *)
Theorem cronCheck_keeps_ledger_indexed env w :
  ledgerIndexed w -> ledgerIndexed (snd (cronCheck env w)).
Proof.
  apply (effects_cronCheck (fun w w' => ledgerIndexed w -> ledgerIndexed w')); auto.
  intros. apply ledgerIndexed_saveEmail. assumption.
Qed.

Lemma cronCheck_keeps_ledger_indexed_witness :
  ledgerIndexed sharedMailbox /\ ledgerIndexed afterFirstRun.
Proof.
  assert (H : ledgerIndexed sharedMailbox) by (split; constructor).
  split; [exact H|].
  apply (cronCheck_keeps_ledger_indexed (mailboxEnv [invitation]) sharedMailbox H).
Defined.

(** ** Failures of a provider *)

Lemma emails_handleProviderFailure env user p message w :
  emails (handleProviderFailure env user p message w) = emails w.
Proof.
  unfold handleProviderFailure.
  destruct (canSendFailureAlert _ _ _ _); [|reflexivity].
  destruct (sendFailureAlert _ _ _); reflexivity.
Qed.

(** X15: For a stored recipient, [handleProviderFailure] writes the error text
    and the time against the provider that failed, and leaves that
    provider's enabled flag and token, the other provider, the settings, the
    activity flag, the checkpoints and the ledger as they were. *)
Theorem handleProviderFailure_records env user p message w u :
  getUserByChatId (telegramChatId user) w = Some u ->
  exists u',
    getUserByChatId (telegramChatId user) (handleProviderFailure env user p message w)
    = Some u' /\
    lastError (atProvider (providers u') p) = Some message /\
    lastErrorAt (atProvider (providers u') p) = Some (clockError env) /\
    enabled (atProvider (providers u') p) = enabled (atProvider (providers u) p) /\
    refreshToken (atProvider (providers u') p) = refreshToken (atProvider (providers u) p) /\
    (forall q, q <> p -> atProvider (providers u') q = atProvider (providers u) q) /\
    settings u' = settings u /\ isActive u' = isActive u /\
    lastChecked u' = lastChecked u /\
    emails (handleProviderFailure env user p message w) = emails w.
Proof.
  intros Hu. rewrite emails_handleProviderFailure.
  set (u1 := setProviders u
               (setProvider (providers u) p
                  {| enabled := enabled (atProvider (providers u) p);
                     refreshToken := refreshToken (atProvider (providers u) p);
                     lastError := Some message; lastErrorAt := Some (clockError env) |})).
  assert (H1 : getUserByChatId (telegramChatId user)
                 (recordProviderError (telegramChatId user) p message (clockError env) w)
               = Some u1).
  { unfold recordProviderError. rewrite getUserByChatId_updateOne by reflexivity.
    rewrite Hu. reflexivity. }
  assert (G : forall u2, providers u2 = providers u1 -> settings u2 = settings u1 ->
                         isActive u2 = isActive u1 -> lastChecked u2 = lastChecked u1 ->
    lastError (atProvider (providers u2) p) = Some message /\
    lastErrorAt (atProvider (providers u2) p) = Some (clockError env) /\
    enabled (atProvider (providers u2) p) = enabled (atProvider (providers u) p) /\
    refreshToken (atProvider (providers u2) p) = refreshToken (atProvider (providers u) p) /\
    (forall q, q <> p -> atProvider (providers u2) q = atProvider (providers u) q) /\
    settings u2 = settings u /\ isActive u2 = isActive u /\
    lastChecked u2 = lastChecked u /\ emails w = emails w).
  { intros u2 -> -> -> ->. unfold u1. cbn [providers setProviders settings isActive lastChecked].
    rewrite !atProvider_setProvider, Provider_eqb_refl. cbn.
    repeat split. intros q Hq. rewrite atProvider_setProvider.
    destruct p, q; try reflexivity; contradiction Hq; reflexivity. }
  unfold handleProviderFailure.
  destruct (canSendFailureAlert _ _ _ _).
  2:{ exists u1. split; [exact H1|]. apply G; reflexivity. }
  destruct (sendFailureAlert _ _ _).
  - exists (setLastFailureAlert u1
              (setProvider (lastFailureAlert u1) p (Some (clockAlertStamp env)))).
    split.
    + unfold recordFailureAlert. rewrite getUserByChatId_updateOne by reflexivity.
      rewrite getUserByChatId_emit, H1. reflexivity.
    + apply G; reflexivity.
  - exists u1. split; [rewrite getUserByChatId_emit; exact H1|]. apply G; reflexivity.
Qed.

Lemma handleProviderFailure_records_witness :
  exists u',
    getUserByChatId "1001"
      (handleProviderFailure (outageEnv 1700000000000) asha gmail "invalid_grant" sharedMailbox)
    = Some u' /\
    lastError (at_gmail (providers u')) = Some "invalid_grant" /\
    lastErrorAt (at_gmail (providers u')) = Some 1700000000000 /\
    enabled (at_gmail (providers u')) = true.
Proof.
  destruct (handleProviderFailure_records (outageEnv 1700000000000) asha gmail
              "invalid_grant" sharedMailbox asha eq_refl)
    as (u' & G & E1 & E2 & E3 & _).
  exists u'. repeat split; assumption.
Defined.

Lemma processEmail_scanned env user p st email :
  emailsScanned (fst (processEmail env user p st email)) = emailsScanned (fst st).
Proof.
  destruct st as [result w]. unfold processEmail.
  destruct (isEmailNotified _ _ _ _); [reflexivity|].
  destruct (classifier env email) as [classification|]; [|reflexivity].
  destruct (getProp classification "category"); [|reflexivity].
  destruct (getProp classification "important"); [|reflexivity].
  destruct (andb _ _); [|reflexivity].
  destruct (sendEmailNotification _ _ _ _); reflexivity.
Qed.

Lemma processEmails_scanned env user p fetched st :
  emailsScanned (fst (fold_left (processEmail env user p) fetched st)) = emailsScanned (fst st).
Proof.
  revert st. induction fetched as [|e l IH]; intros st; [reflexivity|].
  cbn [fold_left]. rewrite IH. apply processEmail_scanned.
Qed.

Lemma getUserByChatId_processEmails env user p fetched st chat :
  getUserByChatId chat (snd (fold_left (processEmail env user p) fetched st))
  = getUserByChatId chat (snd st).
Proof. unfold getUserByChatId. rewrite users_processEmails. reflexivity. Qed.

Lemma stored_handleProviderFailure env user p message w u :
  getUserByChatId (telegramChatId user) w = Some u ->
  exists u', getUserByChatId (telegramChatId user) (handleProviderFailure env user p message w)
             = Some u'.
Proof.
  intros H. unfold handleProviderFailure.
  assert (H1 : exists u1, getUserByChatId (telegramChatId user)
                 (recordProviderError (telegramChatId user) p message (clockError env) w)
               = Some u1).
  { unfold recordProviderError. rewrite getUserByChatId_updateOne by reflexivity.
    rewrite H. eexists. reflexivity. }
  destruct H1 as (u1 & H1).
  destruct (canSendFailureAlert _ _ _ _); [|eauto].
  destruct (sendFailureAlert _ _ _).
  - unfold recordFailureAlert. rewrite getUserByChatId_updateOne by reflexivity.
    rewrite getUserByChatId_emit, H1. eexists. reflexivity.
  - rewrite getUserByChatId_emit. eauto.
Qed.

Lemma checkpointOf_updateLastChecked_other chat p q now w :
  q <> p -> checkpointOf chat q (updateLastChecked chat p now w) = checkpointOf chat q w.
Proof.
  intros N. unfold checkpointOf, updateLastChecked.
  rewrite getUserByChatId_updateOne by reflexivity.
  destruct (getUserByChatId chat w) as [u|]; [|reflexivity].
  cbn. rewrite atProvider_setProvider.
  destruct p, q; try reflexivity; contradiction N; reflexivity.
Qed.

(** What a sweep of one provider that fetched does to the books. *)
Lemma sweepProvider_fetched env user p result w fetched u :
  providerConnected user p = true ->
  fetchEmails env p (refreshToken (atProvider (providers user) p))
    (getSinceTimestamp (clockSince env) user p) = Returned fetched ->
  getUserByChatId (telegramChatId user) w = Some u ->
  let st := sweepProvider env user p (result, w) in
  errors (fst st) = errors result /\
  userEmailsScanned (fst st) = userEmailsScanned result + Z.of_nat (List.length fetched) /\
  checkpointOf (telegramChatId user) p (snd st) = Some (Some (clockChecked env)) /\
  checkpointOf (telegramChatId user) (otherProvider p) (snd st)
  = checkpointOf (telegramChatId user) (otherProvider p) w /\
  exists u', getUserByChatId (telegramChatId user) (snd st) = Some u'.
Proof.
  intros C F U. cbv zeta. unfold sweepProvider. unfold providerConnected in C. rewrite C.
  unfold processProvider. rewrite F.
  pose proof (getUserByChatId_processEmails env user p fetched
                ({| emailsScanned := Z.of_nat (List.length fetched); importantFound := 0;
                    notificationsSent := 0 |}, w) (telegramChatId user)) as G.
  pose proof (processEmails_scanned env user p fetched
                ({| emailsScanned := Z.of_nat (List.length fetched); importantFound := 0;
                    notificationsSent := 0 |}, w)) as S.
  destruct (fold_left _ fetched _) as [r1 w1]. cbn [fst snd] in *.
  cbn [errors userEmailsScanned]. rewrite S. cbn [emailsScanned].
  rewrite U in G.
  split; [reflexivity|]. split; [reflexivity|].
  split; [eapply checkpointOf_updateLastChecked; exact G|].
  split.
  - rewrite checkpointOf_updateLastChecked_other by (destruct p; discriminate).
    unfold checkpointOf. rewrite G, U. reflexivity.
  - unfold updateLastChecked. rewrite getUserByChatId_updateOne by reflexivity.
    rewrite G. eexists. reflexivity.
Qed.

Lemma sweepProvider_failed env user p result w message u :
  providerConnected user p = true ->
  fetchEmails env p (refreshToken (atProvider (providers user) p))
    (getSinceTimestamp (clockSince env) user p) = Threw message ->
  getUserByChatId (telegramChatId user) w = Some u ->
  let st := sweepProvider env user p (result, w) in
  errors (fst st) = (errors result ++ [(providerName p ++ ": " ++ message)%string])%list /\
  userEmailsScanned (fst st) = userEmailsScanned result /\
  (forall q, checkpointOf (telegramChatId user) q (snd st)
             = checkpointOf (telegramChatId user) q w) /\
  exists u', getUserByChatId (telegramChatId user) (snd st) = Some u'.
Proof.
  intros C F U. cbv zeta. unfold sweepProvider. unfold providerConnected in C. rewrite C.
  unfold processProvider. rewrite F. cbn [fst snd errors userEmailsScanned].
  split; [reflexivity|]. split; [reflexivity|]. split.
  - intros q. apply checkpointOf_handleProviderFailure.
  - eapply stored_handleProviderFailure. exact U.
Qed.

(** X16: For a stored recipient with both providers connected, when the fetch of
    one provider throws and the fetch of the other returns,
    [processUserEmails] returns with the one error text
    "<provider>: <message>", counts the messages of the provider that
    answered, advances the checkpoint of that provider and leaves the
    checkpoint of the provider that failed. *)
Theorem provider_failure_is_isolated env user w u p message fetched :
  getUserByChatId (telegramChatId user) w = Some u ->
  notificationsEnabled (settings user) = true ->
  providerConnected user p = true ->
  providerConnected user (otherProvider p) = true ->
  fetchEmails env p (refreshToken (atProvider (providers user) p))
    (getSinceTimestamp (clockSince env) user p) = Threw message ->
  fetchEmails env (otherProvider p)
    (refreshToken (atProvider (providers user) (otherProvider p)))
    (getSinceTimestamp (clockSince env) user (otherProvider p)) = Returned fetched ->
  exists result w',
    processUserEmails env user w = (Returned result, w') /\
    errors result = [providerName p ++ ": " ++ message] /\
    userEmailsScanned result = Z.of_nat (List.length fetched) /\
    checkpointOf (telegramChatId user) (otherProvider p) w' = Some (Some (clockChecked env)) /\
    checkpointOf (telegramChatId user) p w' = checkpointOf (telegramChatId user) p w.
Proof.
  intros U On Cp Cq Fp Fq. unfold processUserEmails. rewrite On. cbn [negb].
  fold (emptyResult user).
  destruct p; cbn [otherProvider] in *.
  - destruct (sweepProvider_failed env user gmail (emptyResult user) w message u Cp Fp U)
      as (E1 & S1 & K1 & (u1 & U1)).
    destruct (sweepProvider env user gmail (emptyResult user, w)) as [r1 w1]. cbn [fst snd] in *.
    destruct (sweepProvider_fetched env user outlook r1 w1 fetched u1 Cq Fq U1)
      as (E2 & S2 & K2 & K2' & _).
    destruct (sweepProvider env user outlook (r1, w1)) as [r2 w2]. cbn [fst snd otherProvider] in *.
    exists r2, w2. split; [reflexivity|].
    rewrite E2, E1, S2, S1, K2, K2', K1. cbn. repeat split; reflexivity.
  - destruct (sweepProvider_fetched env user gmail (emptyResult user) w fetched u Cq Fq U)
      as (E1 & S1 & K1 & K1' & (u1 & U1)).
    destruct (sweepProvider env user gmail (emptyResult user, w)) as [r1 w1]. cbn [fst snd otherProvider] in *.
    destruct (sweepProvider_failed env user outlook r1 w1 message u1 Cp Fp U1)
      as (E2 & S2 & K2 & _).
    destruct (sweepProvider env user outlook (r1, w1)) as [r2 w2]. cbn [fst snd] in *.
    exists r2, w2. split; [reflexivity|].
    rewrite E2, E1, S2, S1, !K2, K1, K1'. cbn. repeat split; reflexivity.
Qed.

Lemma provider_failure_is_isolated_witness :
  exists result w',
    processUserEmails gmailDownEnv dana danaWorld = (Returned result, w') /\
    errors result = ["gmail: invalid_grant"] /\
    userEmailsScanned result = 1 /\
    checkpointOf "1004" outlook w' = Some (Some 1700000001000) /\
    checkpointOf "1004" gmail w' = Some None.
Proof.
  exact (provider_failure_is_isolated gmailDownEnv dana danaWorld dana gmail "invalid_grant"
           [assessment] eq_refl eq_refl eq_refl eq_refl eq_refl eq_refl).
Defined.

(** ** The bot *)

Lemma escapeEach_nil text : escapeEach [] text = text.
Proof. induction text as [|a rest IH]; cbn; [|rewrite IH]; reflexivity. Qed.

Lemma replaceAll_escapeEach c set text :
  c <> Json.backslash -> existsb (Ascii.eqb c) set = false ->
  replaceAll c (escapeEach set text) = escapeEach (c :: set) text.
Proof.
  intros B N. induction text as [|a rest IH]; [reflexivity|].
  cbn [escapeEach existsb].
  destruct (Ascii.eqb a c) eqn:E.
  - apply Ascii.eqb_eq in E. subst a. rewrite N. cbn [orb replaceAll].
    rewrite Ascii.eqb_refl, IH. reflexivity.
  - cbn [orb]. destruct (existsb (Ascii.eqb a) set); cbn [replaceAll].
    + assert (Eb : Ascii.eqb Json.backslash c = false).
      { apply Ascii.eqb_neq. congruence. }
      rewrite Eb, E, IH. reflexivity.
    + rewrite E, IH. reflexivity.
Qed.

Lemma escapeMarkdown_escapeEach text :
  escapeMarkdown (Some text) = escapeEach markdownSpecials text.
Proof.
  destruct text as [|a rest]; [reflexivity|].
  unfold escapeMarkdown, markdownSpecials.
  rewrite <- (escapeEach_nil (String a rest)) at 1.
  rewrite !replaceAll_escapeEach; try reflexivity; intros H; discriminate H.
Qed.

Lemma escapeEach_length set text :
  (String.length text <= String.length (escapeEach set text) <= 2 * String.length text)%nat.
Proof.
  induction text as [|a rest IH]; cbn [escapeEach String.length]; [lia|].
  destruct (existsb _ _); cbn [String.length]; lia.
Qed.

(** An escaped text never starts with a character of the set. *)
Lemma escapeEach_head set text a rest :
  existsb (Ascii.eqb Json.backslash) set = false ->
  escapeEach set text = String a rest -> existsb (Ascii.eqb a) set = false.
Proof.
  intros B. destruct text as [|b t]; [discriminate|].
  cbn [escapeEach]. destruct (existsb (Ascii.eqb b) set) eqn:E; intros H; inversion H; subst.
  - exact B.
  - exact E.
Qed.

Lemma escapeEach_injective set t1 t2 :
  existsb (Ascii.eqb Json.backslash) set = false ->
  escapeEach set t1 = escapeEach set t2 -> t1 = t2.
Proof.
  intros B. revert t2. induction t1 as [|a1 r1 IH]; intros [|a2 r2]; cbn [escapeEach].
  - reflexivity.
  - destruct (existsb (Ascii.eqb a2) set); intros H; discriminate H.
  - destruct (existsb (Ascii.eqb a1) set); intros H; discriminate H.
  - destruct (existsb (Ascii.eqb a1) set) eqn:E1, (existsb (Ascii.eqb a2) set) eqn:E2;
      intros H; inversion H; subst.
    + f_equal. auto.
    + symmetry in H2. apply (escapeEach_head set r2 a1 _ B) in H2. congruence.
    + apply (escapeEach_head set r1 a2 _ B) in H2. congruence.
    + f_equal. auto.
Qed.

(** X17: The five replacements of [escapeMarkdown] amount to one pass that puts
    a backslash before each of the characters ` ] [ _ * and changes nothing
    else; the result is at least as long as the text and at most twice as
    long, and two different texts never get the same result. *)
Theorem escapeMarkdown_one_pass text :
  escapeMarkdown (Some text) = escapeEach markdownSpecials text /\
  (String.length text <= String.length (escapeMarkdown (Some text))
   <= 2 * String.length text)%nat /\
  (forall other, escapeMarkdown (Some other) = escapeMarkdown (Some text) -> other = text).
Proof.
  split; [apply escapeMarkdown_escapeEach|]. split.
  - rewrite escapeMarkdown_escapeEach. apply escapeEach_length.
  - intros other. rewrite !escapeMarkdown_escapeEach. apply escapeEach_injective. reflexivity.
Qed.

Lemma updateOne_unique chat set us u :
  (forall u, telegramChatId (set u) = telegramChatId u) ->
  NoDup (map telegramChatId us) ->
  In u (updateOne chat set us) -> telegramChatId u = chat ->
  exists u0, In u0 us /\ u = set u0.
Proof.
  intros S. induction us as [|u0 rest IH]; cbn [updateOne map]; [intros _ []|].
  intros N I C. inversion N as [|x l N1 N2]; subst.
  destruct (String.eqb (telegramChatId u0) (telegramChatId u)) eqn:E.
  - destruct I as [I|I].
    + exists u0. split; [left; reflexivity|congruence].
    + exfalso. apply N1. apply String.eqb_eq in E. rewrite E. apply in_map. exact I.
  - destruct I as [I|I].
    + subst u0. rewrite String.eqb_refl in E. discriminate.
    + destruct (IH N2 I eq_refl) as (u1 & I1 & E1). exists u1. split; [right|]; assumption.
Qed.

Lemma users_handlePause sendMessage chat w :
  users (snd (handlePause sendMessage chat w))
  = updateOne chat (setNotificationsEnabled false) (users w) /\
  emails (snd (handlePause sendMessage chat w)) = emails w /\
  trace (snd (handlePause sendMessage chat w)) = trace w.
Proof. unfold handlePause. destruct (sendMessage chat NOTIFICATIONS_PAUSED); auto. Qed.

Lemma users_handleResume sendMessage chat w :
  users (snd (handleResume sendMessage chat w))
  = updateOne chat (setNotificationsEnabled true) (users w) /\
  emails (snd (handleResume sendMessage chat w)) = emails w /\
  trace (snd (handleResume sendMessage chat w)) = trace w.
Proof. unfold handleResume. destruct (sendMessage chat NOTIFICATIONS_RESUMED); auto. Qed.

Lemma entitled_addressed env u ev chat :
  entitled env u ev -> addressedTo chat ev = true ->
  telegramChatId u = chat /\ notificationsEnabled (settings u) = true.
Proof.
  intros (On & p & _ & _ & H) A. split; [|exact On].
  cbv zeta in H. destruct ev as [e|c e s|c q s]; cbn [addressedTo] in A.
  - discriminate.
  - apply String.eqb_eq in A. destruct H as (_ & _ & _ & _ & (C & _)). congruence.
  - apply String.eqb_eq in A. destruct H as (C & _). congruence.
Qed.

(** X18: When no two users share a chat, the run that follows [handlePause]
    addresses no notification and no outage notice to the chat that was
    paused, whether or not the reply of the bot could be sent. *)
Theorem paused_recipient_gets_nothing sendMessage env chat w :
  NoDup (map telegramChatId (users w)) ->
  exists evs,
    trace (snd (cronCheck env (snd (handlePause sendMessage chat w)))) = (trace w ++ evs)%list /\
    Forall (fun ev => addressedTo chat ev = false) evs.
Proof.
  intros N.
  destruct (users_handlePause sendMessage chat w) as (U & _ & T).
  unfold cronCheck.
  match goal with |- context [fold_left _ ?us ?st] =>
    destruct (cron_fold_events env us st) as (evs & Tr & F) end.
  cbn [snd] in Tr. rewrite T in Tr.
  exists evs. split; [exact Tr|].
  eapply Forall_impl; [|exact F]. intros ev (u & I & E).
  destruct (addressedTo chat ev) eqn:A; [|reflexivity]. exfalso.
  destruct (entitled_addressed env u ev chat E A) as (C & On).
  unfold getActiveUsers in I. apply filter_In in I. destruct I as [I _].
  rewrite U in I.
  destruct (updateOne_unique chat (setNotificationsEnabled false) (users w) u
              (fun _ => eq_refl) N I C) as (u0 & _ & ->).
  discriminate On.
Qed.

Lemma paused_recipient_gets_nothing_witness :
  exists evs,
    trace (snd (cronCheck (mailboxEnv [invitation])
                  (snd (handlePause telegramUp "1001" sharedMailbox))))
    = (trace sharedMailbox ++ evs)%list /\
    Forall (fun ev => addressedTo "1001" ev = false) evs.
Proof.
  apply (paused_recipient_gets_nothing telegramUp (mailboxEnv [invitation]) "1001"
           sharedMailbox).
  constructor; [intros [H|[]]; discriminate H|].
  constructor; [intros []|constructor].
Defined.

Lemma updateOne_updateOne chat f g us :
  (forall u, telegramChatId (g u) = telegramChatId u) ->
  updateOne chat f (updateOne chat g us) = updateOne chat (fun u => f (g u)) us.
Proof.
  intros G. induction us as [|u rest IH]; [reflexivity|].
  cbn [updateOne]. destruct (String.eqb (telegramChatId u) chat) eqn:E; cbn [updateOne].
  - rewrite G, E. reflexivity.
  - rewrite E, IH. reflexivity.
Qed.

Lemma updateOne_same chat f us :
  (forall u, getUserByChatId chat {| users := us; emails := []; trace := [] |} = Some u ->
             f u = u) ->
  updateOne chat f us = us.
Proof.
  unfold getUserByChatId. cbn [users].
  induction us as [|u rest IH]; [reflexivity|].
  cbn [updateOne find]. destruct (String.eqb (telegramChatId u) chat).
  - intros H. rewrite H; reflexivity.
  - intros H. rewrite IH; [reflexivity|exact H].
Qed.

(** X19: For a stored recipient whose notifications were enabled, [handleResume]
    after [handlePause] leaves the users, the ledger and the trace exactly
    as they were, whatever becomes of the replies. *)
Theorem resume_undoes_pause send1 send2 chat w u :
  getUserByChatId chat w = Some u ->
  notificationsEnabled (settings u) = true ->
  let w' := snd (handleResume send2 chat (snd (handlePause send1 chat w))) in
  users w' = users w /\ emails w' = emails w /\ trace w' = trace w.
Proof.
  intros Hu On. cbv zeta.
  destruct (users_handleResume send2 chat (snd (handlePause send1 chat w))) as (U2 & E2 & T2).
  destruct (users_handlePause send1 chat w) as (U1 & E1 & T1).
  rewrite U2, E2, T2, U1, E1, T1. split; [|split; reflexivity].
  rewrite updateOne_updateOne by reflexivity.
  apply updateOne_same. intros u' Hu'.
  assert (E : Some u' = Some u) by (rewrite <- Hu; symmetry; exact Hu').
  injection E as ->.
  destruct u as [i c f ps [n cs] lc lf a]. cbn in *. subst n. reflexivity.
Qed.

Lemma resume_undoes_pause_witness :
  users (snd (handleResume telegramUp "1001" (snd (handlePause telegramDown "1001" sharedMailbox))))
  = users sharedMailbox.
Proof.
  apply (resume_undoes_pause telegramDown telegramUp "1001" sharedMailbox asha eq_refl eq_refl).
Defined.

(** ** The mailbox adapters *)

(** X20: With a token that is not empty and a time that a [Date] can hold, the
    adapter of a provider throws exactly when the token refresh throws, with
    the same message; otherwise it returns the messages of the inbox
    followed by those of the spam folder, each of the latter flagged as
    spam, and a folder that could not be read counts as empty. *)
Theorem adapters_throw_only_on_refresh g o p token since :
  token <> EmptyString -> Z.abs since <= 8640000000000000 ->
  (forall message, fetchFrom g o p (Some token) since = Threw message <->
                   refreshOutcome g o p token = Threw message) /\
  (forall fetched, fetchFrom g o p (Some token) since = Returned fetched ->
     exists inbox junk,
       fetched = (inbox ++ map markSpam junk)%list /\
       Forall (fun email => isSpam email = true) (map markSpam junk) /\
       match p with
       | gmail =>
           inbox = readable (Gmail.fetchFromLabel g token (since / 1000) None) /\
           junk = readable (Gmail.fetchFromLabel g token (since / 1000) (Some "SPAM"))
       | outlook =>
           exists accessToken,
             Outlook.tokenEndpoint o token = Returned accessToken /\
             inbox = readable (Outlook.fetchFromFolder o accessToken "inbox" since) /\
             junk = readable (Outlook.fetchFromFolder o accessToken "junkemail" since)
       end).
Proof.
  intros T V.
  assert (N : notGiven (Some token) = false).
  { cbn. apply String.eqb_neq. exact T. }
  assert (I : toISOString since = Returned since).
  { unfold toISOString. apply Z.leb_le in V. rewrite V. reflexivity. }
  assert (S : forall junk, Forall (fun email => isSpam email = true) (map markSpam junk)).
  { intros junk. apply Forall_forall. intros e H. apply in_map_iff in H.
    destruct H as (e0 & <- & _). reflexivity. }
  destruct p; cbn [fetchFrom refreshOutcome].
  - unfold Gmail.fetchEmails. rewrite N. cbn [givenText].
    destruct (Gmail.getAccessToken g token) as [[]|e]; cbn [bind].
    + rewrite I. cbn [bind]. split.
      * intros message. split; intros H; discriminate H.
      * intros fetched H.
        exists (readable (Gmail.fetchFromLabel g token (since / 1000) None)),
               (readable (Gmail.fetchFromLabel g token (since / 1000) (Some "SPAM"))).
        split; [|split; [apply S|split; reflexivity]].
        destruct (Gmail.fetchFromLabel g token (since / 1000) None),
                 (Gmail.fetchFromLabel g token (since / 1000) (Some "SPAM"));
          cbn in *; injection H as <-; rewrite ?app_nil_r; reflexivity.
    + split; [intros message; split; intros H; injection H as ->; reflexivity
             |intros fetched H; discriminate H].
  - unfold Outlook.fetchEmails, Outlook.getAccessToken. rewrite N. cbn [givenText].
    destruct (Outlook.tokenEndpoint o token) as [accessToken|e]; cbn [bind].
    + rewrite I. cbn [bind]. split.
      * intros message. split; intros H; discriminate H.
      * intros fetched H.
        exists (readable (Outlook.fetchFromFolder o accessToken "inbox" since)),
               (readable (Outlook.fetchFromFolder o accessToken "junkemail" since)).
        split; [|split; [apply S|]].
        -- destruct (Outlook.fetchFromFolder o accessToken "inbox" since),
                    (Outlook.fetchFromFolder o accessToken "junkemail" since);
             cbn in *; injection H as <-; rewrite ?app_nil_r; reflexivity.
        -- exists accessToken. repeat split; reflexivity.
    + split; [intros message; split; intros H; injection H as ->; reflexivity
             |intros fetched H; discriminate H].
Qed.

Lemma adapters_throw_only_on_refresh_witness :
  fetchFrom gmailApi outlookApi outlook (Some "token-o") 1699998200000
  = Threw "invalid_grant" /\
  exists inbox junk,
    [invitation] = (inbox ++ map markSpam junk)%list /\
    Forall (fun email => isSpam email = true) (map markSpam junk).
Proof.
  split.
  - apply (proj1 (adapters_throw_only_on_refresh gmailApi outlookApi outlook "token-o"
                    1699998200000 ltac:(discriminate) ltac:(cbn; lia))).
    reflexivity.
  - destruct (proj2 (adapters_throw_only_on_refresh gmailApi outlookApi gmail "token-g"
                       1699998200000 ltac:(discriminate) ltac:(cbn; lia))
                [invitation] eq_refl) as (inbox & junk & E & F & _).
    exists inbox, junk. split; assumption.
Defined.

Lemma fetchFrom_cases g o p token since :
  token <> EmptyString -> Z.abs since <= 8640000000000000 ->
  match refreshOutcome g o p token with
  | Returned _ => exists fetched, fetchFrom g o p (Some token) since = Returned fetched
  | Threw message => fetchFrom g o p (Some token) since = Threw message
  end.
Proof.
  intros T V.
  assert (N : notGiven (Some token) = false).
  { cbn. apply String.eqb_neq. exact T. }
  assert (I : toISOString since = Returned since).
  { unfold toISOString. apply Z.leb_le in V. rewrite V. reflexivity. }
  destruct p; cbn [fetchFrom refreshOutcome].
  - unfold Gmail.fetchEmails. rewrite N. cbn [givenText].
    destruct (Gmail.getAccessToken g token) as [[]|e]; cbn [bind]; [|reflexivity].
    rewrite I. cbn [bind]. eexists. reflexivity.
  - unfold Outlook.fetchEmails, Outlook.getAccessToken. rewrite N. cbn [givenText].
    destruct (Outlook.tokenEndpoint o token) as [accessToken|e]; cbn [bind]; [|reflexivity].
    rewrite I. cbn [bind]. eexists. reflexivity.
Qed.

Lemma countEvents_zero kind t : countEvents kind t = 0 -> filter kind t = [].
Proof.
  unfold countEvents. intros H. destruct (filter kind t); [reflexivity|]. cbn in H. lia.
Qed.

Lemma sweepProvider_fetched_alerts env user p result w fetched :
  providerConnected user p = true ->
  fetchEmails env p (refreshToken (atProvider (providers user) p))
    (getSinceTimestamp (clockSince env) user p) = Returned fetched ->
  filter isAlert (trace (snd (sweepProvider env user p (result, w)))) = filter isAlert (trace w).
Proof.
  intros C F. unfold sweepProvider. unfold providerConnected in C. rewrite C.
  unfold processProvider. rewrite F.
  destruct (processEmails_account env user p fetched
              {| emailsScanned := Z.of_nat (List.length fetched); importantFound := 0;
                 notificationsSent := 0 |} w) as (evs & T & _ & _ & _ & _ & A).
  destruct (fold_left _ fetched _) as [r1 w1]. cbn [fst snd] in *.
  cbn [trace updateLastChecked withUsers]. rewrite T, filter_app, (countEvents_zero _ _ A).
  apply app_nil_r.
Qed.

(** X21: With the two adapters behind the sweep, for a stored recipient and an
    enabled provider with a token: when the token refresh returns, the sweep
    records no error, advances the checkpoint and sends no outage notice,
    whatever the folders answer; when it throws, the sweep records
    "<provider>: <message>" and leaves the checkpoint. *)
Theorem sweep_fails_only_with_refresh env g o user p result w u token :
  fetchEmails env = fetchFrom g o ->
  getUserByChatId (telegramChatId user) w = Some u ->
  enabled (atProvider (providers user) p) = true ->
  refreshToken (atProvider (providers user) p) = Some token ->
  token <> EmptyString ->
  Z.abs (getSinceTimestamp (clockSince env) user p) <= 8640000000000000 ->
  let st := sweepProvider env user p (result, w) in
  match refreshOutcome g o p token with
  | Returned _ =>
      errors (fst st) = errors result /\
      checkpointOf (telegramChatId user) p (snd st) = Some (Some (clockChecked env)) /\
      filter isAlert (trace (snd st)) = filter isAlert (trace w)
  | Threw message =>
      errors (fst st) = (errors result ++ [(providerName p ++ ": " ++ message)%string])%list /\
      checkpointOf (telegramChatId user) p (snd st) = checkpointOf (telegramChatId user) p w
  end.
Proof.
  intros E U En Tk Ne V. cbv zeta.
  assert (C : providerConnected user p = true).
  { unfold providerConnected, hasToken. rewrite En, Tk. cbn.
    apply negb_true_iff, String.eqb_neq. exact Ne. }
  pose proof (fetchFrom_cases g o p token _ Ne V) as H.
  destruct (refreshOutcome g o p token) as [ok|message].
  - destruct H as (fetched & F). rewrite <- E, <- Tk in F.
    destruct (sweepProvider_fetched env user p result w fetched u C F U) as (E1 & _ & K & _).
    split; [exact E1|]. split; [exact K|].
    apply (sweepProvider_fetched_alerts env user p result w fetched C F).
  - rewrite <- E, <- Tk in H.
    destruct (sweepProvider_failed env user p result w message u C H U) as (E1 & _ & K & _).
    split; [exact E1|apply K].
Qed.

Lemma sweep_fails_only_with_refresh_witness :
  (let st := sweepProvider adapterEnv dana gmail (emptyResult dana, danaWorld) in
   errors (fst st) = [] /\
   checkpointOf "1004" gmail (snd st) = Some (Some 1700000001000) /\
   filter isAlert (trace (snd st)) = []) /\
  (let st := sweepProvider adapterEnv dana outlook (emptyResult dana, danaWorld) in
   errors (fst st) = ["outlook: invalid_grant"] /\
   checkpointOf "1004" outlook (snd st) = Some None).
Proof.
  split.
  - exact (sweep_fails_only_with_refresh adapterEnv gmailApi outlookApi dana gmail
             (emptyResult dana) danaWorld dana "token-g" eq_refl eq_refl eq_refl eq_refl
             ltac:(discriminate) ltac:(cbn; lia)).
  - exact (sweep_fails_only_with_refresh adapterEnv gmailApi outlookApi dana outlook
             (emptyResult dana) danaWorld dana "token-o" eq_refl eq_refl eq_refl eq_refl
             ltac:(discriminate) ltac:(cbn; lia)).
Defined.

(** ** Onboarding and the callback of a provider *)

Lemma updateOne_absent chat set us :
  find (fun u => String.eqb (telegramChatId u) chat) us = None ->
  updateOne chat set us = us.
Proof.
  induction us as [|u rest IH]; [reflexivity|].
  cbn [find updateOne]. destruct (String.eqb (telegramChatId u) chat); [discriminate|].
  intros H. rewrite IH; [reflexivity|exact H].
Qed.

Lemma updateOne_app_absent chat set us tail :
  find (fun u => String.eqb (telegramChatId u) chat) us = None ->
  updateOne chat set (us ++ tail) = (us ++ updateOne chat set tail)%list.
Proof.
  induction us as [|u rest IH]; [reflexivity|].
  cbn [find updateOne app]. destruct (String.eqb (telegramChatId u) chat); [discriminate|].
  intros H. rewrite IH; [reflexivity|exact H].
Qed.

Lemma find_app_absent {A} (f : A -> bool) l tail :
  find f l = None -> find f (l ++ tail) = find f tail.
Proof.
  induction l as [|a l IH]; [reflexivity|]. cbn [find app].
  destruct (f a); [discriminate|exact IH].
Qed.

(** X22: For a chat the store does not know, [findOrCreateUser] adds a user that
    no run sweeps yet, and finds that user again without adding another;
    [updateProviderCredentials] with a token then makes the user the last of
    the active users, connected for that provider only, with notifications
    enabled and no checkpoint. *)
Theorem connecting_makes_active oid chat first p token w :
  getUserByChatId chat w = None ->
  token <> EmptyString ->
  let w1 := snd (findOrCreateUser oid chat first w) in
  let connected := updateProviderCredentials chat p (Some token) w1 in
  getActiveUsers w1 = getActiveUsers w /\
  (forall oid' first', findOrCreateUser oid' chat first' w1 = (newUser oid chat first, w1)) /\
  exists u,
    fst connected = Some u /\
    getActiveUsers (snd connected) = (getActiveUsers w ++ [u])%list /\
    telegramChatId u = chat /\
    providerConnected u p = true /\
    refreshToken (atProvider (providers u) p) = Some token /\
    providerConnected u (otherProvider p) = false /\
    notificationsEnabled (settings u) = true /\
    atProvider (lastChecked u) p = None.
Proof.
  intros Absent Ne. cbv zeta.
  assert (E : snd (findOrCreateUser oid chat first w)
              = withUsers w (users w ++ [newUser oid chat first])).
  { unfold findOrCreateUser. rewrite Absent. reflexivity. }
  rewrite E. clear E.
  assert (F1 : getUserByChatId chat (withUsers w (users w ++ [newUser oid chat first]))
               = Some (newUser oid chat first)).
  { unfold getUserByChatId in *. cbn [users withUsers].
    rewrite find_app_absent by exact Absent. cbn. rewrite String.eqb_refl. reflexivity. }
  split.
  { unfold getActiveUsers. cbn [users withUsers]. rewrite filter_app. cbn. apply app_nil_r. }
  split.
  { intros oid' first'. unfold findOrCreateUser. rewrite F1. reflexivity. }
  unfold updateProviderCredentials. cbn [fst snd users withUsers].
  unfold getUserByChatId in Absent.
  rewrite (updateOne_app_absent chat _ (users w) _ Absent).
  cbn [updateOne newUser telegramChatId]. rewrite String.eqb_refl.
  eexists. split.
  { unfold getUserByChatId. cbn [users withUsers].
    rewrite find_app_absent by exact Absent. cbn [find telegramChatId setProviders].
    rewrite String.eqb_refl. reflexivity. }
  assert (T : negb (String.eqb token EmptyString) = true).
  { apply negb_true_iff, String.eqb_neq. exact Ne. }
  split.
  { unfold getActiveUsers. cbn [users withUsers]. rewrite filter_app. f_equal.
    destruct p; reflexivity. }
  unfold providerConnected, hasToken.
  destruct p; cbn; rewrite ?T; repeat split; reflexivity.
Qed.

Lemma connecting_makes_active_witness :
  exists u,
    fst (updateProviderCredentials "1009" gmail (Some "1//0g-refresh")
           (snd (findOrCreateUser "u9" "1009" (Some "Nila") sharedMailbox))) = Some u /\
    getActiveUsers
      (snd (updateProviderCredentials "1009" gmail (Some "1//0g-refresh")
              (snd (findOrCreateUser "u9" "1009" (Some "Nila") sharedMailbox))))
    = [asha; ravi; u] /\
    providerConnected u gmail = true /\ providerConnected u outlook = false.
Proof.
  destruct (connecting_makes_active "u9" "1009" (Some "Nila") gmail "1//0g-refresh"
              sharedMailbox eq_refl ltac:(discriminate))
    as (_ & _ & u & E & A & _ & C & _ & O & _).
  exists u. repeat split; assumption.
Defined.

(** X23: For a stored recipient, [updateProviderCredentials] enables the
    provider with the new token and clears its error, and leaves the other
    provider, the checkpoints, the settings and the time of the last outage
    notice; so a failure that follows within the cooldown of an earlier
    notice sends no notice. *)
Theorem reconnecting_keeps_the_cooldown env user p message token w u stamp :
  getUserByChatId (telegramChatId user) w = Some u ->
  atProvider (lastFailureAlert u) p = Some stamp ->
  clockAlertCheck env - stamp < FAILURE_ALERT_COOLDOWN_MS ->
  let connected := updateProviderCredentials (telegramChatId user) p token w in
  (exists u1,
      fst connected = Some u1 /\
      atProvider (providers u1) p
      = {| enabled := true; refreshToken := token; lastError := None; lastErrorAt := None |} /\
      atProvider (providers u1) (otherProvider p) = atProvider (providers u) (otherProvider p) /\
      lastChecked u1 = lastChecked u /\ lastFailureAlert u1 = lastFailureAlert u /\
      settings u1 = settings u) /\
  trace (handleProviderFailure env user p message (snd connected)) = trace w.
Proof.
  intros U St Cool. cbv zeta. unfold updateProviderCredentials. cbn [fst snd].
  set (set := fun u0 : User =>
                setProviders u0
                  (setProvider (providers u0) p
                     {| enabled := true; refreshToken := token;
                        lastError := None; lastErrorAt := None |})).
  assert (G : getUserByChatId (telegramChatId user)
                (withUsers w (updateOne (telegramChatId user) set (users w)))
              = Some (set u)).
  { rewrite getUserByChatId_updateOne by reflexivity. rewrite U. reflexivity. }
  split.
  - exists (set u). split; [exact G|]. unfold set.
    cbn [providers setProviders lastChecked lastFailureAlert settings].
    rewrite !atProvider_setProvider, Provider_eqb_refl.
    destruct p; repeat split; reflexivity.
  - unfold handleProviderFailure.
    assert (C : canSendFailureAlert (telegramChatId user) p (clockAlertCheck env)
                  (recordProviderError (telegramChatId user) p message (clockError env)
                     (withUsers w (updateOne (telegramChatId user) set (users w))))
                = false).
    { unfold canSendFailureAlert, recordProviderError.
      rewrite getUserByChatId_updateOne by reflexivity. rewrite G.
      cbn [option_map lastFailureAlert setProviders set]. rewrite St.
      destruct (Z.geb_spec (clockAlertCheck env - stamp) FAILURE_ALERT_COOLDOWN_MS);
        [lia|reflexivity]. }
    rewrite C. reflexivity.
Qed.

Lemma reconnecting_keeps_the_cooldown_witness :
  let alerted := handleProviderFailure (outageEnv 1700000000000) asha gmail "invalid_grant"
                   sharedMailbox in
  trace (handleProviderFailure (outageEnv 1700003600000) asha gmail "invalid_grant"
           (snd (updateProviderCredentials "1001" gmail (Some "1//0g-refresh") alerted)))
  = trace alerted.
Proof.
  intro alerted.
  destruct (reconnecting_keeps_the_cooldown (outageEnv 1700003600000) asha gmail
              "invalid_grant" (Some "1//0g-refresh") alerted
              (setLastFailureAlert
                 (setProviders asha
                    {| at_gmail := {| enabled := true; refreshToken := Some "token-shared";
                                      lastError := Some "invalid_grant";
                                      lastErrorAt := Some 1700000000000 |};
                       at_outlook := unconnected |})
                 {| at_gmail := Some 1700000000000; at_outlook := None |})
              1700000000000 eq_refl eq_refl ltac:(vm_compute; reflexivity)) as (_ & H).
  exact H.
Defined.

Lemma getSessionByOAuthState_find state ss :
  getSessionByOAuthState state ss = find (holdsState state) ss.
Proof. reflexivity. Qed.

Lemma upsertSession_keeps_state state chat set ins ss s :
  (forall s0, oauthState (set s0) = oauthState s0) ->
  (forall s0, session_telegramChatId (set s0) = session_telegramChatId s0) ->
  find (holdsState state) ss = Some s ->
  exists s', find (holdsState state) (upsertSession chat set ins ss) = Some s' /\
             session_telegramChatId s' = session_telegramChatId s.
Proof.
  intros KO KC. induction ss as [|h rest IH]; [discriminate|].
  cbn [find upsertSession].
  destruct (holdsState state h) eqn:H; intros F.
  - injection F as <-.
    destruct (String.eqb (session_telegramChatId h) chat); cbn [find].
    + unfold holdsState in *. rewrite KO, H. exists (set h). split; [reflexivity|apply KC].
    + rewrite H. exists h. split; reflexivity.
  - destruct (String.eqb (session_telegramChatId h) chat); cbn [find].
    + unfold holdsState in *. rewrite KO, H. exists s. split; [exact F|reflexivity].
    + rewrite H. apply IH. exact F.
Qed.

Lemma upsertSession_In chat set ins ss s' :
  NoDup (map session_telegramChatId ss) ->
  In s' (upsertSession chat set ins ss) ->
  (exists s0, In s0 ss /\ session_telegramChatId s0 = chat /\ s' = set s0) \/
  (s' = ins /\ forall s0, In s0 ss -> session_telegramChatId s0 <> chat) \/
  (In s' ss /\ session_telegramChatId s' <> chat).
Proof.
  induction ss as [|h rest IH]; cbn [upsertSession map]; intros N I.
  - destruct I as [<-|[]]. right. left. split; [reflexivity|intros s0 []].
  - inversion N as [|x l N1 N2]; subst.
    destruct (String.eqb (session_telegramChatId h) chat) eqn:E.
    + apply String.eqb_eq in E. destruct I as [<-|I].
      * left. exists h. split; [left; reflexivity|]. split; [exact E|reflexivity].
      * right. right. split; [right; exact I|].
        intros C. apply N1. rewrite E, <- C. apply in_map. exact I.
    + apply String.eqb_neq in E. destruct I as [<-|I].
      * right. right. split; [left; reflexivity|exact E].
      * destruct (IH N2 I) as [(s0 & I0 & C0 & ->)|[(-> & A)|(I0 & C0)]].
        -- left. exists s0. split; [right; exact I0|]. split; [exact C0|reflexivity].
        -- right. left. split; [reflexivity|]. intros s0 [<-|I0]; [exact E|apply A, I0].
        -- right. right. split; [right; exact I0|exact C0].
Qed.

Lemma upsertSession_NoDup chat set ins ss :
  (forall s0, session_telegramChatId (set s0) = session_telegramChatId s0) ->
  session_telegramChatId ins = chat ->
  NoDup (map session_telegramChatId ss) ->
  NoDup (map session_telegramChatId (upsertSession chat set ins ss)).
Proof.
  intros KC KI. induction ss as [|h rest IH]; cbn [upsertSession map]; intros N.
  - constructor; [intros []|constructor].
  - inversion N as [|x l N1 N2]; subst x l.
    destruct (String.eqb (session_telegramChatId h) chat) eqn:E; cbn [map].
    + rewrite KC. exact N.
    + constructor; [|apply IH, N2]. intros I. apply in_map_iff in I.
      destruct I as (s' & C & I).
      destruct (upsertSession_In chat set ins rest s' N2 I)
        as [(s0 & I0 & C0 & ->)|[(-> & A)|(I0 & C0)]].
      * rewrite KC in C. apply N1. rewrite <- C. apply in_map. exact I0.
      * apply String.eqb_neq in E. congruence.
      * apply N1. rewrite <- C. apply in_map. exact I0.
Qed.

Lemma find_none_iff {A} (f : A -> bool) l :
  (forall x, In x l -> f x = false) -> find f l = None.
Proof.
  induction l as [|a l IH]; [reflexivity|]. intros H. cbn [find].
  rewrite (H a (or_introl eq_refl)). apply IH. intros x I. apply H. right. exact I.
Qed.

Lemma callback_unknown_state env p q w ss :
  getSessionByOAuthState (givenText (q_state q)) ss = None ->
  snd (oauthCallback env p q (w, ss)) = (w, ss).
Proof.
  intros F. unfold oauthCallback.
  destruct (negb (notGiven (q_error q))); [reflexivity|].
  destruct (orb _ _); [reflexivity|].
  destruct (ensureInitialized env); [|reflexivity].
  rewrite F. reflexivity.
Qed.

(** What a callback that answered with the page of success went through. *)
Lemma callback_success env p q w ss w' ss' email :
  oauthCallback env p q (w, ss) = (ResultPage true p None email, (w', ss')) ->
  notGiven (q_state q) = false /\
  exists session token,
    getSessionByOAuthState (givenText (q_state q)) ss = Some session /\
    notGiven token = false /\
    w' = snd (updateProviderCredentials (session_telegramChatId session) p token w) /\
    ss' = updateSession (sessionDefaults env) (session_telegramChatId session)
            {| to_state := None; to_pendingProvider := None; to_oauthState := Some None;
               to_gmailConnected := None; to_outlookConnected := None |}
            (clockConsumed env) (clockConsumedExpiry env)
            (snd (handleOAuthSuccess env (session_telegramChatId session) p email ss)).
Proof.
  unfold oauthCallback.
  destruct (negb (notGiven (q_error q))); [discriminate|].
  destruct (notGiven (q_code q)); [discriminate|].
  destruct (notGiven (q_state q)); [discriminate|]. cbn [orb].
  destruct (ensureInitialized env); [|discriminate].
  destruct (getSessionByOAuthState _ ss) as [session|]; [|discriminate].
  destruct (exchangeCodeForTokens env p _) as [[token email']|]; [|discriminate].
  destruct (notGiven token) eqn:T; [discriminate|].
  destruct (handleOAuthSuccess env _ p email' ss) as [[[]|e] ss1] eqn:H; [|discriminate].
  intros E. injection E as <- <- <-. split; [reflexivity|].
  exists session, token. rewrite H. repeat split. exact T.
Qed.

Lemma handleOAuthSuccess_sessions env chat p email ss :
  exists updates,
    to_oauthState updates = None /\
    snd (handleOAuthSuccess env chat p email ss)
    = updateSession (sessionDefaults env) chat updates (clockConnected env)
        (clockConnectedExpiry env) ss.
Proof.
  unfold handleOAuthSuccess.
  destruct p; eexists; (split; [|destruct (botSendMessage env chat _); reflexivity]);
    reflexivity.
Qed.

(** X24: When no two sessions share a chat and one session at most holds the
    state, a callback that answered with the page of success leaves no
    session that holds the state, and any later callback with that state
    changes neither the users nor the sessions. *)
Theorem oauth_state_is_single_use env p q w ss w' ss' email state :
  q_state q = Some state ->
  NoDup (map session_telegramChatId ss) ->
  (forall s1 s2, In s1 ss -> In s2 ss ->
                 oauthState s1 = Some state -> oauthState s2 = Some state -> s1 = s2) ->
  oauthCallback env p q (w, ss) = (ResultPage true p None email, (w', ss')) ->
  getSessionByOAuthState state ss' = None /\
  forall env2 p2 q2,
    q_state q2 = Some state ->
    snd (oauthCallback env2 p2 q2 (w', ss')) = (w', ss').
Proof.
  intros Q N U H.
  assert (G : getSessionByOAuthState state ss' = None).
  { destruct (callback_success env p q w ss w' ss' email H)
      as (_ & session & token & F & _ & _ & ->).
    rewrite Q in F. cbn [givenText] in F.
    destruct (handleOAuthSuccess_sessions env (session_telegramChatId session) p email ss)
      as (updates & KO & ->).
    rewrite getSessionByOAuthState_find in *.
    pose proof (find_some _ _ F) as [I Hs].
    apply find_none_iff. intros s2 I2.
    unfold updateSession in I2.
    match type of I2 with In _ (upsertSession _ ?set2 ?ins2 (upsertSession _ ?set1 ?ins1 _)) =>
      assert (N1 : NoDup (map session_telegramChatId
                            (upsertSession (session_telegramChatId session) set1 ins1 ss)))
        by (apply upsertSession_NoDup; [reflexivity|reflexivity|exact N]);
      destruct (upsertSession_In _ set2 ins2 _ s2 N1 I2)
        as [(s1 & _ & _ & ->)|[(-> & _)|(I1 & C1)]]; [reflexivity|reflexivity|];
      destruct (upsertSession_In _ set1 ins1 _ s2 N I1)
        as [(s0 & _ & C0 & ->)|[(-> & _)|(I0 & C0)]]
    end.
    - exfalso. apply C1. exact C0.
    - exfalso. apply C1. reflexivity.
    - destruct (holdsState state s2) eqn:H2; [|reflexivity]. exfalso. apply C0.
      assert (E : s2 = session).
      { apply U; [exact I0|exact I| |].
        - unfold holdsState in H2. destruct (oauthState s2) as [h|]; [|discriminate].
          apply String.eqb_eq in H2. congruence.
        - unfold holdsState in Hs. destruct (oauthState session) as [h|]; [|discriminate].
          apply String.eqb_eq in Hs. congruence. }
      rewrite E. reflexivity. }
  split; [exact G|]. intros env2 p2 q2 Q2. apply callback_unknown_state.
  rewrite Q2. exact G.
Qed.

Lemma oauth_state_is_single_use_witness :
  let st := snd (oauthCallback (oauthEnv telegramUp) gmail callbackQuery
                   (sharedMailbox, [awaitingGmail])) in
  getSessionByOAuthState "5f2a9c17" (snd st) = None /\
  snd (oauthCallback (oauthEnv telegramUp) gmail callbackQuery st) = st.
Proof.
  intro st.
  destruct (oauth_state_is_single_use (oauthEnv telegramUp) gmail callbackQuery sharedMailbox
              [awaitingGmail] (fst st) (snd st) (Some "asha@example.org") "5f2a9c17"
              eq_refl
              ltac:(constructor; [intros []|constructor])
              ltac:(intros s1 s2 [<-|[]] [<-|[]] _ _; reflexivity)
              ltac:(vm_compute; reflexivity)) as (G & H).
  split; [exact G|].
  rewrite (surjective_pairing st) at 1 2.
  apply (H (oauthEnv telegramUp) gmail callbackQuery eq_refl).
Defined.

(** X25: When the state is held by a session, the code is exchanged for a token
    and the recipient is stored, but the messages of success cannot be sent,
    the callback answers with the page of failure that shows the error;
    the provider is connected with the token all the same, and the state is
    still held by the session of that chat. *)
Theorem oauth_connects_before_it_reports env p q w ss session code state token email e u :
  notGiven (q_error q) = true ->
  q_code q = Some code -> code <> EmptyString ->
  q_state q = Some state -> state <> EmptyString ->
  ensureInitialized env = Returned tt ->
  getSessionByOAuthState state ss = Some session ->
  exchangeCodeForTokens env p code = Returned (Some token, email) ->
  token <> EmptyString ->
  getUserByChatId (session_telegramChatId session) w = Some u ->
  fst (handleOAuthSuccess env (session_telegramChatId session) p email ss) = Threw e ->
  exists w' ss' u' session',
    oauthCallback env p q (w, ss) = (ResultPage false p (Some e) None, (w', ss')) /\
    getUserByChatId (session_telegramChatId session) w' = Some u' /\
    enabled (atProvider (providers u') p) = true /\
    refreshToken (atProvider (providers u') p) = Some token /\
    getSessionByOAuthState state ss' = Some session' /\
    session_telegramChatId session' = session_telegramChatId session.
Proof.
  intros QE QC NC QS NS Init F X NT U HS.
  unfold oauthCallback. rewrite QE, QC, QS. cbn [negb notGiven givenText].
  apply String.eqb_neq in NC, NS. rewrite NC, NS. cbn [orb].
  rewrite Init, F, X. cbn [notGiven]. apply String.eqb_neq in NT. rewrite NT.
  destruct (handleOAuthSuccess_sessions env (session_telegramChatId session) p email ss)
    as (updates & KO & S1).
  destruct (handleOAuthSuccess env (session_telegramChatId session) p email ss)
    as [[ok|e'] ss1]; cbn [fst snd] in *; [discriminate|]. injection HS as ->.
  set (set := fun u0 : User =>
                setProviders u0
                  (setProvider (providers u0) p
                     {| enabled := true; refreshToken := Some token;
                        lastError := None; lastErrorAt := None |})).
  assert (FS : exists s', getSessionByOAuthState state ss1 = Some s' /\
                          session_telegramChatId s' = session_telegramChatId session).
  { rewrite S1. unfold updateSession. rewrite getSessionByOAuthState_find in *.
    apply upsertSession_keeps_state; [|reflexivity|exact F].
    intros s0. cbn [oauthState setSession]. rewrite KO. reflexivity. }
  destruct FS as (s' & FS & CS).
  eexists _, ss1, (set u), s'. split; [reflexivity|].
  split.
  { unfold updateProviderCredentials. cbn [snd].
    rewrite getUserByChatId_updateOne by reflexivity. rewrite U. reflexivity. }
  unfold set. cbn [providers setProviders]. rewrite atProvider_setProvider, Provider_eqb_refl.
  repeat split; assumption.
Qed.

Lemma oauth_connects_before_it_reports_witness :
  exists w' ss' u',
    oauthCallback (oauthEnv telegramDown) gmail callbackQuery (sharedMailbox, [awaitingGmail])
    = (ResultPage false gmail (Some "ETELEGRAM: 403 Forbidden") None, (w', ss')) /\
    getUserByChatId "1001" w' = Some u' /\
    refreshToken (at_gmail (providers u')) = Some "1//0g-refresh" /\
    getSessionByOAuthState "5f2a9c17" ss' <> None.
Proof.
  destruct (oauth_connects_before_it_reports (oauthEnv telegramDown) gmail callbackQuery
              sharedMailbox [awaitingGmail] awaitingGmail "4/0AX4XfWh" "5f2a9c17"
              "1//0g-refresh" (Some "asha@example.org") "ETELEGRAM: 403 Forbidden" asha
              eq_refl eq_refl ltac:(discriminate) eq_refl ltac:(discriminate) eq_refl eq_refl
              eq_refl ltac:(discriminate) eq_refl eq_refl)
    as (w' & ss' & u' & s' & E & G & _ & T & F & _).
  exists w', ss', u'. split; [exact E|]. split; [exact G|]. split; [exact T|].
  rewrite F. discriminate.
Defined.

(** ** The logger *)

Lemma ownLevel_range key n : Logger.ownLevel Logger.LOG_LEVELS key = Some n -> 0 <= n <= 3.
Proof.
  cbn [Logger.ownLevel Logger.LOG_LEVELS].
  repeat (destruct (String.eqb _ key); [intros [= <-]; lia|]). discriminate.
Qed.

(** X26: Whatever [LOG_LEVEL] is, for an upper-casing that yields no name
    inherited from [Object.prototype], the level of the logger is a number
    from 1 to 3: errors and warnings are always written, and a [LOG_LEVEL]
    that reads ERROR gives the level of no [LOG_LEVEL] at all (INFO). *)
Theorem logger_never_runs_at_error toUpperCase LOG_LEVEL :
  (forall text, existsb (String.eqb (toUpperCase text)) Logger.inheritedNames = false) ->
  exists n,
    Logger.currentLevel toUpperCase LOG_LEVEL = Logger.Level n /\ 1 <= n <= 3 /\
    Logger.writes (Logger.currentLevel toUpperCase LOG_LEVEL) 0 = true /\
    Logger.writes (Logger.currentLevel toUpperCase LOG_LEVEL) 1 = true /\
    (forall text, LOG_LEVEL = Some text -> toUpperCase text = "ERROR" ->
                  Logger.currentLevel toUpperCase LOG_LEVEL
                  = Logger.currentLevel toUpperCase None).
Proof.
  intros U.
  assert (G : forall n, 1 <= n <= 3 ->
     exists m, Logger.Level n = Logger.Level m /\ 1 <= m <= 3 /\
               Logger.writes (Logger.Level n) 0 = true /\
               Logger.writes (Logger.Level n) 1 = true).
  { intros n H. exists n. cbn [Logger.writes].
    repeat split; lia. }
  assert (D : exists n,
             Logger.currentLevel toUpperCase None = Logger.Level n /\ 1 <= n <= 3 /\
             Logger.writes (Logger.currentLevel toUpperCase None) 0 = true /\
             Logger.writes (Logger.currentLevel toUpperCase None) 1 = true).
  { apply (G 2). lia. }
  destruct LOG_LEVEL as [text|].
  2:{ destruct D as (m & E & R & W0 & W1). exists m.
      split; [exact E|]. split; [exact R|]. split; [exact W0|]. split; [exact W1|].
      intros text H. discriminate H. }
  assert (C : Logger.currentLevel toUpperCase (Some text) = Logger.currentLevel toUpperCase None \/
              exists n, 1 <= n <= 3 /\ toUpperCase text <> "ERROR" /\
                        Logger.currentLevel toUpperCase (Some text) = Logger.Level n).
  { cbn [Logger.currentLevel]. destruct (String.eqb text EmptyString); [left; reflexivity|].
    unfold Logger.member. rewrite (U text).
    destruct (Logger.ownLevel Logger.LOG_LEVELS (toUpperCase text)) as [n|] eqn:O;
      [|left; reflexivity].
    pose proof (ownLevel_range _ _ O) as R.
    destruct (Z.eqb_spec n 0) as [->|N]; [left; reflexivity|].
    right. exists n. split; [lia|]. split; [|reflexivity].
    intros Up. rewrite Up in O. cbn in O. injection O as <-. apply N. reflexivity. }
  destruct C as [C|(n & R & NE & C)].
  - rewrite C. destruct D as (m & E & R & W0 & W1). exists m.
    split; [exact E|]. split; [exact R|]. split; [exact W0|]. split; [exact W1|].
    intros; reflexivity.
  - rewrite C. destruct (G n R) as (m & E & R' & W0 & W1). exists m.
    split; [exact E|]. split; [exact R'|]. split; [exact W0|]. split; [exact W1|].
    intros text' [= <-] Up. contradiction.
Qed.

Lemma upperAscii_idempotent c : upperAscii (upperAscii c) = upperAscii c.
Proof. destruct c as [[] [] [] [] [] [] [] []]; reflexivity. Qed.

Lemma asciiUpper_idempotent s : asciiUpper (asciiUpper s) = asciiUpper s.
Proof.
  induction s as [|c s IH]; [reflexivity|]. cbn [asciiUpper].
  rewrite upperAscii_idempotent, IH. reflexivity.
Qed.

Lemma asciiUpper_not_inherited text :
  existsb (String.eqb (asciiUpper text)) Logger.inheritedNames = false.
Proof.
  assert (H : forall name, asciiUpper name <> name -> String.eqb (asciiUpper text) name = false).
  { intros name N. apply String.eqb_neq. intros E. apply N.
    rewrite <- E. apply asciiUpper_idempotent. }
  unfold Logger.inheritedNames. cbn [existsb].
  rewrite !H by (vm_compute; discriminate). reflexivity.
Qed.

Lemma logger_never_runs_at_error_witness :
  Logger.currentLevel asciiUpper (Some "error") = Logger.Level 2 /\
  Logger.writes (Logger.currentLevel asciiUpper (Some "error")) 2 = true.
Proof.
  destruct (logger_never_runs_at_error asciiUpper (Some "error") asciiUpper_not_inherited)
    as (n & _ & _ & _ & _ & H).
  rewrite (H "error" eq_refl eq_refl). split; reflexivity.
Defined.
